(** * Code-review front end: polling, submission, cache invalidation,
      file tree, language mapping and persisted preferences.

    A shallow embedding of the TypeScript sources under [frontend/src]:
    the typed HTTP client ([lib/api.ts]), the review and pull-request pages,
    the home page, the file tree, the editor's language map and the UI
    store.  Part I holds the embedded definitions, one module per source
    file; Part II holds the properties proved about them. *)

From Stdlib Require Import ZArith NArith List String Ascii Bool Lia.
From Stdlib Require Import Decimal DecimalString DecimalN.
From Stdlib Require Import Sorted Permutation.
From stdpp Require Import gmap strings list.

Set Warnings "-register-all".

Local Open Scope Z_scope.
Local Open Scope string_scope.

(* ===================================================================== *)
(** * Part I.  Definitions                                                *)
(* ===================================================================== *)

(** ** JavaScript values and completions *)

Module Js.

(** An [Error] object: the constructor's name and its message. *)
Record JsError := mkError { err_name : string; err_message : string }.

(** The outcome of running a function body (or of awaiting the promise
    an [async] function returns): a value, or a thrown exception. *)
Inductive Completion (T : Type) : Type :=
| Returned (v : T)
| Thrown (e : JsError).
Arguments Returned {T} v.
Arguments Thrown {T} e.

(** [`${n}`] for an integer-valued number. *)
Definition Z_to_string (z : Z) : string :=
  match z with
  | Z0 => "0"
  | Zpos p => NilEmpty.string_of_uint (Pos.to_uint p)
  | Zneg p => String "-" (NilEmpty.string_of_uint (Pos.to_uint p))
  end.

(** Strings are sequences of code units; a [string] here holds the code
    units below 256. *)
Definition code (c : ascii) : N := N_of_ascii c.

(** [String.prototype.toLowerCase] on that range: A-Z and the accented
    capitals U+00C0..U+00DE (U+00D7, the multiplication sign, apart). *)
Definition lower_char (c : ascii) : ascii :=
  let n := code c in
  if ((65 <=? n) && (n <=? 90))%N then ascii_of_N (n + 32)
  else if ((192 <=? n) && (n <=? 222) && negb (n =? 215))%N then ascii_of_N (n + 32)
  else c.

Fixpoint toLowerCase (s : string) : string :=
  match s with
  | EmptyString => EmptyString
  | String c rest => String (lower_char c) (toLowerCase rest)
  end.

(** *** UTF-16 text, for [String.prototype.trim] *)

(** WhiteSpace and LineTerminator code units, the ones [trim] strips. *)
Definition isWhiteSpace (u : N) : bool :=
  ((9 <=? u) && (u <=? 13)
   || (u =? 32) || (u =? 160) || (u =? 5760)
   || ((8192 <=? u) && (u <=? 8202))
   || (u =? 8232) || (u =? 8233) || (u =? 8239) || (u =? 8287)
   || (u =? 12288) || (u =? 65279))%N.

Fixpoint trimStart (s : list N) : list N :=
  match s with
  | u :: rest => if isWhiteSpace u then trimStart rest else s
  | [] => []
  end.

Definition trimEnd (s : list N) : list N := rev (trimStart (rev s)).

Definition trim (s : list N) : list N := trimEnd (trimStart s).

(** The code units of a [string]. *)
Definition utf16 (s : string) : list N := map code (list_ascii_of_string s).

(** *** Values *)

Inductive JsNumber :=
| NInt (z : Z)          (* a finite, integer-valued number *)
| NaN
| PosInfinity
| NegInfinity.

Inductive JsValue :=
| JUndefined
| JNull
| JBool (b : bool)
| JNum (n : JsNumber)
| JStr (s : string)
| JArray (items : list JsValue)
| JObject (props : list (string * JsValue))  (* own properties, in insertion order *)
| JBuiltin (name : string)                   (* a built-in function object *)
| JObjectPrototype.                          (* %Object.prototype% *)

(** Own property lookup. *)
Fixpoint own_property (key : string) (props : list (string * JsValue))
  : option JsValue :=
  match props with
  | [] => None
  | (k, v) :: rest => if String.eqb k key then Some v else own_property key rest
  end.

(** Defining a property: an existing key keeps its place and takes the
    new value, a new key goes last. *)
Fixpoint set_property (key : string) (v : JsValue) (props : list (string * JsValue))
  : list (string * JsValue) :=
  match props with
  | [] => [(key, v)]
  | (k, w) :: rest =>
      if String.eqb k key then (k, v) :: rest
      else (k, w) :: set_property key v rest
  end.

(** The members every ordinary object inherits from %Object.prototype%. *)
Definition object_prototype_methods : list string :=
  [ "hasOwnProperty"; "isPrototypeOf"; "propertyIsEnumerable";
    "toLocaleString"; "toString"; "valueOf";
    "__defineGetter__"; "__defineSetter__";
    "__lookupGetter__"; "__lookupSetter__" ].

Definition object_prototype_member (key : string) : option JsValue :=
  if String.eqb key "constructor" then Some (JBuiltin "Object")
  else if String.eqb key "__proto__" then Some JObjectPrototype
  else if existsb (String.eqb key) object_prototype_methods then Some (JBuiltin key)
  else None.

(** [obj[key]] on an object created by a literal or by [JSON.parse]:
    own properties first, then the prototype chain, else [undefined]. *)
Definition get (props : list (string * JsValue)) (key : string) : JsValue :=
  match own_property key props with
  | Some v => v
  | None =>
      match object_prototype_member key with
      | Some v => v
      | None => JUndefined
      end
  end.

(** [a ?? b] *)
Definition nullish (a b : JsValue) : JsValue :=
  match a with
  | JUndefined | JNull => b
  | _ => a
  end.

Definition TypeError (msg : string) : JsError := mkError "TypeError" msg.
Definition SyntaxError (msg : string) : JsError := mkError "SyntaxError" msg.

(** [v.key] on any value.  [null] and [undefined] have no members; the
    primitives and arrays are looked up through their wrappers, of which
    [length] and what is inherited from %Object.prototype% are modelled. *)
Definition member (v : JsValue) (key : string) : Completion JsValue :=
  match v with
  | JUndefined | JNull =>
      Thrown (TypeError ("Cannot read properties of null or undefined (reading '"
                           ++ key ++ "')"))
  | JObject props => Returned (get props key)
  | JStr s =>
      if String.eqb key "length" then Returned (JNum (NInt (Z.of_nat (String.length s))))
      else Returned (get [] key)
  | JArray items =>
      if String.eqb key "length" then Returned (JNum (NInt (Z.of_nat (List.length items))))
      else Returned (get [] key)
  | _ => Returned (get [] key)
  end.

End Js.

(** ** [JSON.stringify] and [JSON.parse]

    The text grammar covered is JSON without fractions, exponents and
    [\u] escapes above U+00FF: literals, integers, strings, arrays and
    objects, with insignificant white space.  A text that uses what is
    left out is reported as a syntax error here. *)

Module JSON.
Import Js.

Definition dquote : ascii := ascii_of_nat 34.
Definition backslash : ascii := ascii_of_nat 92.

Definition hex_digit (n : N) : ascii :=
  if (n <? 10)%N then ascii_of_N (48 + n) else ascii_of_N (87 + n).

(** [QuoteJSONString]: the two-character escapes, [\u00XX] for the other
    control characters. *)
Fixpoint quote_body (s : string) : string :=
  match s with
  | EmptyString => EmptyString
  | String c rest =>
      let n := code c in
      (if Ascii.eqb c dquote then String backslash (String dquote EmptyString)
       else if Ascii.eqb c backslash then String backslash (String backslash EmptyString)
       else if (n =? 8)%N then String backslash "b"
       else if (n =? 9)%N then String backslash "t"
       else if (n =? 10)%N then String backslash "n"
       else if (n =? 12)%N then String backslash "f"
       else if (n =? 13)%N then String backslash "r"
       else if (n <? 32)%N
            then String backslash
                   (String "u" (String "0" (String "0"
                      (String (hex_digit (n / 16)) (String (hex_digit (n mod 16)) EmptyString)))))
       else String c EmptyString) ++ quote_body rest
  end.

Definition quote (s : string) : string :=
  String dquote (quote_body s ++ String dquote EmptyString).

Fixpoint join (sep : string) (parts : list string) : string :=
  match parts with
  | [] => EmptyString
  | [p] => p
  | p :: rest => p ++ sep ++ join sep rest
  end.

(** [SerializeJSONProperty]: [None] is [undefined] (nothing is written).
    A number that is not finite is written as [null]; in an array an
    [undefined] element is written as [null], in an object a property
    whose value is [undefined] is left out. *)
Fixpoint stringify (v : JsValue) : option string :=
  match v with
  | JUndefined => None
  | JBuiltin _ => None
  | JNull => Some "null"
  | JBool true => Some "true"
  | JBool false => Some "false"
  | JNum (NInt z) => Some (Z_to_string z)
  | JNum _ => Some "null"
  | JStr s => Some (quote s)
  | JArray items =>
      Some ("[" ++ join ","
              (map (fun x => match stringify x with Some t => t | None => "null" end) items)
            ++ "]")
  | JObject props =>
      Some ("{" ++ join ","
              ((fix members (ps : list (string * JsValue)) : list string :=
                  match ps with
                  | [] => []
                  | (k, x) :: rest =>
                      match stringify x with
                      | Some t => (quote k ++ ":" ++ t) :: members rest
                      | None => members rest
                      end
                  end) props)
            ++ "}")
  | JObjectPrototype => Some "{}"
  end.

(** The text [JSON.stringify] returns, as a string. *)
Definition text (v : JsValue) : string :=
  match stringify v with
  | Some t => t
  | None => "undefined"
  end.

(** *** Parsing *)

Definition is_ws (c : ascii) : bool :=
  let n := code c in ((n =? 32) || (n =? 9) || (n =? 10) || (n =? 13))%N.

Fixpoint skip_ws (s : string) : string :=
  match s with
  | String c rest => if is_ws c then skip_ws rest else s
  | EmptyString => EmptyString
  end.

Definition is_digit (c : ascii) : bool :=
  let n := code c in ((48 <=? n) && (n <=? 57))%N.

(** The longest prefix of digits, and what follows it. *)
Fixpoint span_digits (s : string) : string * string :=
  match s with
  | String c rest =>
      if is_digit c
      then let '(ds, r) := span_digits rest in (String c ds, r)
      else (EmptyString, s)
  | EmptyString => (EmptyString, EmptyString)
  end.

Definition hex_value (c : ascii) : option N :=
  let n := code c in
  if ((48 <=? n) && (n <=? 57))%N then Some (n - 48)%N
  else if ((97 <=? n) && (n <=? 102))%N then Some (n - 87)%N
  else if ((65 <=? n) && (n <=? 70))%N then Some (n - 55)%N
  else None.

Definition unescape (e : ascii) : option ascii :=
  if Ascii.eqb e dquote then Some dquote
  else if Ascii.eqb e backslash then Some backslash
  else if Ascii.eqb e "/" then Some "/"%char
  else if Ascii.eqb e "b" then Some (ascii_of_nat 8)
  else if Ascii.eqb e "f" then Some (ascii_of_nat 12)
  else if Ascii.eqb e "n" then Some (ascii_of_nat 10)
  else if Ascii.eqb e "r" then Some (ascii_of_nat 13)
  else if Ascii.eqb e "t" then Some (ascii_of_nat 9)
  else None.

Definition prepend (c : ascii) (r : option (string * string)) : option (string * string) :=
  match r with
  | Some (body, rest) => Some (String c body, rest)
  | None => None
  end.

(** A string, from just after its opening quote: its characters, and
    the text after the closing quote. *)
Fixpoint parse_string_body (s : string) : option (string * string) :=
  match s with
  | EmptyString => None
  | String c rest =>
      if Ascii.eqb c dquote then Some (EmptyString, rest)
      else if Ascii.eqb c backslash then
        match rest with
        | EmptyString => None
        | String e rest1 =>
            if Ascii.eqb e "u" then
              match rest1 with
              | String h1 (String h2 (String h3 (String h4 rest2))) =>
                  match hex_value h1, hex_value h2, hex_value h3, hex_value h4 with
                  | Some a, Some b, Some c3, Some d =>
                      let n := (((a * 16 + b) * 16 + c3) * 16 + d)%N in
                      if (n <? 256)%N
                      then prepend (ascii_of_N n) (parse_string_body rest2)
                      else None
                  | _, _, _, _ => None
                  end
              | _ => None
              end
            else
              match unescape e with
              | Some ch => prepend ch (parse_string_body rest1)
              | None => None
              end
        end
      else if (code c <? 32)%N then None
      else prepend c (parse_string_body rest)
  end.

(** [-]? digits, without a superfluous leading zero. *)
Definition parse_number (s : string) : option (JsValue * string) :=
  let '(negative, s1) :=
    match s with
    | String c r => if Ascii.eqb c "-" then (true, r) else (false, s)
    | EmptyString => (false, s)
    end in
  let '(ds, rest) := span_digits s1 in
  match ds with
  | EmptyString => None
  | String c more =>
      if Ascii.eqb c "0" && negb (String.eqb more EmptyString) then None
      else
        match NilEmpty.uint_of_string ds with
        | Some u =>
            let n := Z.of_N (N.of_uint u) in
            Some (JNum (NInt (if negative then - n else n)), rest)
        | None => None
        end
  end.

(** The literal [word], whose first letter has been read: the rest of it
    has to follow. *)
Fixpoint expect (word s : string) : option string :=
  match word, s with
  | EmptyString, _ => Some s
  | String w word', String c s' => if Ascii.eqb w c then expect word' s' else None
  | String _ _, EmptyString => None
  end.

(** The next character that is not white space, and what follows it. *)
Definition peek (s : string) : option (ascii * string) :=
  match skip_ws s with
  | String c r => Some (c, r)
  | EmptyString => None
  end.

Fixpoint parse_value (fuel : nat) (s : string) {struct fuel}
  : option (JsValue * string) :=
  match fuel with
  | O => None
  | S fuel =>
      match peek s with
      | None => None
      | Some (c, r) =>
          if Ascii.eqb c "n" then option_map (pair JNull) (expect "ull" r)
          else if Ascii.eqb c "t" then option_map (pair (JBool true)) (expect "rue" r)
          else if Ascii.eqb c "f" then option_map (pair (JBool false)) (expect "alse" r)
          else if Ascii.eqb c "[" then
            match peek r with
            | None => None
            | Some (c1, r1) =>
                if Ascii.eqb c1 "]" then Some (JArray [], r1)
                else
                  match parse_elements fuel [] r with
                  | Some (items, r2) => Some (JArray items, r2)
                  | None => None
                  end
            end
          else if Ascii.eqb c "{" then
            match peek r with
            | None => None
            | Some (c1, r1) =>
                if Ascii.eqb c1 "}" then Some (JObject [], r1)
                else
                  match parse_members fuel [] r with
                  | Some (props, r2) => Some (JObject props, r2)
                  | None => None
                  end
            end
          else if Ascii.eqb c dquote then
            match parse_string_body r with
            | Some (str, r1) => Some (JStr str, r1)
            | None => None
            end
          else parse_number (String c r)
      end
  end

(** The elements of an array, from just after [[] or [,]. *)
with parse_elements (fuel : nat) (acc : list JsValue) (s : string) {struct fuel}
  : option (list JsValue * string) :=
  match fuel with
  | O => None
  | S fuel =>
      match parse_value fuel s with
      | None => None
      | Some (v, r) =>
          match peek r with
          | None => None
          | Some (c, r1) =>
              if Ascii.eqb c "," then parse_elements fuel (acc ++ [v])%list r1
              else if Ascii.eqb c "]" then Some ((acc ++ [v])%list, r1)
              else None
          end
      end
  end

(** The members of an object, from just after [{] or [,]; a repeated key
    keeps its last value. *)
with parse_members (fuel : nat) (acc : list (string * JsValue)) (s : string)
                   {struct fuel}
  : option (list (string * JsValue) * string) :=
  match fuel with
  | O => None
  | S fuel =>
      match peek s with
      | None => None
      | Some (q, r) =>
          if negb (Ascii.eqb q dquote) then None
          else
            match parse_string_body r with
            | None => None
            | Some (key, r1) =>
                match peek r1 with
                | None => None
                | Some (colon, r2) =>
                    if negb (Ascii.eqb colon ":") then None
                    else
                      match parse_value fuel r2 with
                      | None => None
                      | Some (v, r3) =>
                          match peek r3 with
                          | None => None
                          | Some (c, r4) =>
                              if Ascii.eqb c ","
                              then parse_members fuel (set_property key v acc) r4
                              else if Ascii.eqb c "}"
                                   then Some (set_property key v acc, r4)
                                   else None
                          end
                      end
                end
            end
      end
  end.

(** [JSON.parse(text)]: the value, or a [SyntaxError]. *)
Definition parse (text : string) : Completion JsValue :=
  match parse_value (2 * String.length text + 2) text with
  | Some (v, rest) =>
      match skip_ws rest with
      | EmptyString => Returned v
      | _ => Thrown (SyntaxError "Unexpected non-whitespace character after JSON")
      end
  | None => Thrown (SyntaxError "Unexpected token in JSON")
  end.

End JSON.

(** ** [lib/api.ts]: the records mirrored from the server *)

Module Api.
Import Js.

(** [status: "pending" | "analyzing" | "completed" | "failed"] *)
Inductive ReviewStatus := pending | analyzing | completed | failed.

(** The string each member of the union is at run time. *)
Definition status_str (s : ReviewStatus) : string :=
  match s with
  | pending => "pending"
  | analyzing => "analyzing"
  | completed => "completed"
  | failed => "failed"
  end.

Record ReviewComment := {
  rc_id : Z;
  line_start : Z;
  line_end : Z;
  rc_content : string;
  severity : string;
  suggestion : option string
}.

Record ReviewResult := {
  summary : string;
  rr_issues_found : Z;
  security_issues : Z;
  ai_model_used : string
}.

(** [CodeReviewDetail extends CodeReview] *)
Record CodeReviewDetail := {
  id : Z;
  code_content : list N;
  language : option string;
  filename : option string;
  status : ReviewStatus;
  created_at : string;
  comments : list ReviewComment;
  result : option ReviewResult
}.

Record PRReview := {
  pr_id : Z;
  pr_number : Z;
  pr_title : option string;
  head_sha : string;
  pr_status : ReviewStatus;
  github_review_id : option Z;
  issues_found : Z;
  files_reviewed : Z;
  error_message : option string;
  completed_at : option string
}.

Record CreateReviewRequest := {
  cr_code_content : list N;
  cr_language : option string;
  cr_filename : option string
}.

Record ReviewFileRequest := {
  rf_path : string;
  rf_ref : option string;
  use_complex_model : option bool
}.

(** *** [fetchApi] *)

Record RequestInit := {
  method : option string;
  body : option string;
  headers : gmap string string
}.

Record Response := {
  resp_status : Z;
  resp_body : string
}.

(** [response.ok]: the status is in the range 200-299. *)
Definition ok (response : Response) : bool :=
  ((200 <=? resp_status response) && (resp_status response <=? 299))%Z.

(** [response.json()]: the body text, parsed. *)
Definition json (response : Response) : Completion JsValue :=
  JSON.parse (resp_body response).

Section Client.
(** [process.env.NEXT_PUBLIC_API_URL || "http://localhost:8000"] *)
Variable API_URL : string.
(** The network: what [fetch(url, init)] settles to. *)
Variable fetch : string -> RequestInit -> Completion Response.

(** [{ ...options, headers: { "Content-Type": "application/json",
       ...options?.headers } }] *)
Definition withJsonHeaders (options : option RequestInit) : RequestInit :=
  match options with
  | Some o =>
      {| method := method o;
         body := body o;
         headers := headers o ∪ {[ "Content-Type" := "application/json" ]} |}
  | None =>
      {| method := None;
         body := None;
         headers := {[ "Content-Type" := "application/json" ]} |}
  end.

Definition fetchApi (endpoint : string) (options : option RequestInit)
  : Completion JsValue :=
  match fetch (API_URL ++ endpoint) (withJsonHeaders options) with
  | Thrown e => Thrown e
  | Returned response =>
      if negb (ok response)
      then Thrown (mkError "Error" ("API error: " ++ Z_to_string (resp_status response)))
      else json response
  end.
End Client.

(** *** The calls of [api] and the request each one sends

    [getRepoContents] and [getFileContent], which assemble their query
    string with [URLSearchParams], are not among the constructors; their
    endpoints are in [UrlSearchParams] below. *)

Inductive Call :=
| createReview (data : CreateReviewRequest)
| listReviews (page pageSize : Z)
| getReview (id : Z)
| analyzeReview (id : Z) (useComplexModel : bool)
| deleteReview (id : Z)
| syncInstallations
| listInstallations
| listRepos (installationId : option Z)
| reviewFile (owner repo : string) (request : ReviewFileRequest)
| listPullRequests (owner repo state : string)
| listPRReviews (owner repo : string) (prNumber : Z)
| reviewPullRequest (owner repo : string) (prNumber : Z) (useComplexModel : bool).

Definition endpoint (c : Call) : string :=
  match c with
  | createReview _ => "/api/reviews"
  | listReviews page pageSize =>
      "/api/reviews?page=" ++ Z_to_string page ++ "&page_size=" ++ Z_to_string pageSize
  | getReview id => "/api/reviews/" ++ Z_to_string id
  | analyzeReview id _ => "/api/reviews/" ++ Z_to_string id ++ "/analyze"
  | deleteReview id => "/api/reviews/" ++ Z_to_string id
  | syncInstallations => "/api/github/installations/sync"
  | listInstallations => "/api/github/installations"
  | listRepos installationId =>
      "/api/github/repos"
        ++ match installationId with
           | Some n => if (n =? 0)%Z then EmptyString
                       else "?installation_id=" ++ Z_to_string n
           | None => EmptyString
           end
  | reviewFile owner repo _ => "/api/github/repos/" ++ owner ++ "/" ++ repo ++ "/review"
  | listPullRequests owner repo state =>
      "/api/github/repos/" ++ owner ++ "/" ++ repo ++ "/pulls?state=" ++ state
  | listPRReviews owner repo prNumber =>
      "/api/github/repos/" ++ owner ++ "/" ++ repo ++ "/pulls/"
        ++ Z_to_string prNumber ++ "/reviews"
  | reviewPullRequest owner repo prNumber _ =>
      "/api/github/repos/" ++ owner ++ "/" ++ repo ++ "/pulls/"
        ++ Z_to_string prNumber ++ "/review"
  end.

(** The [method] option of the call; a call without one is a GET. *)
Definition httpMethod (c : Call) : string :=
  match c with
  | createReview _ | analyzeReview _ _ | syncInstallations
  | reviewFile _ _ _ | reviewPullRequest _ _ _ _ => "POST"
  | deleteReview _ => "DELETE"
  | _ => "GET"
  end.

End Api.

(** ** The data-fetching cache the pages are wired into

    The pages hand callbacks to a third-party query cache.  What is
    modelled of it is its observable contract: the per-query state the
    callbacks read, how one settled fetch updates that state, and how the
    timer consults [refetchInterval] after every update. *)

Module Query.
Import Js.

(** [query.state]: the cached data and the bookkeeping kept beside it. *)
Record QueryState (T : Type) := mkState {
  data : option T;
  dataUpdateCount : nat;
  error : option JsError;
  errorUpdateCount : nat;
  fetchFailureCount : nat;
  isFetching : bool
}.
Arguments mkState {T}.
Arguments data {T}.
Arguments dataUpdateCount {T}.
Arguments error {T}.
Arguments errorUpdateCount {T}.
Arguments fetchFailureCount {T}.
Arguments isFetching {T}.

(** A query that has not fetched yet. *)
Definition initial {T} : QueryState T :=
  mkState None 0 None 0 0 true.

(** What a [refetchInterval] callback returns: [number | false]. *)
Inductive Interval := Every (ms : Z) | Off.

(** One settled run of [queryFn]. *)
Inductive FetchOutcome (T : Type) :=
| Fetched (d : T)
| FetchFailed (e : JsError).
Arguments Fetched {T} d.
Arguments FetchFailed {T} e.

(** A settled fetch updates the state: success replaces the data and
    clears the error; failure records the error and keeps the data that
    was last fetched. *)
Definition settle {T} (st : QueryState T) (o : FetchOutcome T) : QueryState T :=
  match o with
  | Fetched d =>
      mkState (Some d) (S (dataUpdateCount st)) None (errorUpdateCount st) 0 false
  | FetchFailed e =>
      mkState (data st) (dataUpdateCount st) (Some e) (S (errorUpdateCount st))
              (S (fetchFailureCount st)) false
  end.

(** [isLoading]: the first fetch is in flight and nothing is cached. *)
Definition isLoading {T} (st : QueryState T) : bool :=
  isFetching st &&
  match data st, error st with None, None => true | _, _ => false end.

(** The timer.  After every state update the callback is consulted; a
    number schedules the next run of [queryFn] that many milliseconds
    later, [false] schedules nothing.  [server] lists what the
    successive fetches will settle to; the result lists the delays of
    the fetches that were issued, and the state left behind. *)
Fixpoint poll {T} (refetchInterval : QueryState T -> Interval)
         (st : QueryState T) (server : list (FetchOutcome T))
  : list Z * QueryState T :=
  match refetchInterval st, server with
  | Every ms, o :: rest =>
      let '(delays, st') := poll refetchInterval (settle st o) rest in
      (ms :: delays, st')
  | _, _ => ([], st)
  end.

(** *** Cache entries and invalidation *)

(** One element of a query key. *)
Inductive KeyPart := KStr (s : string) | KNum (n : Z).

Global Instance KeyPart_eq_dec : EqDecision KeyPart.
Proof. solve_decision. Defined.

Global Instance KeyPart_countable : Countable KeyPart.
Proof.
  refine (inj_countable'
            (fun k => match k with KStr s => inl s | KNum n => inr n end)
            (fun x => match x with inl s => KStr s | inr n => KNum n end) _).
  intros []; reflexivity.
Defined.

Abbreviation QueryKey := (list KeyPart).

Record CacheEntry (D : Type) := mkEntry {
  cached : D;
  isInvalidated : bool
}.
Arguments mkEntry {D}.
Arguments cached {D}.
Arguments isInvalidated {D}.

(** A filter key matches every query key it is a prefix of. *)
Fixpoint partialMatchKey (filter key : QueryKey) : bool :=
  match filter, key with
  | [], _ => true
  | f :: fs, k :: ks => bool_decide (f = k) && partialMatchKey fs ks
  | _ :: _, [] => false
  end.

(** [queryClient.invalidateQueries({ queryKey })]: every matching entry
    is marked invalidated. *)
Definition invalidateQueries {D} (filter : QueryKey)
           (cache : gmap QueryKey (CacheEntry D)) : gmap QueryKey (CacheEntry D) :=
  map_imap (fun k e =>
              Some (if partialMatchKey filter k
                    then mkEntry (cached e) true
                    else e)) cache.

(** A read of [key] has to go to the server when nothing is cached under
    it or the entry has been invalidated. *)
Definition mustRefetch {D} (cache : gmap QueryKey (CacheEntry D))
           (key : QueryKey) : bool :=
  match cache !! key with
  | Some e => isInvalidated e
  | None => true
  end.

(** A mutation: the call its [mutationFn] makes and what its
    [onSuccess] handler, when it has one, does to the cache. *)
Record Mutation (D : Type) := mkMutation {
  mutationFn : Api.Call;
  onSuccess : option (gmap QueryKey (CacheEntry D) -> gmap QueryKey (CacheEntry D))
}.
Arguments mkMutation {D}.
Arguments mutationFn {D}.
Arguments onSuccess {D}.

(** The handler runs only when the request succeeded. *)
Definition settleMutation {D} (m : Mutation D) (succeeded : bool)
           (cache : gmap QueryKey (CacheEntry D)) : gmap QueryKey (CacheEntry D) :=
  match succeeded, onSuccess m with
  | true, Some handler => handler cache
  | _, _ => cache
  end.

End Query.

(** ** [app/reviews/[id]/page.tsx] *)

Module ReviewPage.
Import Js Api Query.

(** [refetchInterval: (query) => { const data = query.state.data;
      return data?.status === "analyzing" ? 2000 : false; }] *)
Definition refetchInterval (state : QueryState CodeReviewDetail) : Interval :=
  let data := Query.data state in
  if match data with
     | Some d => String.eqb (status_str (status d)) "analyzing"
     | None => false
     end
  then Every 2000 else Off.

(** [queryKey: ["review", reviewId]] *)
Definition queryKey (reviewId : Z) : QueryKey := [KStr "review"; KNum reviewId].

(** [analyzeMutation]: on success, invalidate [["review", reviewId]]. *)
Definition analyzeMutation {D} (reviewId : Z) (useComplexModel : bool) : Mutation D :=
  mkMutation (analyzeReview reviewId useComplexModel)
             (Some (invalidateQueries (queryKey reviewId))).

(** [canAnalyze] and [isAnalyzing] *)
Definition canAnalyze (review : CodeReviewDetail) : bool :=
  String.eqb (status_str (status review)) "pending"
  || String.eqb (status_str (status review)) "failed".

Definition isAnalyzing (review : CodeReviewDetail) : bool :=
  String.eqb (status_str (status review)) "analyzing".

(** The "Start Analysis" control: the model checkbox and the button. *)
Record AnalyzeControls := {
  checked : bool;
  disabled : bool;
  label : string
}.

(** What the page shows of a loaded review. *)
Record ReviewView := {
  shown : CodeReviewDetail;
  badge : string;
  controls : option AnalyzeControls;
  spinner : bool
}.

Inductive View :=
| LoadingView
| FailedToLoad
| Loaded (v : ReviewView).

(** The component body, from the three values it takes from the query
    ([data], [isLoading], [error]) and its own state. *)
Definition render (review : option CodeReviewDetail) (isLoading : bool)
           (error : option JsError) (useComplexModel analyzePending : bool) : View :=
  if isLoading then LoadingView
  else match error, review with
       | Some _, _ => FailedToLoad
       | None, None => FailedToLoad
       | None, Some review =>
           Loaded {|
             shown := review;
             badge := status_str (status review);
             controls :=
               if canAnalyze review
               then Some {| checked := useComplexModel;
                            disabled := analyzePending;
                            label := if analyzePending then "Starting..."
                                     else "Start Analysis" |}
               else None;
             spinner := isAnalyzing review
           |}
       end.

(** The page as a function of the query's state. *)
Definition page (st : QueryState CodeReviewDetail)
           (useComplexModel analyzePending : bool) : View :=
  render (Query.data st) (Query.isLoading st) (Query.error st)
         useComplexModel analyzePending.

(** Whether the page offers the transition into analysis. *)
Definition offersStartAnalysis (v : View) : bool :=
  match v with
  | Loaded rv => match controls rv with Some _ => true | None => false end
  | _ => false
  end.

End ReviewPage.

(** ** The pull-request detail page *)

Module PRDetailPage.
Import Js Api Query.

(** [data?.some((r) => r.status === "analyzing")]: [undefined] when
    nothing is cached. *)
Definition hasAnalyzing (data : option (list PRReview)) : option bool :=
  match data with
  | Some rs => Some (existsb (fun r => String.eqb (status_str (pr_status r)) "analyzing") rs)
  | None => None
  end.

(** Truthiness of [boolean | undefined]. *)
Definition truthy (v : option bool) : bool :=
  match v with Some b => b | None => false end.

(** [return hasAnalyzing ? 3000 : false] *)
Definition refetchInterval (state : QueryState (list PRReview)) : Interval :=
  let data := Query.data state in
  if truthy (hasAnalyzing data) then Every 3000 else Off.

(** [queryKey: ["pr-reviews", owner, repo, prNumber]] *)
Definition queryKey (owner repo : string) (prNumber : Z) : QueryKey :=
  [KStr "pr-reviews"; KStr owner; KStr repo; KNum prNumber].

(** [api.github.reviewPullRequest(owner, repo, prNumber)]: the fourth
    parameter takes its default, [false]. *)
Definition reviewMutation {D} (owner repo : string) (prNumber : Z) : Mutation D :=
  mkMutation (reviewPullRequest owner repo prNumber false)
             (Some (invalidateQueries (queryKey owner repo prNumber))).

End PRDetailPage.

(** ** [app/github/[owner]/[repo]/pulls/page.tsx] *)

Module PullsPage.
Import Api Query.

(** [queryKey: ["pulls", owner, repo]] *)
Definition queryKey (owner repo : string) : QueryKey :=
  [KStr "pulls"; KStr owner; KStr repo].

(** [reviewMutation]: on success, invalidate the list of pull requests. *)
Definition reviewMutation {D} (owner repo : string) (prNumber : Z) : Mutation D :=
  mkMutation (reviewPullRequest owner repo prNumber false)
             (Some (invalidateQueries (queryKey owner repo))).

End PullsPage.

(** ** [app/github/[owner]/[repo]/page.tsx]: the repository browser *)

Module RepoPage.
Import Api Query.

(** [queryKey: ["repo-contents", owner, repo, currentPath]] *)
Definition contentsKey (owner repo currentPath : string) : QueryKey :=
  [KStr "repo-contents"; KStr owner; KStr repo; KStr currentPath].

(** [useMutation({ mutationFn: (path) => api.github.reviewFile(owner,
      repo, { path, use_complex_model: false }) })]: no handler. *)
Definition reviewMutation {D} (owner repo path : string) : Mutation D :=
  mkMutation (reviewFile owner repo
                {| rf_path := path; rf_ref := None; use_complex_model := Some false |})
             None.

End RepoPage.

(** ** The GitHub installations page *)

Module GitHubPage.
Import Api Query.

(** [queryKey: ["github-installations"]] *)
Definition queryKey : QueryKey := [KStr "github-installations"].

(** [syncMutation]: on success, invalidate the installations (and show a
    message for five seconds, which is no matter of the cache). *)
Definition syncMutation {D} : Mutation D :=
  mkMutation syncInstallations (Some (invalidateQueries queryKey)).

End GitHubPage.

(** ** [app/page.tsx]: the home page *)

Module HomePage.
Import Js Api Query.

(** The component's state, and whether [createReview] is in flight. *)
Record State := {
  code : list N;
  language : string;
  filename : string;
  isPending : bool
}.

(** [!s] for a string: it is empty. *)
Definition isEmpty (s : list N) : bool :=
  match s with [] => true | _ :: _ => false end.

(** [s || undefined] *)
Definition orUndefined (s : string) : option string :=
  match s with EmptyString => None | _ => Some s end.

(** [createReview]: the mutation, and where [onSuccess] navigates. *)
Definition createReviewCall (st : State) : Call :=
  createReview {| cr_code_content := code st;
                  cr_language := orUndefined (language st);
                  cr_filename := orUndefined (filename st) |}.

(** [onSuccess: (data) => router.push(...)] leaves the cache alone. *)
Definition createReviewMutation {D} (st : State) : Mutation D :=
  mkMutation (createReviewCall st) (Some (fun cache => cache)).

(** [handleSubmit]: the calls it makes.
    [if (!code.trim()) return; createReview.mutate();] *)
Definition handleSubmit (st : State) : list Call :=
  if isEmpty (trim (code st)) then []
  else [createReviewCall st].

(** [disabled={!code.trim() || createReview.isPending}] *)
Definition submitDisabled (st : State) : bool :=
  isEmpty (trim (code st)) || isPending st.

End HomePage.

(** ** The file tree component *)

Module FileTree.
Import Js.

Record FileTreeItem := {
  name : string;
  path : string;
  type : string;
  size : option Z
}.

(** Arrays live in a store and are handed around by reference. *)
Abbreviation Store := (gmap positive (list FileTreeItem)).

(** One rendered row. *)
Record Row := {
  key : string;
  folderIcon : bool;
  text : string;
  showsSize : bool;
  selected : bool
}.

Record Rendered := {
  rows : list Row;
  emptyDirectory : bool
}.

Section Sorting.
(** [String.prototype.localeCompare] under the browser's locale: a
    negative, zero or positive number. *)
Variable localeCompare : string -> string -> Z.

(** The comparator handed to [sort]. *)
Definition compareItems (a b : FileTreeItem) : Z :=
  if String.eqb (type a) "dir" && negb (String.eqb (type b) "dir") then -1
  else if negb (String.eqb (type a) "dir") && String.eqb (type b) "dir" then 1
  else localeCompare (name a) (name b).

(** [a] may stay before [b]: the comparator does not return a positive
    number. *)
Definition notAfter (a b : FileTreeItem) : Prop := compareItems a b <= 0.

Global Instance notAfter_dec a b : Decision (notAfter a b).
Proof. unfold notAfter. apply _. Defined.

(** [[...items]]: a new array with the same elements. *)
Definition spread (store : Store) (items : positive) : positive * Store :=
  let copy := fresh (dom store) in
  (copy, <[copy := store !!! items]> store).

(** [Array.prototype.sort] is stable: an element goes before the first
    one it may stay before, so elements that compare equal keep their
    order. *)
Fixpoint insertSorted (x : FileTreeItem) (l : list FileTreeItem) : list FileTreeItem :=
  match l with
  | [] => [x]
  | y :: rest =>
      if decide (notAfter x y) then x :: y :: rest
      else y :: insertSorted x rest
  end.

Definition sorted (l : list FileTreeItem) : list FileTreeItem :=
  foldr insertSorted [] l.

(** [array.sort(compareItems)], in place. *)
Definition sort (array : positive) (store : Store) : Store :=
  alter sorted array store.

Definition row (selectedPath : option string) (item : FileTreeItem) : Row :=
  {| key := path item;
     folderIcon := String.eqb (type item) "dir";
     text := name item;
     showsSize := String.eqb (type item) "file"
                  && match size item with Some _ => true | None => false end;
     selected := match selectedPath with
                 | Some p => String.eqb p (path item)
                 | None => false
                 end |}.

(** The component: the array it displays, what it renders, and the
    store it leaves. *)
Definition FileTree (store : Store) (items : positive) (selectedPath : option string)
  : positive * Rendered * Store :=
  let '(sortedItems, store1) := spread store items in
  let store2 := sort sortedItems store1 in
  (sortedItems,
   {| rows := map (row selectedPath) (store2 !!! sortedItems);
      emptyDirectory := Nat.eqb (List.length (store2 !!! items)) 0 |},
   store2).
End Sorting.

End FileTree.

(** ** [components/CodeEditor.tsx] *)

Module CodeEditor.
Import Js.

(** The object literal [languageMap]. *)
Definition languageMap : list (string * JsValue) :=
  [ ("python", JStr "python"); ("py", JStr "python");
    ("javascript", JStr "javascript"); ("js", JStr "javascript");
    ("typescript", JStr "typescript"); ("ts", JStr "typescript");
    ("tsx", JStr "typescript"); ("jsx", JStr "javascript");
    ("java", JStr "java"); ("go", JStr "go"); ("golang", JStr "go");
    ("rust", JStr "rust"); ("rs", JStr "rust");
    ("c", JStr "c"); ("cpp", JStr "cpp"); ("c++", JStr "cpp");
    ("csharp", JStr "csharp"); ("cs", JStr "csharp");
    ("ruby", JStr "ruby"); ("rb", JStr "ruby");
    ("php", JStr "php"); ("html", JStr "html"); ("css", JStr "css");
    ("json", JStr "json"); ("yaml", JStr "yaml"); ("yml", JStr "yaml");
    ("markdown", JStr "markdown"); ("md", JStr "markdown");
    ("sql", JStr "sql"); ("shell", JStr "shell");
    ("bash", JStr "shell"); ("sh", JStr "shell") ].

(** [return languageMap[language.toLowerCase()] ?? "plaintext";] *)
Definition mapLanguage (language : string) : JsValue :=
  nullish (get languageMap (toLowerCase language)) (JStr "plaintext").

(** The same body run on whatever value it is handed: only a string has
    a [toLowerCase] to call. *)
Definition mapLanguageOf (language : JsValue) : Completion JsValue :=
  match language with
  | JStr s => Returned (mapLanguage s)
  | _ => Thrown (TypeError "language.toLowerCase is not a function")
  end.

(** The language identifiers the table maps to, and the fallback. *)
Definition monacoIds : list string :=
  [ "python"; "javascript"; "typescript"; "java"; "go"; "rust"; "c"; "cpp";
    "csharp"; "ruby"; "php"; "html"; "css"; "json"; "yaml"; "markdown";
    "sql"; "shell"; "plaintext" ].

End CodeEditor.

(** ** [stores/reviewStore.ts] *)

Module ReviewStore.
Import Js.

(** The store's data.  The two persisted fields hold whatever value was
    last put there; [wellTyped] says they have their declared types. *)
Record UIState := {
  theme : JsValue;
  editorFontSize : JsValue;
  sidebarOpen : bool;
  selectedIssueId : option Z
}.


Definition initialState : UIState :=
  {| theme := JStr "dark";
     editorFontSize := JNum (NInt 14);
     sidebarOpen := true;
     selectedIssueId := None |}.



Definition toggleSidebar (st : UIState) : UIState :=
  {| theme := theme st; editorFontSize := editorFontSize st;
     sidebarOpen := negb (sidebarOpen st); selectedIssueId := selectedIssueId st |}.

Definition setSelectedIssue (i : option Z) (st : UIState) : UIState :=
  {| theme := theme st; editorFontSize := editorFontSize st;
     sidebarOpen := sidebarOpen st; selectedIssueId := i |}.

(** [localStorage] *)
Abbreviation Storage := (gmap string string).

(** The subscriber: [localStorage.setItem("ui-preferences",
      JSON.stringify({ theme, editorFontSize }))]. *)
Definition persisted (st : UIState) : string :=
  JSON.text (JObject [ ("theme", theme st);
                       ("editorFontSize", editorFontSize st) ]).

Definition subscriber (st : UIState) (localStorage : Storage) : Storage :=
  <["ui-preferences" := persisted st]> localStorage.

(** The body of the [try], given what [JSON.parse(stored)] completed
    with; anything thrown inside is swallowed by the empty [catch]. *)
Definition restoreParsed (parsed : Completion JsValue) (st : UIState) : UIState :=
  match parsed with
  | Thrown _ => st
  | Returned parsed =>
      match member parsed "theme", member parsed "editorFontSize" with
      | Returned t, Returned f =>
          {| theme := nullish t (JStr "dark");
             editorFontSize := nullish f (JNum (NInt 14));
             sidebarOpen := sidebarOpen st;
             selectedIssueId := selectedIssueId st |}
      | _, _ => st
      end
  end.

(** The start-up block: [getItem], and when the stored string is not
    empty, parse it and set the two fields. *)
Definition restore (localStorage : Storage) (st : UIState) : UIState :=
  match localStorage !! "ui-preferences" with
  | None => st
  | Some EmptyString => st
  | Some stored => restoreParsed (JSON.parse stored) st
  end.

End ReviewStore.

(** ** Auxiliary notions and sample data

    What the statements of Part II are phrased with, and the concrete
    inputs at which they are evaluated. *)

(** The status the review query has cached, if any. *)
Definition cachedStatus (st : Query.QueryState Api.CodeReviewDetail)
  : option Api.ReviewStatus :=
  option_map Api.status (Query.data st).

(** The statuses the pull-request query has cached, if any. *)
Definition cachedStatuses (st : Query.QueryState (list Api.PRReview))
  : option (list Api.ReviewStatus) :=
  option_map (map Api.pr_status) (Query.data st).

(** A review and a pull-request review in a given status. *)
Definition sampleReview (s : Api.ReviewStatus) : Api.CodeReviewDetail :=
  {| Api.id := 7;
     Api.code_content := Js.utf16 "print(1)";
     Api.language := Some "python";
     Api.filename := None;
     Api.status := s;
     Api.created_at := "2025-01-01T00:00:00Z";
     Api.comments := [];
     Api.result := None |}.

Definition samplePRReview (s : Api.ReviewStatus) : Api.PRReview :=
  {| Api.pr_id := 1; Api.pr_number := 12; Api.pr_title := Some "Fix";
     Api.head_sha := "abcdef0123"; Api.pr_status := s;
     Api.github_review_id := None; Api.issues_found := 0;
     Api.files_reviewed := 0; Api.error_message := None;
     Api.completed_at := None |}.

(** What [fetch] rejects with when the server cannot be reached. *)
Definition networkDown : Js.JsError := Js.TypeError "Failed to fetch".

(** The review query after a first successful fetch of an "analyzing"
    review. *)
Definition analyzingQuery : Query.QueryState Api.CodeReviewDetail :=
  Query.settle Query.initial (Query.Fetched (sampleReview Api.analyzing)).

(** A form holding one line of code, nothing in flight. *)
Definition filledForm : HomePage.State :=
  {| HomePage.code := Js.utf16 "print(1)";
     HomePage.language := "python";
     HomePage.filename := EmptyString;
     HomePage.isPending := false |}.

(** A form holding blanks, a tab, a line break and a no-break space. *)
Definition blankForm : HomePage.State :=
  {| HomePage.code := [32; 9; 10; 160; 8239; 32]%N;
     HomePage.language := EmptyString;
     HomePage.filename := EmptyString;
     HomePage.isPending := false |}.

(** A server that answers every request with status 200 and an HTML page. *)
Definition htmlServer (url : string) (init : Api.RequestInit) : Js.Completion Api.Response :=
  Js.Returned {| Api.resp_status := 200; Api.resp_body := "<!DOCTYPE html>" |}.

(** The two bodies of a server that knows one review. *)
Definition reviewBody : string :=
  JSON.text (Js.JObject [("id", Js.JNum (Js.NInt 7)); ("status", Js.JStr "pending")]).

Definition notFoundBody : string :=
  JSON.text (Js.JObject [("detail", Js.JStr "Not found")]).

(** It answers 404 for anything else. *)
Definition reviewServer (url : string) (init : Api.RequestInit) : Js.Completion Api.Response :=
  if String.eqb url "http://localhost:8000/api/reviews/7"
  then Js.Returned {| Api.resp_status := 200; Api.resp_body := reviewBody |}
  else Js.Returned {| Api.resp_status := 404; Api.resp_body := notFoundBody |}.

(** A cache holding the review list and one directory listing, both fresh. *)
Definition freshCache : gmap Query.QueryKey (Query.CacheEntry Js.JsValue) :=
  <[ [Query.KStr "reviews"] := Query.mkEntry (Js.JArray []) false ]>
    (<[ RepoPage.contentsKey "acme" "api" "src" := Query.mkEntry (Js.JArray []) false ]> ∅).

(** Names compared code unit by code unit. *)
Definition codeUnitCompare (a b : string) : Z :=
  match String.compare a b with
  | Lt => -1
  | Eq => 0
  | Gt => 1
  end.

(** A directory listing as the server returns it. *)
Definition item (n t : string) : FileTree.FileTreeItem :=
  {| FileTree.name := n; FileTree.path := n; FileTree.type := t;
     FileTree.size := if String.eqb t "file" then Some 120 else None |}.

Definition listing : list FileTree.FileTreeItem :=
  [ item "README.md" "file"; item "src" "dir"; item "app.ts" "file";
    item "docs" "dir"; item "LICENSE" "file" ].

Definition listingStore : FileTree.Store := {[ 1%positive := listing ]}.

(** A table entry is a language identifier that the function maps to
    itself. *)
Definition settled (v : Js.JsValue) : bool :=
  match v with
  | Js.JStr id =>
      existsb (String.eqb id) CodeEditor.monacoIds
      && match CodeEditor.mapLanguage id with
         | Js.JStr id' => String.eqb id id'
         | _ => false
         end
  | _ => false
  end.

(** Whether a text starts with a digit. *)
Definition starts_with_digit (s : string) : bool :=
  match s with
  | String c _ => JSON.is_digit c
  | EmptyString => false
  end.

(** What fuel [n] parses is parsed, with the same result, by any fuel that
    is at least twice the number of characters consumed. *)
Definition settled_value (n : nat) : Prop :=
  forall s (v : Js.JsValue) r, JSON.parse_value n s = Some (v, r) ->
    (String.length r < String.length s)%nat
    /\ forall m, (2 * (String.length s - String.length r) <= m)%nat ->
                 JSON.parse_value m s = Some (v, r).

Definition settled_elements (n : nat) : Prop :=
  forall (acc : list Js.JsValue) s l r, JSON.parse_elements n acc s = Some (l, r) ->
    (String.length r < String.length s)%nat
    /\ forall m, (2 * (String.length s - String.length r) <= m)%nat ->
                 JSON.parse_elements m acc s = Some (l, r).

Definition settled_members (n : nat) : Prop :=
  forall (acc : list (string * Js.JsValue)) s l r, JSON.parse_members n acc s = Some (l, r) ->
    (String.length r < String.length s)%nat
    /\ forall m, (2 * (String.length s - String.length r) <= m)%nat ->
                 JSON.parse_members m acc s = Some (l, r).




(** ** Paths: [String.prototype.split] and [Array.prototype.join] *)

Module Path.

(** [s.split(sep)] for a separator of one character: the pieces between
    its occurrences; a string without it, the empty one included, is one
    piece. *)
Fixpoint split (sep : ascii) (s : string) : list string :=
  match s with
  | EmptyString => [EmptyString]
  | String c rest =>
      if Ascii.eqb c sep then EmptyString :: split sep rest
      else match split sep rest with
           | piece :: pieces => String c piece :: pieces
           | [] => [String c EmptyString]
           end
  end.

(** [parts.join(sep)] *)
Fixpoint join (sep : string) (parts : list string) : string :=
  match parts with
  | [] => EmptyString
  | [p] => p
  | p :: rest => p ++ sep ++ join sep rest
  end.

(** Whether [c] occurs in [s]. *)
Fixpoint contains (c : ascii) (s : string) : bool :=
  match s with
  | EmptyString => false
  | String d rest => Ascii.eqb d c || contains c rest
  end.

(** [s.startsWith(prefix)] *)
Fixpoint startsWith (s prefix : string) : bool :=
  match prefix, s with
  | EmptyString, _ => true
  | String p prefix', String c s' => Ascii.eqb c p && startsWith s' prefix'
  | String _ _, EmptyString => false
  end.

End Path.

(** ** The repository browser's state and handlers *)

Module RepoNav.
Import Api Query.

(** [useState("")] and [useState<string | null>(null)] *)
Record State := {
  currentPath : string;
  selectedFile : option string
}.

Definition initialState : State :=
  {| currentPath := EmptyString; selectedFile := None |}.

(** [handleFileClick]: a directory becomes the current path and clears the
    selection, anything else becomes the selected file. *)
Definition handleFileClick (st : State) (path type : string) : State :=
  if String.eqb type "dir"
  then {| currentPath := path; selectedFile := None |}
  else {| currentPath := currentPath st; selectedFile := Some path |}.

(** [const parts = currentPath.split("/"); parts.pop(); parts.join("/")] *)
Definition parentPath (currentPath : string) : string :=
  Path.join "/" (removelast (Path.split "/" currentPath)).

(** [handleBack] *)
Definition handleBack (st : State) : State :=
  {| currentPath := parentPath (currentPath st); selectedFile := None |}.

(** [handleReview]: the calls it makes.
    [if (selectedFile) reviewMutation.mutate(selectedFile);] *)
Definition handleReview (owner repo : string) (st : State) : list Call :=
  match selectedFile st with
  | Some EmptyString => []
  | Some file => [mutationFn (@RepoPage.reviewMutation unit owner repo file)]
  | None => []
  end.

(** [enabled: !!selectedFile], also the condition under which the preview
    pane with its review button is rendered. *)
Definition fileSelected (st : State) : bool :=
  match selectedFile st with
  | Some EmptyString => false
  | Some _ => true
  | None => false
  end.

(** [{currentPath && <button onClick={handleBack}>}] *)
Definition backShown (st : State) : bool :=
  match currentPath st with
  | EmptyString => false
  | String _ _ => true
  end.

End RepoNav.

(** ** The installations page: repository cards and the sync banner *)

Module InstallationsView.
Import Js.

(** [href={`/github/${repo.full_name}`}] *)
Definition repoLink (full_name : string) : string := "/github/" ++ full_name.

(** [repo.full_name.split("/")[1]]: [None] is [undefined]. *)
Definition repoName (full_name : string) : option string :=
  nth_error (Path.split "/" full_name) 1.

(** [onSuccess]: the message set from the synced installations. *)
Definition syncedMessage (installations : list string) : string :=
  "Synced: " ++
  (if (0 <? List.length installations)%nat
   then Path.join ", " installations
   else "No installations found").

(** [onError] *)
Definition errorMessage (err : JsError) : string :=
  "Error: " ++ err_message err.

(** The message after the sync request settled. *)
Definition syncMessage (outcome : Completion (list string)) : string :=
  match outcome with
  | Returned installations => syncedMessage installations
  | Thrown err => errorMessage err
  end.

(** [syncMessage.startsWith("Error")] selects the error colours. *)
Definition errorStyled (syncMessage : string) : bool :=
  Path.startsWith syncMessage "Error".

End InstallationsView.

(** ** File sizes and icons of the file tree *)

Module FileLabel.
Import Js FileTree.

(** [(num / den).toFixed(1)] for a quotient that is not negative, below
    10^21 (from where [toFixed] writes an exponent) and computed exactly:
    the tenths nearest to it, the larger when two are equally near, written
    with one digit after the point. *)
Definition tenths (num den : Z) : Z := (20 * num + den) / (2 * den).

Definition toFixed1 (num den : Z) : string :=
  Z_to_string (tenths num den / 10) ++ "." ++ Z_to_string (tenths num den mod 10).

(** [formatSize] for a whole number of bytes that is a safe integer;
    dividing such a number by a power of two is exact, and the quotient
    stays far below 10^21. *)
Definition formatSize (bytes : Z) : string :=
  if (bytes <? 1024)%Z then Z_to_string bytes ++ " B"
  else if (bytes <? 1024 * 1024)%Z then toFixed1 bytes 1024 ++ " KB"
  else toFixed1 bytes (1024 * 1024) ++ " MB".

(** [{item.type === "file" && item.size !== undefined && formatSize(item.size)}] *)
Definition sizeLabel (item : FileTreeItem) : option string :=
  if String.eqb (type item) "file"
  then match size item with
       | Some bytes => Some (formatSize bytes)
       | None => None
       end
  else None.

(** [item.name.split(".").pop()] *)
Definition extension (name : string) : string :=
  List.last (Path.split "." name) EmptyString.

End FileLabel.

(** ** Route parameters: [parseInt(id, 10)] *)

Module Params.
Import Js.

(** Leading white space and line terminators are skipped. *)
Fixpoint stripLeading (s : string) : string :=
  match s with
  | String c rest => if isWhiteSpace (code c) then stripLeading rest else s
  | EmptyString => EmptyString
  end.

(** The sign, and what follows it. *)
Definition splitSign (s : string) : bool * string :=
  match s with
  | String c rest =>
      if Ascii.eqb c "-" then (true, rest)
      else if Ascii.eqb c "+" then (false, rest)
      else (false, s)
  | EmptyString => (false, s)
  end.

(** The Number value of an integer given by its sign and magnitude: the
    nearest double, the one with an even significand when two are equally
    near, and an infinity when that is 2^1024 or more.  A finite double is
    given by its value. *)
Definition numberOfInteger (negative : bool) (n : Z) : JsNumber :=
  if (n <? 2 ^ 53)%Z then NInt (if negative then - n else n)
  else
    let e := Z.log2 n - 52 in
    let q := n / 2 ^ e in
    let r := n mod 2 ^ e in
    let half := 2 ^ (e - 1) in
    let q' := if (half <? r)%Z || ((r =? half)%Z && Z.odd q) then q + 1 else q in
    let v := q' * 2 ^ e in
    if (2 ^ 1024 <=? v)%Z
    then (if negative then NegInfinity else PosInfinity)
    else NInt (if negative then - v else v).

(** [parseInt(s, 10)]: the longest run of decimal digits after the white
    space and the sign, whatever follows it; [NaN] when there is no
    digit.  (Past the twentieth digit an implementation may read the
    digits as zeros; the digits are read exactly here.) *)
Definition parseInt10 (s : string) : JsNumber :=
  let '(negative, s1) := splitSign (stripLeading s) in
  let '(ds, _) := JSON.span_digits s1 in
  match ds with
  | EmptyString => NaN
  | String _ _ =>
      match NilEmpty.uint_of_string ds with
      | Some u => numberOfInteger negative (Z.of_N (N.of_uint u))
      | None => NaN
      end
  end.

(** [`${n}`], for a finite number that is a safe integer. *)
Definition numberToString (n : JsNumber) : string :=
  match n with
  | NInt z => Z_to_string z
  | NaN => "NaN"
  | PosInfinity => "Infinity"
  | NegInfinity => "-Infinity"
  end.

(** [Number.isSafeInteger] on an integer. *)
Definition isSafeInteger (z : Z) : Prop := - (2 ^ 53) < z < 2 ^ 53.

(** [href={`/reviews/${review.id}`}], the link of the reviews list, and
    the [id] segment a route [/reviews/[id]] takes from it. *)
Definition reviewLink (id : Z) : string := "/reviews/" ++ Z_to_string id.

(** [href={`/github/${owner}/${repo}/pulls/${pr.number}`}] *)
Definition pullLink (owner repo : string) (number : Z) : string :=
  "/github/" ++ owner ++ "/" ++ repo ++ "/pulls/" ++ Z_to_string number.

(** The last segment of a path, which both routes bind to their numeric
    parameter. *)
Definition lastSegment (href : string) : string :=
  List.last (Path.split "/" href) EmptyString.

(** [api.getReview(reviewId)] with the number [parseInt] gave:
    [fetchApi(`/api/reviews/${id}`)]. *)
Definition getReviewEndpoint (reviewId : JsNumber) : string :=
  "/api/reviews/" ++ numberToString reviewId.

End Params.

(** ** [URLSearchParams] and the two calls that use it

    The values handed to [URLSearchParams] are strings of any UTF-16 code
    units, so they are lists of code units here. *)

Module UrlSearchParams.
Import Js.

(** U+D800..U+DBFF and U+DC00..U+DFFF *)
Definition isHighSurrogate (u : N) : bool := ((55296 <=? u) && (u <=? 56319))%N.
Definition isLowSurrogate (u : N) : bool := ((56320 <=? u) && (u <=? 57343))%N.

(** The conversion to a [USVString]: the code points of the string, a
    surrogate pair read as one code point and a surrogate that is not
    part of a pair replaced by U+FFFD. *)
Fixpoint scalarValues (units : list N) : list N :=
  match units with
  | [] => []
  | u :: rest =>
      if isHighSurrogate u then
        match rest with
        | l :: rest' =>
            if isLowSurrogate l
            then (65536 + (u - 55296) * 1024 + (l - 56320))%N :: scalarValues rest'
            else 65533%N :: scalarValues rest
        | [] => [65533%N]
        end
      else if isLowSurrogate u then 65533%N :: scalarValues rest
      else u :: scalarValues rest
  end.

(** The UTF-8 bytes of a code point. *)
Definition utf8 (cp : N) : list N :=
  if (cp <? 128)%N then [cp]
  else if (cp <? 2048)%N then [192 + cp / 64; 128 + cp mod 64]%N
  else if (cp <? 65536)%N
       then [224 + cp / 4096; 128 + (cp / 64) mod 64; 128 + cp mod 64]%N
       else [240 + (cp / 262144) mod 8; 128 + (cp / 4096) mod 64;
             128 + (cp / 64) mod 64; 128 + cp mod 64]%N.

Definition hexUpper (n : N) : ascii :=
  ascii_of_N (if (n <? 10)%N then 48 + n else 55 + n)%N.

(** The bytes left as they are: [*], [-], [.], [_], digits and letters. *)
Definition unreserved (b : N) : bool :=
  ((b =? 42) || (b =? 45) || (b =? 46) || (b =? 95)
   || ((48 <=? b) && (b <=? 57))
   || ((65 <=? b) && (b <=? 90))
   || ((97 <=? b) && (b <=? 122)))%N.

Definition serializeByte (b : N) : string :=
  if (b =? 32)%N then "+"
  else if unreserved b then String (ascii_of_N b) EmptyString
  else String "%" (String (hexUpper (b / 16))
                     (String (hexUpper (b mod 16)) EmptyString)).

Fixpoint percentEncode (bytes : list N) : string :=
  match bytes with
  | [] => EmptyString
  | b :: rest => serializeByte b ++ percentEncode rest
  end.

(** The [application/x-www-form-urlencoded] serializer on one string. *)
Definition serialize (value : list N) : string :=
  percentEncode (flat_map utf8 (scalarValues value)).

(** [params.toString()]: the pairs in order, joined by [&].  The names
    are literals of the program. *)
Definition toString (params : list (string * list N)) : string :=
  Path.join "&" (map (fun '(k, v) => serialize (utf16 k) ++ "=" ++ serialize v) params).

(** [if (value) params.set(name, value)] on parameters that do not have
    [name] yet. *)
Definition setIfTruthy (name : string) (value : option (list N))
           (params : list (string * list N)) : list (string * list N) :=
  match value with
  | Some (u :: v) => (params ++ [(name, u :: v)])%list
  | Some [] | None => params
  end.

(** [getRepoContents]: the endpoint it requests. *)
Definition getRepoContents (owner repo : string) (path : option (list N))
           (ref : option (list N)) : string :=
  let path := match path with Some p => p | None => [] end in
  let params := setIfTruthy "ref" ref (setIfTruthy "path" (Some path) []) in
  let queryString := toString params in
  "/api/github/repos/" ++ owner ++ "/" ++ repo ++ "/contents"
    ++ match queryString with
       | EmptyString => EmptyString
       | String _ _ => "?" ++ queryString
       end.

(** [getFileContent]: the endpoint it requests. *)
Definition getFileContent (owner repo : string) (path : list N)
           (ref : option (list N)) : string :=
  let params := setIfTruthy "ref" ref [("path", path)] in
  "/api/github/repos/" ++ owner ++ "/" ++ repo ++ "/file?" ++ toString params.

End UrlSearchParams.

(** ** Auxiliary notions for the query strings *)

(** The characters the serializer writes: the ones it leaves as they
    are, [+] and [%]. *)
Definition urlSafe (c : ascii) : bool :=
  UrlSearchParams.unreserved (Js.code c) || Ascii.eqb c "+" || Ascii.eqb c "%".

Fixpoint allChars (P : ascii -> bool) (s : string) : bool :=
  match s with
  | EmptyString => true
  | String c rest => P c && allChars P rest
  end.

Definition unhex (c : ascii) : option N :=
  let n := Js.code c in
  if ((48 <=? n) && (n <=? 57))%N then Some (n - 48)%N
  else if ((65 <=? n) && (n <=? 70))%N then Some (n - 55)%N
  else None.

(** The byte a serialized text starts with, read back; [None] when the
    text is empty or starts with a character the serializer does not
    write. *)
Definition decodeByte (s : string) : option (N * string) :=
  match s with
  | EmptyString => None
  | String c rest =>
      if Ascii.eqb c "+" then Some (32%N, rest)
      else if Ascii.eqb c "%" then
        match rest with
        | String h (String l rest1) =>
            match unhex h, unhex l with
            | Some a, Some b => Some ((16 * a + b)%N, rest1)
            | _, _ => None
            end
        | _ => None
        end
      else if UrlSearchParams.unreserved (Js.code c) then Some (Js.code c, rest)
      else None
  end.

(** The code point a UTF-8 byte sequence starts with, read back. *)
Definition decodeScalar (bytes : list N) : option (N * list N) :=
  match bytes with
  | [] => None
  | b0 :: rest =>
      if (b0 <? 128)%N then Some (b0, rest)
      else if (b0 <? 192)%N then None
      else if (b0 <? 224)%N then
        match rest with
        | b1 :: rest1 => Some (((b0 - 192) * 64 + (b1 - 128))%N, rest1)
        | _ => None
        end
      else if (b0 <? 240)%N then
        match rest with
        | b1 :: b2 :: rest2 =>
            Some (((b0 - 224) * 4096 + (b1 - 128) * 64 + (b2 - 128))%N, rest2)
        | _ => None
        end
      else
        match rest with
        | b1 :: b2 :: b3 :: rest3 =>
            Some (((b0 - 240) * 262144 + (b1 - 128) * 4096
                   + (b2 - 128) * 64 + (b3 - 128))%N, rest3)
        | _ => None
        end
  end.

(** The code units of a code point. *)
Definition codeUnits (cp : N) : list N :=
  if (cp <? 65536)%N then [cp]
  else [55296 + (cp - 65536) / 1024; 56320 + (cp - 65536) mod 1024]%N.

(** [String.prototype.isWellFormed]: code units, every surrogate part of
    a pair. *)
Fixpoint wellFormed (units : list N) : bool :=
  match units with
  | [] => true
  | u :: rest =>
      if UrlSearchParams.isHighSurrogate u then
        match rest with
        | l :: rest' => UrlSearchParams.isLowSurrogate l && wellFormed rest'
        | [] => false
        end
      else negb (UrlSearchParams.isLowSurrogate u) && (u <? 65536)%N && wellFormed rest
  end.

Definition wellFormedOption (v : option (list N)) : bool :=
  match v with
  | Some units => wellFormed units
  | None => true
  end.

(** An optional string argument as [if (value)] sees it: absent and
    empty are the same. *)
Definition truthyString (v : option string) : option string :=
  match v with
  | Some (String c s) => Some (String c s)
  | Some EmptyString | None => None
  end.

Definition truthyUnits (v : option (list N)) : option (list N) :=
  match v with
  | Some (u :: s) => Some (u :: s)
  | Some [] | None => None
  end.

(** ** What the pull-request detail page renders *)

Module PRDetailView.
Import Js Api Query.

(** [const latestReview = reviews?.[0];] *)
Definition latestReview (reviews : option (list PRReview)) : option PRReview :=
  match reviews with
  | Some (r :: _) => Some r
  | Some [] | None => None
  end.

(** [latestReview?.status === s] *)
Definition latestIs (latest : option PRReview) (s : string) : bool :=
  match latest with
  | Some r => String.eqb (status_str (pr_status r)) s
  | None => false
  end.

Record View := {
  title : string;
  badge : option string;
  runDisabled : bool;
  runLabel : string;
  analyzingBanner : bool;
  resultsPanel : option PRReview;
  failedPanel : option (option string);
  history : option (list PRReview);
  emptyState : bool
}.

Inductive Page :=
| LoadingReviews
| Shown (v : View).

(** The component body after the [isLoading] guard. *)
Definition view (prNumber : Z) (reviews : option (list PRReview))
           (reviewPending : bool) : View :=
  let latest := latestReview reviews in
  {| title := match latest with
              | Some r => match pr_title r with
                          | Some (String c t) => String c t
                          | Some EmptyString | None => "PR #" ++ Z_to_string prNumber
                          end
              | None => "PR #" ++ Z_to_string prNumber
              end;
     badge := option_map (fun r => status_str (pr_status r)) latest;
     runDisabled := reviewPending || latestIs latest "analyzing";
     runLabel := if reviewPending then "Starting..." else "Run New Review";
     analyzingBanner := latestIs latest "analyzing";
     resultsPanel := if latestIs latest "completed" then latest else None;
     failedPanel := if latestIs latest "failed"
                    then option_map (fun r => truthyString (error_message r)) latest
                    else None;
     history := match reviews with
                | Some rs => if (1 <? List.length rs)%nat then Some (skipn 1 rs) else None
                | None => None
                end;
     emptyState := match reviews with
                   | Some rs => Nat.eqb (List.length rs) 0
                   | None => true
                   end |}.

Definition page (prNumber : Z) (st : QueryState (list PRReview))
           (reviewPending : bool) : Page :=
  if Query.isLoading st then LoadingReviews
  else Shown (view prNumber (Query.data st) reviewPending).

End PRDetailView.

(** ** [components/ReviewResults.tsx] *)

Module ReviewResults.
Import Js Api.

(** The line range an issue card shows:
    [Line {line_start}{line_end !== line_start && `-${line_end}`}]. *)
Definition lineLabel (comment : ReviewComment) : string :=
  "Line " ++ Z_to_string (line_start comment)
    ++ (if (line_end comment =? line_start comment)%Z then EmptyString
        else "-" ++ Z_to_string (line_end comment)).

(** An issue card, in the fields of a comment that are modelled. *)
Record IssueCard := {
  cardKey : Z;
  severityLabel : string;
  lines : string;
  content : string;
  suggestionBox : option string
}.

Definition issueCard (comment : ReviewComment) : IssueCard :=
  {| cardKey := rc_id comment;
     severityLabel := severity comment;
     lines := lineLabel comment;
     content := rc_content comment;
     suggestionBox := match suggestion comment with
                      | Some (String c s) => Some (String c s)
                      | Some EmptyString | None => None
                      end |}.

Inductive Panel :=
| Prompt
| Analyzing
| Failed
| Results (summaryCard : option ReviewResult) (heading : string)
          (noIssues : bool) (cards : list IssueCard).

(** The component. *)
Definition ReviewResults (result : option ReviewResult)
           (comments : list ReviewComment) (status : string) : Panel :=
  if String.eqb status "pending" then Prompt
  else if String.eqb status "analyzing" then Analyzing
  else if String.eqb status "failed" then Failed
  else Results result
               ("Issues (" ++ Z_to_string (Z.of_nat (List.length comments)) ++ ")")
               (Nat.eqb (List.length comments) 0)
               (map issueCard comments).

(** The panel the review page puts next to the code. *)
Definition panelOf (review : CodeReviewDetail) : Panel :=
  ReviewResults (result review) (comments review) (status_str (status review)).

End ReviewResults.

(** ** The language select of the home page and the editor it drives *)

Module LanguageSelect.
Import Js.

(** [LANGUAGES]: value and label of each option. *)
Definition LANGUAGES : list (string * string) :=
  [ (EmptyString, "Auto-detect"); ("python", "Python");
    ("javascript", "JavaScript"); ("typescript", "TypeScript");
    ("java", "Java"); ("go", "Go"); ("rust", "Rust");
    ("cpp", "C++"); ("csharp", "C#") ].

(** [language || "plaintext"], the [language] prop of the editor. *)
Definition editorLanguage (language : string) : string :=
  match language with
  | EmptyString => "plaintext"
  | String _ _ => language
  end.

(** The language Monaco is given: [mapLanguage(language)]. *)
Definition monacoLanguage (language : string) : JsValue :=
  CodeEditor.mapLanguage (editorLanguage language).

End LanguageSelect.

(** [v == null]: the values [??] replaces. *)
Definition isNullish (v : Js.JsValue) : bool :=
  match v with
  | Js.JUndefined | Js.JNull => true
  | _ => false
  end.

(** The review query after the first fetch returned a completed review. *)
Definition completedQuery : Query.QueryState Api.CodeReviewDetail :=
  Query.settle Query.initial (Query.Fetched (sampleReview Api.completed)).

(** Two comments on the same lines. *)
Definition sampleComment (id : Z) (text : string) : Api.ReviewComment :=
  {| Api.rc_id := id; Api.line_start := 3; Api.line_end := 5;
     Api.rc_content := text; Api.severity := "warning";
     Api.suggestion := None |}.

(** ** The JSON bodies of the POST requests *)

Module RequestBody.
Import Js Api.

(** An optional property of an object literal: [undefined] when absent. *)
Definition optional {A : Type} (inject : A -> JsValue) (v : option A) : JsValue :=
  match v with
  | Some a => inject a
  | None => JUndefined
  end.

(** [JSON.stringify({ use_complex_model: useComplexModel })] *)
Definition analyzeReview (useComplexModel : bool) : string :=
  JSON.text (JObject [("use_complex_model", JBool useComplexModel)]).

(** [JSON.stringify({ pr_number: prNumber, use_complex_model: useComplexModel })],
    for the number the page hands over, which is what [parseInt] gave. *)
Definition reviewPullRequest (prNumber : JsNumber) (useComplexModel : bool) : string :=
  JSON.text (JObject [("pr_number", JNum prNumber);
                      ("use_complex_model", JBool useComplexModel)]).

(** [JSON.stringify(request)], the properties in the order of the
    interface, which is the order the repository page writes them in. *)
Definition reviewFile (request : ReviewFileRequest) : string :=
  JSON.text (JObject [("path", JStr (rf_path request));
                      ("ref", optional JStr (rf_ref request));
                      ("use_complex_model", optional JBool (use_complex_model request))]).

End RequestBody.


(** ** The line decorations of the editor *)

Module Decorations.
Import Js Api.

Record HighlightedLine := {
  hl_start : Z;
  hl_end : Z;
  hl_severity : string
}.

(** [new Range(startLineNumber, startColumn, endLineNumber, endColumn)]
    and the options of the decoration. *)
Record Decoration := {
  startLineNumber : Z;
  startColumn : Z;
  endLineNumber : Z;
  endColumn : Z;
  isWholeLine : bool;
  className : string;
  glyphMarginClassName : string;
  rulerColor : JsValue
}.

(** The object literal [severityColors]. *)
Definition severityColors : list (string * JsValue) :=
  [ ("info", JStr "rgba(59, 130, 246, 0.2)");
    ("warning", JStr "rgba(245, 158, 11, 0.2)");
    ("error", JStr "rgba(239, 68, 68, 0.2)");
    ("critical", JStr "rgba(220, 38, 38, 0.3)") ].

Definition decoration (line : HighlightedLine) : Decoration :=
  {| startLineNumber := hl_start line;
     startColumn := 1;
     endLineNumber := hl_end line;
     endColumn := 1;
     isWholeLine := true;
     className := "highlight-" ++ hl_severity line;
     glyphMarginClassName := "glyph-" ++ hl_severity line;
     rulerColor := nullish (get severityColors (hl_severity line))
                           (get severityColors "info") |}.

(** [handleEditorMount]: the decorations handed to [deltaDecorations],
    [None] when it is not called.  [editor] and [monaco] say whether the
    two arguments are truthy. *)
Definition handleEditorMount (highlightedLines : list HighlightedLine)
           (editor monaco : bool) : option (list Decoration) :=
  if (0 <? List.length highlightedLines)%nat && editor && monaco
  then Some (map decoration highlightedLines)
  else None.

(** [glyphMargin: highlightedLines.length > 0] *)
Definition glyphMargin (highlightedLines : list HighlightedLine) : bool :=
  (0 <? List.length highlightedLines)%nat.

(** The [highlightedLines] the review page passes:
    [review.comments.map((c) => ({ start: c.line_start, end: c.line_end,
      severity: c.severity }))]. *)
Definition highlightedLines (review : CodeReviewDetail) : list HighlightedLine :=
  map (fun c => {| hl_start := line_start c; hl_end := line_end c;
                   hl_severity := severity c |})
      (comments review).

End Decorations.

(** ** The icon of a file *)

Module FileIcon.
Import Js.

(** [ToBoolean] *)
Definition toBoolean (v : JsValue) : bool :=
  match v with
  | JUndefined | JNull => false
  | JBool b => b
  | JNum (NInt z) => negb (z =? 0)%Z
  | JNum NaN => false
  | JNum _ => true
  | JStr s => negb (String.eqb s EmptyString)
  | _ => true
  end.

(** The object literal [colors]. *)
Definition colors : list (string * JsValue) :=
  [ ("ts", JStr "text-blue-400"); ("tsx", JStr "text-blue-400");
    ("js", JStr "text-yellow-400"); ("jsx", JStr "text-yellow-400");
    ("py", JStr "text-green-400"); ("go", JStr "text-cyan-400");
    ("rs", JStr "text-orange-400"); ("java", JStr "text-red-400");
    ("md", JStr "text-muted"); ("json", JStr "text-yellow-500");
    ("yml", JStr "text-purple-400"); ("yaml", JStr "text-purple-400") ].

(** [extension ? colors[extension] || "text-muted" : "text-muted"] *)
Definition color (extension : option string) : JsValue :=
  match extension with
  | Some (String c e) =>
      let found := get colors (String c e) in
      if toBoolean found then found else JStr "text-muted"
  | Some EmptyString | None => JStr "text-muted"
  end.

(** The colour of the icon in a row of the file tree. *)
Definition colorOf (name : string) : JsValue :=
  color (Some (FileLabel.extension name)).

End FileIcon.

(* ===================================================================== *)
(** * Part II.  Properties                                                *)
(* ===================================================================== *)


(** ** Polling *)

Section Polling.
Import Js Api Query.

Lemma status_str_analyzing (s : ReviewStatus) :
  String.eqb (status_str s) "analyzing" = true <-> s = analyzing.
Proof. destruct s; simpl; split; intros H; try discriminate; reflexivity. Qed.

Lemma review_interval_cases (st : QueryState CodeReviewDetail) :
  ReviewPage.refetchInterval st = Every 2000 \/ ReviewPage.refetchInterval st = Off.
Proof.
  unfold ReviewPage.refetchInterval.
  destruct (data st) as [d|]; [destruct (status d)|]; simpl; auto.
Qed.

Lemma pr_interval_cases (st : QueryState (list PRReview)) :
  PRDetailPage.refetchInterval st = Every 3000 \/ PRDetailPage.refetchInterval st = Off.
Proof.
  unfold PRDetailPage.refetchInterval.
  destruct (PRDetailPage.truthy _); auto.
Qed.

Lemma review_interval_on (st : QueryState CodeReviewDetail) :
  ReviewPage.refetchInterval st = Every 2000
  <-> exists d, data st = Some d /\ status d = analyzing.
Proof.
  unfold ReviewPage.refetchInterval. split.
  - destruct (data st) as [d|] eqn:Hd; [|discriminate].
    destruct (String.eqb _ _) eqn:Hs; [|discriminate].
    intros _. exists d. split; [reflexivity|]. now apply status_str_analyzing.
  - intros (d & -> & Hs). apply status_str_analyzing in Hs. now rewrite Hs.
Qed.

Lemma pr_interval_on (st : QueryState (list PRReview)) :
  PRDetailPage.refetchInterval st = Every 3000
  <-> exists rs r, data st = Some rs /\ In r rs /\ pr_status r = analyzing.
Proof.
  unfold PRDetailPage.refetchInterval, PRDetailPage.hasAnalyzing. split.
  - destruct (data st) as [rs|]; simpl; [|discriminate].
    destruct (existsb _ rs) eqn:Hex; [|discriminate].
    intros _. apply existsb_exists in Hex as (r & Hin & Hs).
    exists rs, r. repeat split; [assumption|]. now apply status_str_analyzing.
  - intros (rs & r & -> & Hin & Hs). simpl.
    replace (existsb _ rs) with true; [reflexivity|].
    symmetry. apply existsb_exists. exists r. split; [assumption|].
    now apply status_str_analyzing.
Qed.

Lemma poll_off {T} (f : QueryState T -> Interval) st server :
  f st = Off -> poll f st server = ([], st).
Proof. intros H. destruct server; simpl; rewrite H; reflexivity. Qed.

Lemma poll_on {T} (f : QueryState T -> Interval) st ms o rest :
  f st = Every ms ->
  poll f st (o :: rest) =
  (ms :: fst (poll f (settle st o) rest), snd (poll f (settle st o) rest)).
Proof.
  intros H. simpl. rewrite H.
  destruct (poll f (settle st o) rest); reflexivity.
Qed.

(** A callback that only ever answers [Every c] or [Off] makes the timer
    fire at the one delay [c], and the timer only stops short of the
    observed fetches when the callback has answered [Off]. *)
Lemma poll_fixed_delay {T} (f : QueryState T -> Interval) (c : Z) :
  (forall st, f st = Every c \/ f st = Off) ->
  forall server st,
    fst (poll f st server) = repeat c (List.length (fst (poll f st server)))
    /\ (f (snd (poll f st server)) = Off
        \/ List.length (fst (poll f st server)) = List.length server).
Proof.
  intros Hf server. induction server as [|o rest IH]; intros st; simpl.
  - destruct (f st); simpl; auto.
  - destruct (Hf st) as [Hon|Hoff]; rewrite ?Hon, ?Hoff; simpl.
    + specialize (IH (settle st o)).
      destruct (poll f (settle st o) rest) as [delays st']; simpl in *.
      destruct IH as [IH1 IH2]. split; [now rewrite <- IH1|].
      destruct IH2; [left|right]; congruence.
    + split; [reflexivity|]. left; assumption.
Qed.

(** While the server keeps answering "analyzing" the page keeps polling,
    and the first other answer is the last fetch. *)
Lemma poll_until_done (still : list CodeReviewDetail) (done : CodeReviewDetail)
      (later : list (FetchOutcome CodeReviewDetail)) (st : QueryState CodeReviewDetail) :
  ReviewPage.refetchInterval st = Every 2000 ->
  Forall (fun d => status d = analyzing) still ->
  status done <> analyzing ->
  let run := poll ReviewPage.refetchInterval st
                  (map Fetched still ++ Fetched done :: later)%list in
  fst run = repeat 2000 (S (List.length still)) /\ data (snd run) = Some done.
Proof.
  intros Hst Hall Hdone. revert st Hst.
  induction Hall as [|d still Hd Hall IH]; intros st Hst;
    cbv zeta in *; cbn [map app List.length].
  - rewrite (poll_on _ _ _ _ _ Hst).
    assert (Hoff : ReviewPage.refetchInterval (settle st (Fetched done)) = Off).
    { destruct (review_interval_cases (settle st (Fetched done))) as [H|H]; [|exact H].
      apply review_interval_on in H as (d & Heq & Hs). simpl in Heq.
      injection Heq as <-. contradiction. }
    rewrite (poll_off _ _ _ Hoff). simpl. auto.
  - rewrite (poll_on _ _ _ _ _ Hst).
    assert (Hon : ReviewPage.refetchInterval (settle st (Fetched d)) = Every 2000).
    { apply review_interval_on. exists d. split; [reflexivity|assumption]. }
    specialize (IH _ Hon). destruct IH as [IH1 IH2].
    cbn [fst snd]. rewrite IH1, IH2. split; reflexivity.
Qed.

End Polling.

(** Two more "analyzing" answers, then "completed": three fetches two
    seconds apart, and what the server would have said next is never asked
    for. *)
Example poll_until_completed :
  Query.poll ReviewPage.refetchInterval analyzingQuery
             [ Query.Fetched (sampleReview Api.analyzing);
               Query.Fetched (sampleReview Api.analyzing);
               Query.Fetched (sampleReview Api.completed);
               Query.Fetched (sampleReview Api.analyzing) ]
  = ([2000; 2000; 2000],
     Query.mkState (Some (sampleReview Api.completed)) 4 None 0 0 false).
Proof. reflexivity. Qed.

(** C1.  The polling-interval callbacks answer with a fixed interval (2000 ms
    on the review page, 3000 ms on the pull-request page) exactly when the
    cached review is "analyzing" (for the list: when some cached review is),
    and with [false] in every other case; the timer driven by them therefore
    fires at that one delay and stops only once the status has left
    "analyzing". *)
Theorem refetchInterval_polls_exactly_while_analyzing :
  forall (st : Query.QueryState Api.CodeReviewDetail)
         (prs : Query.QueryState (list Api.PRReview))
         (server : list (Query.FetchOutcome Api.CodeReviewDetail))
         (prServer : list (Query.FetchOutcome (list Api.PRReview))),
    (ReviewPage.refetchInterval st = Query.Every 2000
     <-> exists d, Query.data st = Some d /\ Api.status d = Api.analyzing)
    /\ (ReviewPage.refetchInterval st = Query.Off
        <-> ~ exists d, Query.data st = Some d /\ Api.status d = Api.analyzing)
    /\ (PRDetailPage.refetchInterval prs = Query.Every 3000
        <-> exists rs r, Query.data prs = Some rs /\ In r rs
                         /\ Api.pr_status r = Api.analyzing)
    /\ (PRDetailPage.refetchInterval prs = Query.Off
        <-> ~ exists rs r, Query.data prs = Some rs /\ In r rs
                           /\ Api.pr_status r = Api.analyzing)
    /\ (let run := Query.poll ReviewPage.refetchInterval st server in
        fst run = repeat 2000 (List.length (fst run))
        /\ (ReviewPage.refetchInterval (snd run) = Query.Off
            \/ List.length (fst run) = List.length server))
    /\ (let run := Query.poll PRDetailPage.refetchInterval prs prServer in
        fst run = repeat 3000 (List.length (fst run))
        /\ (PRDetailPage.refetchInterval (snd run) = Query.Off
            \/ List.length (fst run) = List.length prServer)).
Proof.
  intros st prs server prServer.
  pose proof (review_interval_on st) as Hr.
  pose proof (pr_interval_on prs) as Hp.
  repeat split.
  - apply Hr.
  - apply Hr.
  - intros Hoff Hex. apply Hr in Hex. congruence.
  - intros Hno. destruct (review_interval_cases st) as [H|H]; [|exact H].
    exfalso. apply Hno, Hr, H.
  - apply Hp.
  - apply Hp.
  - intros Hoff Hex. apply Hp in Hex. congruence.
  - intros Hno. destruct (pr_interval_cases prs) as [H|H]; [|exact H].
    exfalso. apply Hno, Hp, H.
  - apply (poll_fixed_delay _ 2000 review_interval_cases).
  - apply (poll_fixed_delay _ 2000 review_interval_cases).
  - apply (poll_fixed_delay _ 3000 pr_interval_cases).
  - apply (poll_fixed_delay _ 3000 pr_interval_cases).
Qed.

(** ** What the interval depends on *)

Section Determinism.
Import Js Api Query.

Lemma review_interval_of_status (st : QueryState CodeReviewDetail) :
  ReviewPage.refetchInterval st =
  match cachedStatus st with
  | Some analyzing => Every 2000
  | _ => Off
  end.
Proof.
  unfold ReviewPage.refetchInterval, cachedStatus.
  destruct (data st) as [d|]; simpl; [destruct (status d)|]; reflexivity.
Qed.

Lemma pr_interval_of_statuses (st : QueryState (list PRReview)) :
  PRDetailPage.refetchInterval st =
  match cachedStatuses st with
  | Some ss => if existsb (fun s => String.eqb (status_str s) "analyzing") ss
               then Every 3000 else Off
  | None => Off
  end.
Proof.
  unfold PRDetailPage.refetchInterval, PRDetailPage.hasAnalyzing, cachedStatuses.
  destruct (data st) as [rs|]; simpl; [|reflexivity].
  replace (existsb _ (map pr_status rs))
    with (existsb (fun r => String.eqb (status_str (pr_status r)) "analyzing") rs);
    [reflexivity|].
  induction rs as [|r rs IH]; simpl; [reflexivity|]. now rewrite IH.
Qed.

(** Failed fetches leave the cached data where it was. *)
Lemma failures_keep_data {T} (errors : list JsError) (st : QueryState T) :
  data (fold_left settle (map FetchFailed errors) st) = data st.
Proof.
  revert st. induction errors as [|e errors IH]; intros st; simpl; [reflexivity|].
  rewrite IH. reflexivity.
Qed.

Lemma failures_counted {T} (errors : list JsError) (st : QueryState T) :
  fetchFailureCount (fold_left settle (map FetchFailed errors) st)
  = (List.length errors + fetchFailureCount st)%nat.
Proof.
  revert st. induction errors as [|e errors IH]; intros st; simpl; [reflexivity|].
  rewrite IH. simpl. lia.
Qed.

End Determinism.

(** C6.  The interval has no backoff and no jitter: the callbacks read the
    cached status and nothing else, so two ticks at which the same status is
    cached get the same interval, whatever the counters of fetches and
    failures say, and any run of failed fetches leaves the interval as it
    was. *)
Theorem refetchInterval_is_a_function_of_cached_status :
  forall (q1 q2 : Query.QueryState Api.CodeReviewDetail)
         (p1 p2 : Query.QueryState (list Api.PRReview))
         (errors : list Js.JsError),
    cachedStatus q1 = cachedStatus q2 ->
    cachedStatuses p1 = cachedStatuses p2 ->
    ReviewPage.refetchInterval q1 = ReviewPage.refetchInterval q2
    /\ PRDetailPage.refetchInterval p1 = PRDetailPage.refetchInterval p2
    /\ ReviewPage.refetchInterval
         (fold_left Query.settle (map Query.FetchFailed errors) q1)
       = ReviewPage.refetchInterval q1
    /\ PRDetailPage.refetchInterval
         (fold_left Query.settle (map Query.FetchFailed errors) p1)
       = PRDetailPage.refetchInterval p1.
Proof.
  intros q1 q2 p1 p2 errors Hq Hp.
  rewrite !review_interval_of_status, !pr_interval_of_statuses.
  unfold cachedStatus, cachedStatuses in *.
  rewrite !failures_keep_data, Hq, Hp. repeat split.
Qed.

(** Two ticks with the same cached status: one fresh from a first fetch,
    one after three failed re-fetches. *)
Lemma refetchInterval_is_a_function_of_cached_status_witness :
  let q1 := Query.settle Query.initial (Query.Fetched (sampleReview Api.analyzing)) in
  let q2 := fold_left Query.settle
                      (map Query.FetchFailed [networkDown; networkDown; networkDown]) q1 in
  let p1 := Query.settle Query.initial
                         (Query.Fetched [samplePRReview Api.completed;
                                         samplePRReview Api.analyzing]) in
  let p2 := Query.settle p1 (Query.FetchFailed networkDown) in
  Query.fetchFailureCount q1 <> Query.fetchFailureCount q2
  /\ ReviewPage.refetchInterval q1 = Query.Every 2000
  /\ ReviewPage.refetchInterval q1 = ReviewPage.refetchInterval q2
  /\ PRDetailPage.refetchInterval p1 = PRDetailPage.refetchInterval p2.
Proof.
  cbv zeta. split; [simpl; lia|]. split; [reflexivity|].
  pose proof (refetchInterval_is_a_function_of_cached_status
                (Query.settle Query.initial (Query.Fetched (sampleReview Api.analyzing)))
                (fold_left Query.settle
                   (map Query.FetchFailed [networkDown; networkDown; networkDown])
                   (Query.settle Query.initial (Query.Fetched (sampleReview Api.analyzing))))
                (Query.settle Query.initial
                   (Query.Fetched [samplePRReview Api.completed;
                                   samplePRReview Api.analyzing]))
                (Query.settle
                   (Query.settle Query.initial
                      (Query.Fetched [samplePRReview Api.completed;
                                      samplePRReview Api.analyzing]))
                   (Query.FetchFailed networkDown))
                [] eq_refl eq_refl) as (H1 & H2 & _).
  split; [exact H1 | exact H2].
Defined.

(** ** The review page *)

Section ReviewPageView.
Import Js Api Query ReviewPage.

Lemma canAnalyze_spec (review : CodeReviewDetail) :
  canAnalyze review = true <-> status review = pending \/ status review = failed.
Proof.
  unfold canAnalyze. destruct (status review); simpl; split; intros H;
    try discriminate; try reflexivity; auto;
    destruct H as [H|H]; discriminate.
Qed.

Lemma offers_when_shown (review : CodeReviewDetail) (m p : bool) :
  offersStartAnalysis (render (Some review) false None m p) = canAnalyze review.
Proof. simpl. destruct (canAnalyze review); reflexivity. Qed.

Lemma offers_only_loaded (review : option CodeReviewDetail) isLoading error (m p : bool) :
  offersStartAnalysis (render review isLoading error m p) = true ->
  exists r, review = Some r /\ canAnalyze r = true.
Proof.
  unfold render. destruct isLoading; [discriminate|].
  destruct error, review as [r|]; simpl; try discriminate.
  destruct (canAnalyze r) eqn:Hc; [|discriminate]. intros _. exists r. auto.
Qed.

End ReviewPageView.

(** C7.  The review page offers "Start Analysis" exactly when the review it
    shows is "pending" or "failed"; whatever the query's state, it is never
    offered for a review that is "analyzing" or "completed". *)
Theorem start_analysis_offered_iff_pending_or_failed :
  forall (review : Api.CodeReviewDetail)
         (st : Query.QueryState Api.CodeReviewDetail)
         (useComplexModel analyzePending : bool),
    (ReviewPage.offersStartAnalysis
       (ReviewPage.render (Some review) false None useComplexModel analyzePending) = true
     <-> Api.status review = Api.pending \/ Api.status review = Api.failed)
    /\ (ReviewPage.offersStartAnalysis
          (ReviewPage.page st useComplexModel analyzePending) = true ->
        exists r, Query.data st = Some r
                  /\ Api.status r <> Api.analyzing /\ Api.status r <> Api.completed).
Proof.
  intros review st m p. split.
  - rewrite offers_when_shown. apply canAnalyze_spec.
  - intros H. apply offers_only_loaded in H as (r & Hr & Hc).
    exists r. split; [exact Hr|].
    apply canAnalyze_spec in Hc. destruct Hc as [Hc|Hc]; rewrite Hc; split; discriminate.
Qed.

(** A failed review is shown with the control; a query that has fetched a
    pending review offers it for a review that is neither analyzing nor
    completed. *)
Lemma start_analysis_offered_iff_pending_or_failed_witness :
  ReviewPage.offersStartAnalysis
    (ReviewPage.render (Some (sampleReview Api.failed)) false None false false) = true
  /\ exists r,
       Query.data (Query.settle Query.initial (Query.Fetched (sampleReview Api.pending)))
       = Some r
       /\ Api.status r <> Api.analyzing /\ Api.status r <> Api.completed.
Proof.
  destruct (start_analysis_offered_iff_pending_or_failed
              (sampleReview Api.failed)
              (Query.settle Query.initial (Query.Fetched (sampleReview Api.pending)))
              false false) as [Hshown Hnever].
  split.
  - apply Hshown. right. reflexivity.
  - apply Hnever. reflexivity.
Defined.

(** ** A failed re-fetch while analyzing *)

(** C4, as stated, fails: after one failed re-fetch of an "analyzing" review
    the page no longer shows the review it showed before, it shows the
    failure message (polling itself goes on). *)
Lemma failed_refetch_replaces_the_review_view :
  ReviewPage.page analyzingQuery false false
  = ReviewPage.Loaded
      {| ReviewPage.shown := sampleReview Api.analyzing;
         ReviewPage.badge := "analyzing";
         ReviewPage.controls := None;
         ReviewPage.spinner := true |}
  /\ ReviewPage.page (Query.settle analyzingQuery (Query.FetchFailed networkDown))
                     false false
     = ReviewPage.FailedToLoad
  /\ ReviewPage.page (Query.settle analyzingQuery (Query.FetchFailed networkDown))
                     false false
     <> ReviewPage.page analyzingQuery false false.
Proof. repeat split. discriminate. Qed.

(** C4, amended.  While a review is "analyzing", a failed re-fetch keeps the
    last fetched review in the cache and the interval callback still answers
    2000, so the fetch is retried on the next interval; the page meanwhile
    shows the generic failure message in place of the review, and shows the
    review again as soon as a later fetch succeeds. *)
Theorem failed_refetch_keeps_polling_and_shows_failure :
  forall (st : Query.QueryState Api.CodeReviewDetail) (review next : Api.CodeReviewDetail)
         (e : Js.JsError) (useComplexModel analyzePending : bool),
    Query.data st = Some review ->
    Api.status review = Api.analyzing ->
    let st' := Query.settle st (Query.FetchFailed e) in
    Query.data st' = Some review
    /\ ReviewPage.refetchInterval st' = Query.Every 2000
    /\ ReviewPage.page st' useComplexModel analyzePending = ReviewPage.FailedToLoad
    /\ ReviewPage.page (Query.settle st' (Query.Fetched next)) useComplexModel analyzePending
       = ReviewPage.render (Some next) false None useComplexModel analyzePending.
Proof.
  intros st review next e m p Hdata Hstatus st'. subst st'.
  split; [exact Hdata|]. split.
  { apply review_interval_on. exists review. split; assumption. }
  split; [|reflexivity].
  unfold ReviewPage.page, Query.isLoading. simpl. reflexivity.
Qed.

Lemma failed_refetch_keeps_polling_and_shows_failure_witness :
  let st' := Query.settle analyzingQuery (Query.FetchFailed networkDown) in
  Query.data st' = Some (sampleReview Api.analyzing)
  /\ ReviewPage.refetchInterval st' = Query.Every 2000
  /\ ReviewPage.page st' false false = ReviewPage.FailedToLoad
  /\ ReviewPage.page (Query.settle st' (Query.Fetched (sampleReview Api.completed)))
                     false false
     = ReviewPage.render (Some (sampleReview Api.completed)) false None false false.
Proof.
  exact (failed_refetch_keeps_polling_and_shows_failure
           analyzingQuery (sampleReview Api.analyzing) (sampleReview Api.completed)
           networkDown false false eq_refl eq_refl).
Defined.

(** ** The home page *)

Section Trim.
Import Js.

Lemma forallb_trimStart (s : list N) :
  forallb isWhiteSpace (trimStart s) = forallb isWhiteSpace s.
Proof.
  induction s as [|u s IH]; simpl; [reflexivity|].
  destruct (isWhiteSpace u) eqn:Hu; simpl; [exact IH|].
  rewrite Hu. reflexivity.
Qed.

Lemma trimStart_nil_iff (s : list N) :
  trimStart s = [] <-> forallb isWhiteSpace s = true.
Proof.
  induction s as [|u s IH]; simpl; [tauto|].
  destruct (isWhiteSpace u); simpl; [exact IH|].
  split; discriminate.
Qed.

Lemma forallb_rev {A} (f : A -> bool) (l : list A) :
  forallb f (rev l) = forallb f l.
Proof.
  induction l as [|x l IH]; simpl; [reflexivity|].
  rewrite forallb_app, IH. simpl. rewrite andb_true_r. apply andb_comm.
Qed.

Lemma rev_nil_iff {A} (l : list A) : rev l = [] <-> l = [].
Proof.
  split; intros H; [|subst; reflexivity].
  rewrite <- (rev_involutive l), H. reflexivity.
Qed.

(** [s.trim()] is the empty string exactly when [s] holds nothing but
    white space. *)
Lemma trim_nil_iff (s : list N) :
  trim s = [] <-> forallb isWhiteSpace s = true.
Proof.
  unfold trim, trimEnd.
  rewrite rev_nil_iff, trimStart_nil_iff, forallb_rev, forallb_trimStart.
  reflexivity.
Qed.

Lemma isEmpty_trim (s : list N) :
  HomePage.isEmpty (trim s) = forallb isWhiteSpace s.
Proof.
  destruct (forallb isWhiteSpace s) eqn:Hs.
  - apply trim_nil_iff in Hs. rewrite Hs. reflexivity.
  - destruct (trim s) eqn:Ht; [|reflexivity].
    apply trim_nil_iff in Ht. congruence.
Qed.

End Trim.

(** C2.  When the code is empty or holds only white space the submit button
    is disabled and [handleSubmit] makes no [createReview] call; and there is
    code with other characters for which, nothing being in flight, the button
    is enabled and [handleSubmit] makes the call. *)
Theorem blank_code_disables_submit :
  forall st : HomePage.State,
    Forall (fun u => Js.isWhiteSpace u = true) (HomePage.code st) ->
    (HomePage.submitDisabled st = true /\ HomePage.handleSubmit st = [])
    /\ exists filled : HomePage.State,
         HomePage.isPending filled = false
         /\ HomePage.submitDisabled filled = false
         /\ HomePage.handleSubmit filled = [HomePage.createReviewCall filled].
Proof.
  intros st Hblank.
  assert (Hall : forallb Js.isWhiteSpace (HomePage.code st) = true).
  { apply forallb_forall. intros u Hu.
    rewrite List.Forall_forall in Hblank. apply Hblank, Hu. }
  unfold HomePage.submitDisabled, HomePage.handleSubmit.
  rewrite isEmpty_trim, Hall. split; [split; reflexivity|].
  exists filledForm. repeat split.
Qed.

Lemma blank_code_disables_submit_witness :
  (HomePage.submitDisabled blankForm = true /\ HomePage.handleSubmit blankForm = [])
  /\ exists filled : HomePage.State,
       HomePage.isPending filled = false
       /\ HomePage.submitDisabled filled = false
       /\ HomePage.handleSubmit filled = [HomePage.createReviewCall filled].
Proof.
  apply (blank_code_disables_submit blankForm).
  unfold blankForm; simpl. repeat constructor.
Defined.

(** ** The parser's fuel *)

Section Fuel.
Import Js JSON.

Lemma skip_ws_length (s : string) : (String.length (skip_ws s) <= String.length s)%nat.
Proof.
  induction s as [|c s IH]; simpl; [lia|].
  destruct (is_ws c); simpl; lia.
Qed.

Lemma peek_length (s : string) (c : ascii) (r : string) :
  peek s = Some (c, r) -> (String.length r < String.length s)%nat.
Proof.
  unfold peek. pose proof (skip_ws_length s) as H.
  destruct (skip_ws s) as [|c' r']; [discriminate|].
  intros [= -> ->]. simpl in H. lia.
Qed.

Lemma prepend_length (c : ascii) (o : option (string * string)) body r :
  prepend c o = Some (body, r) -> exists body', o = Some (body', r).
Proof. destruct o as [[b r']|]; simpl; [|discriminate]. intros [= <- <-]. eauto. Qed.

Lemma parse_string_body_length (s body r : string) :
  parse_string_body s = Some (body, r) -> (String.length r < String.length s)%nat.
Proof.
  remember (String.length s) as n eqn:Hn. revert s body r Hn.
  induction n as [n IH] using lt_wf_ind. intros s body r Hn.
  destruct s as [|c s]; simpl; [discriminate|].
  destruct (Ascii.eqb c dquote); [intros [= <- <-]; simpl in *; lia|].
  destruct (Ascii.eqb c backslash).
  - destruct s as [|e s]; [discriminate|].
    destruct (Ascii.eqb e "u").
    + destruct s as [|h1 [|h2 [|h3 [|h4 s]]]]; try discriminate.
      destruct (hex_value h1), (hex_value h2), (hex_value h3), (hex_value h4);
        try discriminate.
      match goal with |- context [if ?b then _ else _] => destruct b end;
        [|discriminate].
      intros H. apply prepend_length in H as [b' H].
      apply (IH (String.length s)) in H; simpl in *; lia.
    + destruct (unescape e); [|discriminate].
      intros H. apply prepend_length in H as [b' H].
      apply (IH (String.length s)) in H; simpl in *; lia.
  - match goal with |- context [if ?b then _ else _] => destruct b end;
      [discriminate|].
    intros H. apply prepend_length in H as [b' H].
    apply (IH (String.length s)) in H; simpl in *; lia.
Qed.

Lemma span_digits_length (s ds r : string) :
  span_digits s = (ds, r) -> String.length s = (String.length ds + String.length r)%nat.
Proof.
  revert ds r. induction s as [|c s IH]; simpl; intros ds r.
  - intros [= <- <-]. reflexivity.
  - destruct (is_digit c).
    + destruct (span_digits s) as [ds' r'] eqn:Hs. intros [= <- <-].
      simpl. rewrite (IH _ _ eq_refl). reflexivity.
    + intros [= <- <-]. reflexivity.
Qed.

Lemma parse_number_length (s : string) (v : JsValue) (r : string) :
  parse_number s = Some (v, r) -> (String.length r < String.length s)%nat.
Proof.
  unfold parse_number.
  set (split := match s with
                | String c r0 => if Ascii.eqb c "-" then (true, r0) else (false, s)
                | EmptyString => (false, s)
                end).
  assert (Hsplit : (String.length (snd split) <= String.length s)%nat).
  { subst split. destruct s as [|c s]; simpl; [lia|].
    destruct (Ascii.eqb c "-"); simpl; lia. }
  destruct split as [negative s1]. simpl in Hsplit.
  destruct (span_digits s1) as [ds rest] eqn:Hspan.
  apply span_digits_length in Hspan.
  destruct ds as [|c more]; [discriminate|].
  match goal with |- context [if ?b then _ else _] => destruct b end; [discriminate|].
  destruct (NilEmpty.uint_of_string _); [|discriminate].
  intros [= _ <-]. simpl in Hspan. lia.
Qed.

Lemma expect_length (word s r : string) :
  expect word s = Some r -> (String.length r <= String.length s)%nat.
Proof.
  revert s. induction word as [|w word IH]; intros s; simpl.
  - intros [= ->]. lia.
  - destruct s as [|c s]; [discriminate|].
    destruct (Ascii.eqb w c); [|discriminate].
    intros H. apply IH in H. simpl. lia.
Qed.

Ltac case_if :=
  match goal with
  | |- context [if ?b then _ else _] => destruct b eqn:?
  end.

Ltac same_branch :=
  repeat match goal with
         | E : ?b = _ |- context [if ?b then _ else _] => rewrite E
         | E : ?o = _ |- context [match ?o with Some _ => _ | None => _ end] => rewrite E
         end.

Lemma option_map_pair_inv {A B} (a : A) (o : option B) (v : A) (r : B) :
  option_map (pair a) o = Some (v, r) -> o = Some r /\ v = a.
Proof. destruct o; simpl; [|discriminate]. intros [= <- <-]. auto. Qed.

Lemma settled_value_step (n : nat) :
  settled_elements n -> settled_members n -> settled_value (S n).
Proof.
  intros IHe IHm s v r. cbn [parse_value].
  destruct (peek s) as [[c r0]|] eqn:Hpeek; [|discriminate].
  pose proof (peek_length _ _ _ Hpeek) as Hlen0.
  assert (Hfree : forall body : option (JsValue * string),
             body = Some (v, r) ->
             (String.length r <= String.length r0)%nat ->
             (forall m, parse_value (S m) s = body) ->
             (String.length r < String.length s)%nat
             /\ forall m, (2 * (String.length s - String.length r) <= m)%nat ->
                          parse_value m s = Some (v, r)).
  { intros body Hbody Hle Hsame. split; [lia|].
    intros [|m] Hm; [lia|]. rewrite Hsame. exact Hbody. }
  repeat case_if; intros H.
  - apply (Hfree _ H).
    + apply option_map_pair_inv in H as [H _]. apply expect_length in H. exact H.
    + intros m. cbn [parse_value]. rewrite Hpeek. same_branch. reflexivity.
  - apply (Hfree _ H).
    + apply option_map_pair_inv in H as [H _]. apply expect_length in H. exact H.
    + intros m. cbn [parse_value]. rewrite Hpeek. same_branch. reflexivity.
  - apply (Hfree _ H).
    + apply option_map_pair_inv in H as [H _]. apply expect_length in H. exact H.
    + intros m. cbn [parse_value]. rewrite Hpeek. same_branch. reflexivity.
  - destruct (peek r0) as [[c1 r1]|] eqn:Hpeek1; [|discriminate].
    pose proof (peek_length _ _ _ Hpeek1) as Hlen1.
    destruct (Ascii.eqb c1 "]") eqn:Hclose.
    + injection H as <- <-. split; [lia|].
      intros [|m] Hm; [lia|]. cbn [parse_value].
      rewrite Hpeek. same_branch. reflexivity.
    + destruct (parse_elements n [] r0) as [[items r2]|] eqn:Hel; [|discriminate].
      injection H as <- <-.
      destruct (IHe _ _ _ _ Hel) as [Hlen2 Hmore]. split; [lia|].
      intros [|m] Hm; [lia|]. cbn [parse_value].
      rewrite Hpeek. same_branch.
      rewrite Hmore by lia. reflexivity.
  - destruct (peek r0) as [[c1 r1]|] eqn:Hpeek1; [|discriminate].
    pose proof (peek_length _ _ _ Hpeek1) as Hlen1.
    destruct (Ascii.eqb c1 "}") eqn:Hclose.
    + injection H as <- <-. split; [lia|].
      intros [|m] Hm; [lia|]. cbn [parse_value].
      rewrite Hpeek. same_branch. reflexivity.
    + destruct (parse_members n [] r0) as [[props r2]|] eqn:Hmem; [|discriminate].
      injection H as <- <-.
      destruct (IHm _ _ _ _ Hmem) as [Hlen2 Hmore]. split; [lia|].
      intros [|m] Hm; [lia|]. cbn [parse_value].
      rewrite Hpeek. same_branch.
      rewrite Hmore by lia. reflexivity.
  - apply (Hfree _ H).
    + destruct (parse_string_body r0) as [[str r1]|] eqn:Hstr; [|discriminate].
      injection H as <- <-. apply parse_string_body_length in Hstr. lia.
    + intros m. cbn [parse_value]. rewrite Hpeek. same_branch. reflexivity.
  - apply (Hfree _ H).
    + apply parse_number_length in H. simpl in H. lia.
    + intros m. cbn [parse_value]. rewrite Hpeek. same_branch. reflexivity.
Qed.

Lemma settled_elements_step (n : nat) :
  settled_value n -> settled_elements n -> settled_elements (S n).
Proof.
  intros IHv IHe acc s l r. cbn [parse_elements].
  destruct (parse_value n s) as [[v r0]|] eqn:Hval; [|discriminate].
  destruct (IHv _ _ _ Hval) as [Hlen0 Hmore0].
  destruct (peek r0) as [[c r1]|] eqn:Hpeek; [|discriminate].
  pose proof (peek_length _ _ _ Hpeek) as Hlen1.
  destruct (Ascii.eqb c ",") eqn:Hcomma.
  - intros Hrest. destruct (IHe _ _ _ _ Hrest) as [Hlen2 Hmore2].
    split; [lia|]. intros [|m] Hm; [lia|]. cbn [parse_elements].
    rewrite Hmore0 by lia. rewrite Hpeek, Hcomma. apply Hmore2. lia.
  - destruct (Ascii.eqb c "]") eqn:Hclose; [|discriminate].
    intros [= <- <-]. split; [lia|].
    intros [|m] Hm; [lia|]. cbn [parse_elements].
    rewrite Hmore0 by lia. rewrite Hpeek, Hcomma, Hclose. reflexivity.
Qed.

Lemma settled_members_step (n : nat) :
  settled_value n -> settled_members n -> settled_members (S n).
Proof.
  intros IHv IHm acc s l r. cbn [parse_members].
  destruct (peek s) as [[q r0]|] eqn:Hpeek0; [|discriminate].
  pose proof (peek_length _ _ _ Hpeek0) as Hlen0.
  destruct (negb (Ascii.eqb q dquote)) eqn:Hquote; [discriminate|].
  destruct (parse_string_body r0) as [[key r1]|] eqn:Hkey; [|discriminate].
  pose proof (parse_string_body_length _ _ _ Hkey) as Hlen1.
  destruct (peek r1) as [[colon r2]|] eqn:Hpeek1; [|discriminate].
  pose proof (peek_length _ _ _ Hpeek1) as Hlen2.
  destruct (negb (Ascii.eqb colon ":")) eqn:Hcolon; [discriminate|].
  destruct (parse_value n r2) as [[v r3]|] eqn:Hval; [|discriminate].
  destruct (IHv _ _ _ Hval) as [Hlen3 Hmore3].
  destruct (peek r3) as [[c r4]|] eqn:Hpeek3; [|discriminate].
  pose proof (peek_length _ _ _ Hpeek3) as Hlen4.
  assert (Hhead : forall m,
             (2 * (String.length r2 - String.length r3) <= m)%nat ->
             parse_members (S m) acc s
             = if Ascii.eqb c ","
               then parse_members m (set_property key v acc) r4
               else if Ascii.eqb c "}"
                    then Some (set_property key v acc, r4)
                    else None).
  { intros m Hm. cbn [parse_members].
    rewrite Hpeek0, Hquote, Hkey, Hpeek1, Hcolon, (Hmore3 m Hm), Hpeek3. reflexivity. }
  destruct (Ascii.eqb c ",") eqn:Hcomma.
  - intros Hrest. destruct (IHm _ _ _ _ Hrest) as [Hlen5 Hmore5].
    split; [lia|]. intros [|m] Hm; [lia|].
    rewrite Hhead by lia. apply Hmore5. lia.
  - destruct (Ascii.eqb c "}") eqn:Hclose; [|discriminate].
    intros [= <- <-]. split; [lia|].
    intros [|m] Hm; [lia|]. rewrite Hhead by lia. reflexivity.
Qed.

Lemma parse_settled (n : nat) :
  settled_value n /\ settled_elements n /\ settled_members n.
Proof.
  induction n as [|n (IHv & IHe & IHm)].
  - repeat split; intros; discriminate.
  - split; [|split].
    + apply settled_value_step; assumption.
    + apply settled_elements_step; assumption.
    + apply settled_members_step; assumption.
Qed.

(** The fuel [parse] hands out is enough: what any amount of fuel can
    parse, [parse] parses. *)
Lemma parse_fuel_enough (n : nat) (text : string) (v : JsValue) (rest : string) :
  parse_value n text = Some (v, rest) ->
  parse_value (2 * String.length text + 2) text = Some (v, rest).
Proof.
  intros H. destruct (parse_settled n) as (Hv & _ & _).
  destruct (Hv _ _ _ H) as [Hlen Hmore]. apply Hmore. lia.
Qed.

(** So a text that [parse] rejects is rejected whatever the fuel. *)
Lemma parse_thrown_whatever_fuel (text : string) (e : JsError)
      (n : nat) (v : JsValue) (rest : string) :
  parse text = Thrown e ->
  parse_value n text = Some (v, rest) ->
  skip_ws rest <> EmptyString.
Proof.
  unfold parse. intros Hparse Hn. rewrite (parse_fuel_enough _ _ _ _ Hn) in Hparse.
  destruct (skip_ws rest); [discriminate|congruence].
Qed.

End Fuel.

(** ** Numbers in JSON text *)

Section JsonNumbers.
Import Js JSON.

Lemma string_app_cons (c : ascii) (s t : string) :
  String c s ++ t = String c (s ++ t).
Proof. reflexivity. Qed.

Lemma span_digits_stop (rest : string) :
  starts_with_digit rest = false -> span_digits rest = (EmptyString, rest).
Proof.
  destruct rest as [|c rest]; simpl; [reflexivity|]. intros ->. reflexivity.
Qed.

Lemma span_digits_uint (d : Decimal.uint) (rest : string) :
  starts_with_digit rest = false ->
  span_digits (NilEmpty.string_of_uint d ++ rest) = (NilEmpty.string_of_uint d, rest).
Proof.
  intros Hrest. induction d; simpl;
    [apply span_digits_stop, Hrest | rewrite IHd; reflexivity ..].
Qed.

(** The digits of a positive number do not start with a zero. *)
Lemma to_uint_no_leading_zero (p : positive) (d : Decimal.uint) :
  Pos.to_uint p <> Decimal.D0 d.
Proof.
  intros H.
  assert (Hnorm : Decimal.unorm (Pos.to_uint p) = Pos.to_uint p).
  { rewrite <- (DecimalPos.Unsigned.to_of (Pos.to_uint p)).
    rewrite DecimalPos.Unsigned.of_to. reflexivity. }
  destruct (Decimal.nzhead (Pos.to_uint p)) eqn:Hnz;
    [ apply (DecimalPos.Unsigned.to_uint_nonzero p);
      rewrite <- Hnorm; apply DecimalFacts.unorm_0; exact Hnz
    | rewrite DecimalFacts.unorm_nzhead in Hnorm by congruence;
      rewrite H in Hnorm;
      exact (DecimalFacts.nzhead_nonzero _ _ Hnorm) .. ].
Qed.

Ltac eval_is_digit :=
  repeat match goal with
         | |- context [is_digit ?c] =>
             let b := eval vm_compute in (is_digit c) in
             change (is_digit c) with b
         end.

Lemma parse_number_unsigned (d : Decimal.uint) (rest : string) :
  d <> Decimal.Nil -> (forall d', d <> Decimal.D0 d') ->
  starts_with_digit rest = false ->
  parse_number (NilEmpty.string_of_uint d ++ rest)
  = Some (JNum (NInt (Z.of_N (N.of_uint d))), rest).
Proof.
  intros Hnil Hlead Hrest.
  pose proof (NilEmpty.usu d) as Husu.
  destruct d as [|u|u|u|u|u|u|u|u|u|u];
    [ congruence | exfalso; exact (Hlead u eq_refl) | .. ];
    cbn [NilEmpty.string_of_uint] in *; rewrite string_app_cons;
    unfold parse_number;
    cbn -[N.of_uint NilEmpty.uint_of_string String.append is_digit];
    rewrite (span_digits_uint u rest Hrest); eval_is_digit;
    cbn -[N.of_uint NilEmpty.uint_of_string String.append];
    rewrite Husu; reflexivity.
Qed.

Lemma parse_number_negative (d : Decimal.uint) (rest : string) :
  d <> Decimal.Nil -> (forall d', d <> Decimal.D0 d') ->
  starts_with_digit rest = false ->
  parse_number (String "-" (NilEmpty.string_of_uint d ++ rest))
  = Some (JNum (NInt (- Z.of_N (N.of_uint d))), rest).
Proof.
  intros Hnil Hlead Hrest.
  pose proof (NilEmpty.usu d) as Husu.
  pose proof (span_digits_uint d rest Hrest) as Hspan.
  unfold parse_number.
  cbn -[N.of_uint NilEmpty.uint_of_string String.append span_digits].
  rewrite Hspan.
  destruct d as [|u|u|u|u|u|u|u|u|u|u];
    [ congruence | exfalso; exact (Hlead u eq_refl) | .. ];
    cbn [NilEmpty.string_of_uint] in *;
    cbn -[N.of_uint NilEmpty.uint_of_string String.append];
    rewrite Husu; reflexivity.
Qed.

Lemma parse_value_digits (fuel : nat) (d : Decimal.uint) (rest : string) :
  d <> Decimal.Nil ->
  parse_value (S fuel) (NilEmpty.string_of_uint d ++ rest)
  = parse_number (NilEmpty.string_of_uint d ++ rest).
Proof. intros Hnil. destruct d; [congruence | reflexivity ..]. Qed.

(** A number that [stringify] wrote is read back as the same number,
    whatever follows it, as long as that is not one more digit. *)
Lemma parse_value_Z (fuel : nat) (z : Z) (rest : string) :
  starts_with_digit rest = false ->
  parse_value (S fuel) (Z_to_string z ++ rest) = Some (JNum (NInt z), rest).
Proof.
  intros Hrest. destruct z as [|p|p]; unfold Z_to_string.
  - change (parse_number (String "0" rest) = Some (JNum (NInt 0), rest)).
    unfold parse_number.
    cbn -[N.of_uint NilEmpty.uint_of_string String.append is_digit span_digits].
    change (span_digits (String "0" rest))
      with (let '(ds, r) := span_digits rest in (String "0" ds, r)).
    rewrite (span_digits_stop rest Hrest). reflexivity.
  - rewrite parse_value_digits by apply DecimalPos.Unsigned.to_uint_nonnil.
    rewrite parse_number_unsigned;
      [ | apply DecimalPos.Unsigned.to_uint_nonnil
        | intros d'; apply to_uint_no_leading_zero
        | exact Hrest ].
    unfold N.of_uint. rewrite DecimalPos.Unsigned.of_to. reflexivity.
  - rewrite string_app_cons.
    change (parse_number (String "-" (NilEmpty.string_of_uint (Pos.to_uint p) ++ rest))
            = Some (JNum (NInt (Z.neg p)), rest)).
    rewrite parse_number_negative;
      [ | apply DecimalPos.Unsigned.to_uint_nonnil
        | intros d'; apply to_uint_no_leading_zero
        | exact Hrest ].
    unfold N.of_uint. rewrite DecimalPos.Unsigned.of_to. reflexivity.
Qed.


(** Distinct numbers are written differently. *)
Lemma Z_to_string_inj (a b : Z) : Z_to_string a = Z_to_string b -> a = b.
Proof.
  intros H.
  pose proof (parse_value_Z 0 a EmptyString eq_refl) as Ha.
  pose proof (parse_value_Z 0 b EmptyString eq_refl) as Hb.
  rewrite H in Ha. congruence.
Qed.


End JsonNumbers.

(** ** The typed client *)

(** When the network fails there is no response, and [fetchApi] throws
    what [fetch] threw. *)
Lemma fetchApi_network_failure (API_URL : string)
      (fetch : string -> Api.RequestInit -> Js.Completion Api.Response)
      (endpoint : string) (options : option Api.RequestInit) (e : Js.JsError) :
  fetch (API_URL ++ endpoint) (Api.withJsonHeaders options) = Js.Thrown e ->
  Api.fetchApi API_URL fetch endpoint options = Js.Thrown e.
Proof. intros H. unfold Api.fetchApi. rewrite H. reflexivity. Qed.

(** C3, as stated, fails: a response whose status is ok but whose body is
    not JSON makes [fetchApi] throw, and the error it throws is the parser's,
    not one that carries the status. *)
Lemma fetchApi_throws_on_ok_response_without_json :
  Api.ok {| Api.resp_status := 200; Api.resp_body := "<!DOCTYPE html>" |} = true
  /\ Api.fetchApi "http://localhost:8000" htmlServer "/api/reviews/7" None
     = Js.Thrown (Js.SyntaxError "Unexpected token in JSON").
Proof. split; reflexivity. Qed.

(** C3, amended.  For every endpoint and every HTTP response, [fetchApi]
    either returns the parsed JSON body or throws, and nothing else: it
    returns only for a response whose status is ok and whose body parses,
    and then returns the parsed body; for a status that is not ok it throws
    a plain [Error] whose message carries the numeric status (the status can
    be read back from it), whatever the status is; for an ok status whose
    body does not parse it throws what the parser threw. *)
Theorem fetchApi_returns_parsed_body_or_throws :
  forall (API_URL : string)
         (fetch : string -> Api.RequestInit -> Js.Completion Api.Response)
         (endpoint : string) (options : option Api.RequestInit)
         (response : Api.Response),
    fetch (API_URL ++ endpoint) (Api.withJsonHeaders options) = Js.Returned response ->
    let outcome := Api.fetchApi API_URL fetch endpoint options in
    ((exists v, outcome = Js.Returned v) \/ (exists e, outcome = Js.Thrown e))
    /\ (forall v, outcome = Js.Returned v <->
                  Api.ok response = true /\ JSON.parse (Api.resp_body response) = Js.Returned v)
    /\ (Api.ok response = false ->
        outcome = Js.Thrown
                    (Js.mkError "Error"
                       ("API error: " ++ Js.Z_to_string (Api.resp_status response))))
    /\ (Api.ok response = true -> outcome = JSON.parse (Api.resp_body response))
    /\ (forall status : Z,
          "API error: " ++ Js.Z_to_string status
          = "API error: " ++ Js.Z_to_string (Api.resp_status response) ->
          status = Api.resp_status response).
Proof.
  intros API_URL fetch endpoint options response Hfetch outcome.
  assert (Hcarried : forall status : Z,
             "API error: " ++ Js.Z_to_string status
             = "API error: " ++ Js.Z_to_string (Api.resp_status response) ->
             status = Api.resp_status response).
  { intros status H. apply Z_to_string_inj. exact (String.app_inj _ _ _ H). }
  subst outcome. unfold Api.fetchApi, Api.json. rewrite Hfetch.
  destruct (Api.ok response) eqn:Hok; simpl.
  - split.
    { destruct (JSON.parse (Api.resp_body response)) as [v|e]; eauto. }
    split; [|split; [discriminate|split; [reflexivity|exact Hcarried]]].
    intros v. split; [intros H; split; [reflexivity|exact H]|intros [_ H]; exact H].
  - split; [right; eauto|].
    split; [|split; [reflexivity|split; [discriminate|exact Hcarried]]].
    intros v. split; [discriminate|intros [H _]; discriminate].
Qed.

Lemma fetchApi_returns_parsed_body_or_throws_witness :
  let found := Api.fetchApi "http://localhost:8000" reviewServer "/api/reviews/7" None in
  ((exists v, found = Js.Returned v) \/ (exists e, found = Js.Thrown e))
  /\ found = Js.Returned (Js.JObject [("id", Js.JNum (Js.NInt 7));
                                      ("status", Js.JStr "pending")])
  /\ Api.fetchApi "http://localhost:8000" reviewServer "/api/reviews/8" None
     = Js.Thrown (Js.mkError "Error" "API error: 404").
Proof.
  cbv zeta.
  pose proof (fetchApi_returns_parsed_body_or_throws
                "http://localhost:8000" reviewServer "/api/reviews/7" None
                {| Api.resp_status := 200; Api.resp_body := reviewBody |}
                eq_refl) as (H1 & _ & _ & H4 & _).
  pose proof (fetchApi_returns_parsed_body_or_throws
                "http://localhost:8000" reviewServer "/api/reviews/8" None
                {| Api.resp_status := 404; Api.resp_body := notFoundBody |}
                eq_refl) as (_ & _ & H3 & _ & _).
  split; [exact H1|]. split.
  - rewrite (H4 eq_refl). vm_compute. reflexivity.
  - rewrite (H3 eq_refl). reflexivity.
Defined.

(** ** Mutations and the cache *)

Section Invalidation.
Import Js Api Query.
Context {D : Type}.
Implicit Types (cache : gmap QueryKey (CacheEntry D)) (key filter : QueryKey).

Lemma partialMatchKey_prefix filter suffix :
  partialMatchKey filter (filter ++ suffix)%list = true.
Proof.
  induction filter as [|f fs IH]; simpl; [reflexivity|].
  rewrite bool_decide_eq_true_2 by reflexivity. exact IH.
Qed.

Lemma invalidateQueries_lookup filter cache key :
  invalidateQueries filter cache !! key
  = (fun e => if partialMatchKey filter key then mkEntry (cached e) true else e)
      <$> cache !! key.
Proof.
  unfold invalidateQueries. rewrite map_lookup_imap.
  destruct (cache !! key); reflexivity.
Qed.

(** Invalidation drops nothing from the cache and changes no cached data. *)
Lemma invalidateQueries_keeps_data filter cache key :
  cached <$> (invalidateQueries filter cache !! key) = cached <$> (cache !! key).
Proof.
  rewrite invalidateQueries_lookup.
  destruct (cache !! key) as [e|]; simpl; [|reflexivity].
  destruct (partialMatchKey filter key); reflexivity.
Qed.

Lemma mustRefetch_invalidated filter cache key :
  partialMatchKey filter key = true ->
  mustRefetch (invalidateQueries filter cache) key = true.
Proof.
  intros Hmatch. unfold mustRefetch. rewrite invalidateQueries_lookup, Hmatch.
  destruct (cache !! key); reflexivity.
Qed.

(** An entry the filter does not match is left as it was. *)
Lemma mustRefetch_unmatched filter cache key :
  partialMatchKey filter key = false ->
  mustRefetch (invalidateQueries filter cache) key = mustRefetch cache key.
Proof.
  intros Hmatch. unfold mustRefetch. rewrite invalidateQueries_lookup, Hmatch.
  destruct (cache !! key); reflexivity.
Qed.

Lemma settleMutation_failed (m : Mutation D) cache :
  settleMutation m false cache = cache.
Proof. reflexivity. Qed.

End Invalidation.

(** C5, as stated, fails: the file review is a mutating request, and when it
    succeeds nothing in the cache is invalidated, so reads stay served from
    the cache. *)
Lemma file_review_invalidates_nothing :
  let m : Query.Mutation Js.JsValue := RepoPage.reviewMutation "acme" "api" "src/app.py" in
  let after := Query.settleMutation m true freshCache in
  Api.httpMethod (Query.mutationFn m) = "POST"
  /\ after = freshCache
  /\ Query.mustRefetch after [Query.KStr "reviews"] = false
  /\ Query.mustRefetch after (RepoPage.contentsKey "acme" "api" "src") = false.
Proof. cbv zeta. repeat split. Qed.

(** C5, amended.  When the request of one of these mutations succeeds
    (triggering a review's analysis, triggering a pull-request review from
    either pull-request page, syncing installations), every cache entry whose
    key starts with the key the handler names is invalidated, so a later read
    of it has to go to the server; a failed request invalidates nothing; and
    triggering a file review has no handler and leaves the cache as it is. *)
Theorem successful_mutations_invalidate_their_queries :
  forall (D : Type) (cache : gmap Query.QueryKey (Query.CacheEntry D))
         (reviewId prNumber : Z) (useComplexModel : bool)
         (owner repo path : string) (suffix : Query.QueryKey),
    Query.mustRefetch
      (Query.settleMutation (ReviewPage.analyzeMutation reviewId useComplexModel) true cache)
      (ReviewPage.queryKey reviewId ++ suffix)%list = true
    /\ Query.mustRefetch
         (Query.settleMutation (PRDetailPage.reviewMutation owner repo prNumber) true cache)
         (PRDetailPage.queryKey owner repo prNumber ++ suffix)%list = true
    /\ Query.mustRefetch
         (Query.settleMutation (PullsPage.reviewMutation owner repo prNumber) true cache)
         (PullsPage.queryKey owner repo ++ suffix)%list = true
    /\ Query.mustRefetch
         (Query.settleMutation GitHubPage.syncMutation true cache)
         (GitHubPage.queryKey ++ suffix)%list = true
    /\ Query.settleMutation (ReviewPage.analyzeMutation reviewId useComplexModel) false cache
       = cache
    /\ Query.settleMutation (RepoPage.reviewMutation owner repo path) true cache = cache.
Proof.
  intros.
  unfold Query.settleMutation, ReviewPage.analyzeMutation, PRDetailPage.reviewMutation,
    PullsPage.reviewMutation, GitHubPage.syncMutation, RepoPage.reviewMutation.
  cbn [Query.onSuccess].
  repeat split; apply mustRefetch_invalidated, partialMatchKey_prefix.
Qed.

(** ** The file tree *)

Section FileTreeOrder.
Import Js FileTree.

Variable localeCompare : string -> string -> Z.

(** What [localeCompare] is relied on for: it compares any two names one
    way or the other, and consistently. *)
Hypothesis localeCompare_total :
  forall a b, localeCompare a b <= 0 \/ localeCompare b a <= 0.
Hypothesis localeCompare_trans :
  forall a b c, localeCompare a b <= 0 -> localeCompare b c <= 0 -> localeCompare a c <= 0.

Local Abbreviation before := (notAfter localeCompare).
Local Abbreviation isDir := (fun item => String.eqb (type item) "dir").

Lemma notAfter_cases (a b : FileTreeItem) :
  before a b <->
  (isDir a = true /\ isDir b = false)
  \/ (isDir a = isDir b /\ localeCompare (name a) (name b) <= 0).
Proof.
  unfold notAfter, compareItems.
  destruct (String.eqb (type a) "dir"), (String.eqb (type b) "dir"); simpl;
    split; intros H; try lia; auto;
    destruct H as [[? ?]|[? ?]]; try discriminate; try lia.
Qed.

Lemma notAfter_total (a b : FileTreeItem) : before a b \/ before b a.
Proof.
  rewrite !notAfter_cases.
  destruct (localeCompare_total (name a) (name b));
    destruct (String.eqb (type a) "dir"), (String.eqb (type b) "dir"); auto.
Qed.

Lemma notAfter_trans (a b c : FileTreeItem) :
  before a b -> before b c -> before a c.
Proof.
  rewrite !notAfter_cases.
  intros [[Ha Hb]|[Hab Hn1]] [[Hb' Hc]|[Hbc Hn2]].
  - congruence.
  - left. split; congruence.
  - left. split; congruence.
  - right. split; [congruence|]. eapply localeCompare_trans; eassumption.
Qed.

Lemma insertSorted_perm (x : FileTreeItem) (l : list FileTreeItem) :
  Permutation (insertSorted localeCompare x l) (x :: l).
Proof.
  induction l as [|y l IH]; simpl; [reflexivity|].
  destruct (decide (before x y)); [reflexivity|].
  rewrite IH. apply perm_swap.
Qed.

Lemma sorted_perm (l : list FileTreeItem) :
  Permutation (sorted localeCompare l) l.
Proof.
  induction l as [|x l IH]; simpl; [reflexivity|].
  rewrite insertSorted_perm, IH. reflexivity.
Qed.

Lemma insertSorted_ordered (x : FileTreeItem) (l : list FileTreeItem) :
  StronglySorted before l -> StronglySorted before (insertSorted localeCompare x l).
Proof.
  induction 1 as [|y l Hl IH Hy]; simpl.
  - repeat constructor.
  - destruct (decide (before x y)) as [Hxy|Hxy].
    + constructor; [constructor; assumption|].
      constructor; [assumption|].
      eapply Forall_impl; [exact Hy|]. intros z Hz. eapply notAfter_trans; eauto.
    + constructor; [exact IH|].
      rewrite insertSorted_perm. constructor; [|exact Hy].
      destruct (notAfter_total x y); [contradiction|assumption].
Qed.

Lemma sorted_ordered (l : list FileTreeItem) :
  StronglySorted before (sorted localeCompare l).
Proof.
  induction l as [|x l IH]; simpl; [constructor|].
  apply insertSorted_ordered, IH.
Qed.

(** In a strongly sorted list, an earlier element may stay before any
    later one. *)
Lemma ordered_positions (l : list FileTreeItem) (i j : nat) (a b : FileTreeItem) :
  StronglySorted before l ->
  (i < j)%nat -> l !! i = Some a -> l !! j = Some b -> before a b.
Proof.
  intros Hl. revert i j. induction Hl as [|x l Hl IH Hx]; intros i j Hij Ha Hb.
  - discriminate.
  - destruct j as [|j]; [lia|]. simpl in Hb. destruct i as [|i]; simpl in Ha.
    + injection Ha as <-. rewrite List.Forall_forall in Hx. apply Hx.
      apply list_elem_of_In. eapply list_elem_of_lookup_2. exact Hb.
    + apply (IH i j); [lia|assumption|assumption].
Qed.

(** Equal elements keep the order they came in. *)
Lemma insertSorted_first (x : FileTreeItem) (l : list FileTreeItem) :
  Forall (before x) l -> insertSorted localeCompare x l = x :: l.
Proof.
  intros H. destruct H as [|y l Hy _]; simpl; [reflexivity|].
  destruct (decide (before x y)); [reflexivity|contradiction].
Qed.

(** What the component does to the store. *)
Lemma FileTree_store (store : Store) (items : positive) (selectedPath : option string)
      (l : list FileTreeItem) :
  store !! items = Some l ->
  exists sortedItems store',
    FileTree localeCompare store items selectedPath
    = (sortedItems,
       {| rows := map (row selectedPath) (sorted localeCompare l);
          emptyDirectory := Nat.eqb (List.length l) 0 |},
       store')
    /\ sortedItems <> items
    /\ store !! sortedItems = None
    /\ store' !! sortedItems = Some (sorted localeCompare l)
    /\ forall other, other <> sortedItems -> store' !! other = store !! other.
Proof.
  intros Hl. unfold FileTree, spread, sort. cbv beta iota zeta.
  set (copy := fresh (dom store)).
  assert (Hfresh : store !! copy = None).
  { apply not_elem_of_dom. apply is_fresh. }
  assert (Hne : copy <> items) by congruence.
  exists copy, (alter (sorted localeCompare) copy (<[copy := store !!! items]> store)).
  rewrite (lookup_total_correct _ _ _ Hl).
  rewrite lookup_total_alter_eq, lookup_insert_eq.
  rewrite lookup_total_alter_ne, lookup_total_insert_ne by assumption.
  rewrite (lookup_total_correct _ _ _ Hl).
  split; [reflexivity|]. split; [assumption|]. split; [assumption|]. split.
  - rewrite lookup_alter_eq, lookup_insert_eq. reflexivity.
  - intros other Hother.
    rewrite lookup_alter_ne, lookup_insert_ne by congruence. reflexivity.
Qed.

End FileTreeOrder.

(** C8.  For every list of items the component displays a sorted copy: the
    displayed array is a rearrangement of the input in which every "dir" item
    comes before every item of another type and, within each of the two
    groups, names ascend in [localeCompare] order; the array that was passed
    in is left as it was. *)
Theorem FileTree_displays_sorted_copy :
  forall (localeCompare : string -> string -> Z),
    (forall a b, localeCompare a b <= 0 \/ localeCompare b a <= 0) ->
    (forall a b c, localeCompare a b <= 0 -> localeCompare b c <= 0 ->
                   localeCompare a c <= 0) ->
    forall (store : FileTree.Store) (items : positive) (selectedPath : option string)
           (l : list FileTree.FileTreeItem),
      store !! items = Some l ->
      exists sortedItems rendered store' shown,
        FileTree.FileTree localeCompare store items selectedPath
        = (sortedItems, rendered, store')
        /\ store' !! sortedItems = Some shown
        /\ FileTree.rows rendered = map (FileTree.row selectedPath) shown
        /\ Permutation shown l
        /\ (forall (i j : nat) (a b : FileTree.FileTreeItem),
              (i < j)%nat -> shown !! i = Some a -> shown !! j = Some b ->
              (FileTree.type b = "dir" -> FileTree.type a = "dir")
              /\ ((FileTree.type a = "dir" <-> FileTree.type b = "dir") ->
                  localeCompare (FileTree.name a) (FileTree.name b) <= 0))
        /\ sortedItems <> items
        /\ store' !! items = Some l.
Proof.
  intros localeCompare Htotal Htrans store items selectedPath l Hl.
  destruct (FileTree_store localeCompare store items selectedPath l Hl)
    as (sortedItems & store' & Hrun & Hne & _ & Hcopy & Hrest).
  eexists sortedItems, _, store', (FileTree.sorted localeCompare l).
  split; [exact Hrun|]. split; [exact Hcopy|]. split; [reflexivity|].
  split; [apply sorted_perm|]. split; [|split; [exact Hne|]].
  - intros i j a b Hij Ha Hb.
    pose proof (ordered_positions localeCompare _ i j a b
                  (sorted_ordered localeCompare Htotal Htrans l) Hij Ha Hb) as Hab.
    apply notAfter_cases in Hab.
    rewrite <- !String.eqb_eq.
    destruct Hab as [[Hda Hdb]|[Hsame Hnames]].
    + rewrite Hda, Hdb. split; [discriminate|]. intros [H _]. now specialize (H eq_refl).
    + rewrite Hsame. split; [tauto|]. intros _. exact Hnames.
  - rewrite Hrest by congruence. exact Hl.
Qed.

Lemma compare_not_Gt_trans (a b c : string) :
  String.compare a b <> Gt -> String.compare b c <> Gt -> String.compare a c <> Gt.
Proof.
  revert b c. induction a as [|x a IH]; intros [|y b] [|z c]; simpl;
    try congruence.
  unfold Ascii.compare.
  destruct (N.compare_spec (N_of_ascii x) (N_of_ascii y)),
           (N.compare_spec (N_of_ascii y) (N_of_ascii z)),
           (N.compare_spec (N_of_ascii x) (N_of_ascii z));
    try congruence; try lia; eauto.
Qed.

Lemma codeUnitCompare_total (a b : string) :
  codeUnitCompare a b <= 0 \/ codeUnitCompare b a <= 0.
Proof.
  unfold codeUnitCompare. rewrite (String.compare_antisym a b).
  destruct (String.compare b a); simpl; lia.
Qed.

Lemma codeUnitCompare_trans (a b c : string) :
  codeUnitCompare a b <= 0 -> codeUnitCompare b c <= 0 -> codeUnitCompare a c <= 0.
Proof.
  unfold codeUnitCompare. intros Hab Hbc.
  pose proof (compare_not_Gt_trans a b c) as H.
  destruct (String.compare a b), (String.compare b c), (String.compare a c);
    try lia; exfalso; apply H; congruence.
Qed.

Lemma FileTree_displays_sorted_copy_witness :
  exists sortedItems rendered store' shown,
    FileTree.FileTree codeUnitCompare listingStore 1%positive (Some "app.ts")
    = (sortedItems, rendered, store')
    /\ store' !! sortedItems = Some shown
    /\ FileTree.rows rendered = map (FileTree.row (Some "app.ts")) shown
    /\ Permutation shown listing
    /\ (forall (i j : nat) (a b : FileTree.FileTreeItem),
          (i < j)%nat -> shown !! i = Some a -> shown !! j = Some b ->
          (FileTree.type b = "dir" -> FileTree.type a = "dir")
          /\ ((FileTree.type a = "dir" <-> FileTree.type b = "dir") ->
              codeUnitCompare (FileTree.name a) (FileTree.name b) <= 0))
    /\ sortedItems <> 1%positive
    /\ store' !! 1%positive = Some listing.
Proof.
  exact (FileTree_displays_sorted_copy
           codeUnitCompare codeUnitCompare_total codeUnitCompare_trans
           listingStore 1%positive (Some "app.ts") listing eq_refl).
Defined.

(** The same listing, evaluated. *)
Example FileTree_listing_order :
  map FileTree.text
      (FileTree.rows (snd (fst (FileTree.FileTree codeUnitCompare listingStore 1%positive None))))
  = ["docs"; "src"; "LICENSE"; "README.md"; "app.ts"].
Proof. vm_compute. reflexivity. Qed.

(** ** The editor's language map *)

Section LanguageMap.
Import Js CodeEditor.

Lemma own_property_In (key : string) (props : list (string * JsValue)) (v : JsValue) :
  own_property key props = Some v -> In (key, v) props.
Proof.
  induction props as [|[k w] props IH]; simpl; [discriminate|].
  destruct (String.eqb_spec k key) as [->|_].
  - intros [= ->]. left; reflexivity.
  - intros H. right. apply IH, H.
Qed.

Lemma languageMap_settled :
  forallb (fun entry => settled (snd entry)) languageMap = true.
Proof. vm_compute. reflexivity. Qed.

Lemma settled_spec (v : JsValue) :
  settled v = true ->
  exists id, v = JStr id /\ In id monacoIds /\ mapLanguage id = JStr id.
Proof.
  destruct v as [| | | |id| | | |]; try discriminate.
  unfold settled. intros H. apply andb_prop in H as [Hin Hfix].
  exists id. split; [reflexivity|]. split.
  - apply existsb_exists in Hin as (x & Hx & Heq).
    apply String.eqb_eq in Heq. subst. exact Hx.
  - destruct (mapLanguage id) as [| | | |id'| | | |]; try discriminate.
    apply String.eqb_eq in Hfix. subst. reflexivity.
Qed.

(** Away from the names an object inherits, the function is total on
    language identifiers and idempotent. *)
Lemma mapLanguage_off_inherited_names (language : string) :
  object_prototype_member (toLowerCase language) = None ->
  exists id, mapLanguage language = JStr id
             /\ In id monacoIds
             /\ mapLanguageOf (mapLanguage language) = Returned (JStr id).
Proof.
  intros Hproto. unfold mapLanguage, get. rewrite Hproto.
  destruct (own_property (toLowerCase language) languageMap) as [v|] eqn:Hown.
  - apply own_property_In in Hown.
    pose proof languageMap_settled as Hall.
    rewrite forallb_forall in Hall. specialize (Hall _ Hown). simpl in Hall.
    apply settled_spec in Hall as (id & -> & Hin & Hfix).
    exists id. simpl. rewrite Hfix. auto.
  - exists "plaintext". simpl. split; [reflexivity|]. split; [|reflexivity].
    unfold monacoIds. repeat (try (left; reflexivity); right).
Qed.

End LanguageMap.

(** The table is looked up without regard to letter case, and what it does
    not hold is plain text. *)
Example mapLanguage_samples :
  CodeEditor.mapLanguage "TypeScript" = Js.JStr "typescript"
  /\ CodeEditor.mapLanguage "PY" = Js.JStr "python"
  /\ CodeEditor.mapLanguage "c++" = Js.JStr "cpp"
  /\ CodeEditor.mapLanguage "fortran" = Js.JStr "plaintext"
  /\ CodeEditor.mapLanguage "toString" = Js.JStr "plaintext".
Proof. repeat split. Qed.

(** C9, where the code departs from it.  [mapLanguage] is meant to return a
    language identifier for every string and to be idempotent; for the input
    "constructor" (in any letter case) the lookup finds the member every
    object inherits, so the result is the built-in [Object] function rather
    than "plaintext", and applying the function to that result throws.  The
    same happens for "__proto__". *)
Theorem mapLanguage_inherited_member_is_returned :
  CodeEditor.mapLanguage "constructor" = Js.JBuiltin "Object"
  /\ CodeEditor.mapLanguage "Constructor" = Js.JBuiltin "Object"
  /\ CodeEditor.mapLanguage "__proto__" = Js.JObjectPrototype
  /\ CodeEditor.mapLanguage "constructor" <> Js.JStr "plaintext"
  /\ CodeEditor.mapLanguageOf (CodeEditor.mapLanguage "constructor")
     = Js.Thrown (Js.TypeError "language.toLowerCase is not a function")
  /\ Js.own_property "constructor" CodeEditor.languageMap = None.
Proof. repeat split. discriminate. Qed.

(** ** Persisted preferences *)


Section Persistence.
Import Js ReviewStore.



(** Whatever [JSON.parse] throws is swallowed: the state stays. *)
Lemma restoreParsed_thrown (e : JsError) (st : UIState) :
  restoreParsed (Thrown e) st = st.
Proof. reflexivity. Qed.


Lemma restore_nothing_stored (localStorage : Storage) (st : UIState) :
  localStorage !! "ui-preferences" = None -> restore localStorage st = st.
Proof. intros H. unfold restore. rewrite H. reflexivity. Qed.

End Persistence.




(** ** Paths and the repository browser *)

Section Paths.

Lemma split_not_nil (sep : ascii) (s : string) : Path.split sep s <> [].
Proof.
  destruct s as [|c rest]; simpl; [discriminate|].
  destruct (Ascii.eqb c sep); [discriminate|].
  destruct (Path.split sep rest); discriminate.
Qed.

Lemma join_cons (sep p : string) (q : string) (rest : list string) :
  Path.join sep (p :: q :: rest) = p ++ sep ++ Path.join sep (q :: rest).
Proof. reflexivity. Qed.

Lemma join_String (sep : string) (c : ascii) (p : string) (rest : list string) :
  Path.join sep (String c p :: rest) = String c (Path.join sep (p :: rest)).
Proof. destruct rest; reflexivity. Qed.

(** Joining the pieces with the separator gives the string back. *)
Lemma join_split (sep : ascii) (s : string) :
  Path.join (String sep EmptyString) (Path.split sep s) = s.
Proof.
  induction s as [|c rest IH]; [reflexivity|].
  simpl Path.split.
  destruct (Ascii.eqb_spec c sep) as [->|Hne].
  - pose proof (split_not_nil sep rest) as Hnil.
    destruct (Path.split sep rest) as [|q qs]; [contradiction|].
    rewrite join_cons, IH. reflexivity.
  - pose proof (split_not_nil sep rest) as Hnil.
    destruct (Path.split sep rest) as [|q qs]; [contradiction|].
    rewrite join_String, IH. reflexivity.
Qed.

Lemma split_no_sep (sep : ascii) (s : string) :
  Path.contains sep s = false -> Path.split sep s = [s].
Proof.
  induction s as [|c rest IH]; [reflexivity|].
  simpl. intros H. apply orb_false_iff in H as [Hc Hrest].
  rewrite Hc, (IH Hrest). reflexivity.
Qed.

Lemma split_app (sep : ascii) (a b : string) :
  Path.split sep (a ++ String sep b)
  = (Path.split sep a ++ Path.split sep b)%list.
Proof.
  induction a as [|c rest IH].
  - change (EmptyString ++ String sep b) with (String sep b).
    simpl. rewrite Ascii.eqb_refl.
    pose proof (split_not_nil sep b).
    destruct (Path.split sep b); [contradiction|]. reflexivity.
  - rewrite string_app_cons. simpl Path.split. rewrite IH.
    destruct (Ascii.eqb c sep); [reflexivity|].
    pose proof (split_not_nil sep rest).
    destruct (Path.split sep rest); [contradiction|]. reflexivity.
Qed.

Lemma split_last (sep : ascii) (s : string) :
  exists front last,
    Path.split sep s = (front ++ [last])%list /\
    Path.contains sep last = false.
Proof.
  induction s as [|c rest (front & last & Hsplit & Hlast)].
  - exists [], EmptyString. split; reflexivity.
  - simpl Path.split. rewrite Hsplit.
    destruct (Ascii.eqb c sep) eqn:Hc.
    + exists (EmptyString :: front), last. split; [reflexivity | exact Hlast].
    + destruct front as [|p front]; simpl.
      * exists [], (String c last). split; [reflexivity|].
        simpl. rewrite Hc. exact Hlast.
      * exists (String c p :: front), last. split; [reflexivity | exact Hlast].
Qed.

Lemma string_app_assoc (a b c : string) : (a ++ b) ++ c = a ++ (b ++ c).
Proof.
  induction a as [|x a IH]; [reflexivity|].
  rewrite !string_app_cons, IH. reflexivity.
Qed.

Lemma join_snoc (sep : string) (front : list string) (last : string) :
  front <> [] ->
  Path.join sep (front ++ [last]) = Path.join sep front ++ sep ++ last.
Proof.
  induction front as [|p front IH]; [congruence|]. intros _.
  destruct front as [|q front].
  - reflexivity.
  - change ((p :: q :: front) ++ [last])%list
      with (p :: (q :: (front ++ [last])%list)).
    rewrite !join_cons.
    change (q :: (front ++ [last])%list) with ((q :: front) ++ [last])%list.
    rewrite IH by discriminate.
    rewrite !string_app_assoc. reflexivity.
Qed.

Lemma parentPath_decompose (p : string) :
  (Path.contains "/" p = false /\ RepoNav.parentPath p = EmptyString) \/
  (exists last,
     Path.contains "/" last = false /\
     p = RepoNav.parentPath p ++ "/" ++ last).
Proof.
  unfold RepoNav.parentPath.
  destruct (split_last "/" p) as (front & last & Hsplit & Hlast).
  pose proof (join_split "/" p) as Hjoin.
  rewrite Hsplit in *. rewrite removelast_last.
  destruct front as [|q front].
  - left. simpl in Hjoin. subst last. split; [exact Hlast | reflexivity].
  - right. exists last. split; [exact Hlast|].
    rewrite join_snoc in Hjoin by discriminate. symmetry. exact Hjoin.
Qed.

Lemma length_append (a b : string) :
  String.length (a ++ b) = (String.length a + String.length b)%nat.
Proof.
  induction a as [|c a IH]; [reflexivity|].
  rewrite string_app_cons. simpl. rewrite IH. reflexivity.
Qed.

Lemma parentPath_shorter (p : string) :
  p <> EmptyString ->
  (String.length (RepoNav.parentPath p) < String.length p)%nat.
Proof.
  intros Hp.
  destruct (parentPath_decompose p) as [[_ H] | (last & _ & H)].
  - rewrite H. destruct p; [congruence | simpl; lia].
  - rewrite H at 2. rewrite !length_append. simpl. lia.
Qed.

End Paths.

Section RepoNavigation.
Import RepoNav.

(** X1.  Back undoes entering a directory: when the clicked directory's
    path is the current path followed by "/" and a name without "/" (the
    name alone at the root), clicking it and then pressing Back leaves the
    browser at the path it was at, with no file selected. *)
Theorem handleBack_undoes_entering_a_directory
  (st : State) (name path : string)
  (Hname : Path.contains "/" name = false)
  (Hpath : path = if backShown st then currentPath st ++ "/" ++ name else name) :
  handleBack (handleFileClick st path "dir")
  = {| currentPath := currentPath st; selectedFile := None |}.
Proof.
  unfold handleBack, handleFileClick, parentPath. simpl.
  f_equal. subst path. unfold backShown.
  destruct (currentPath st) as [|c cur] eqn:Hcur.
  - rewrite (split_no_sep _ _ Hname). reflexivity.
  - change (String c cur ++ "/" ++ name)
      with (String c cur ++ String "/" name).
    rewrite split_app, (split_no_sep _ _ Hname), removelast_last.
    apply (join_split "/").
Qed.

Lemma handleBack_undoes_entering_a_directory_witness :
  handleBack (handleFileClick
                {| currentPath := "src/lib"; selectedFile := Some "src/lib/a.ts" |}
                "src/lib/api" "dir")
  = {| currentPath := "src/lib"; selectedFile := None |}.
Proof.
  apply (handleBack_undoes_entering_a_directory
           {| currentPath := "src/lib"; selectedFile := Some "src/lib/a.ts" |}
           "api" "src/lib/api"); reflexivity.
Defined.

(** X2.  Back goes up exactly one level and clears the selection: the old
    path is the new one followed by "/" and a last segment without "/"; a
    path without "/" leads to the root. *)
Theorem handleBack_drops_the_last_segment (st : State) :
  selectedFile (handleBack st) = None /\
  ((Path.contains "/" (currentPath st) = false /\
    currentPath (handleBack st) = EmptyString) \/
   (exists last,
      Path.contains "/" last = false /\
      currentPath st = currentPath (handleBack st) ++ "/" ++ last)).
Proof.
  split; [reflexivity|]. apply parentPath_decompose.
Qed.

Lemma iter_handleBack_path (n : nat) (st : State) :
  currentPath (Nat.iter n handleBack st) = Nat.iter n parentPath (currentPath st).
Proof.
  induction n as [|n IH]; [reflexivity|].
  simpl. rewrite IH. reflexivity.
Qed.

Lemma parentPath_root : parentPath EmptyString = EmptyString.
Proof. reflexivity. Qed.

Lemma iter_parentPath_root (n : nat) (p : string) :
  (String.length p <= n)%nat -> Nat.iter n parentPath p = EmptyString.
Proof.
  revert p. induction n as [|n IH]; intros p Hlen.
  - destruct p; [reflexivity | simpl in Hlen; lia].
  - rewrite Nat.iter_succ_r. apply IH.
    destruct p as [|c p]; [rewrite parentPath_root; simpl; lia|].
    pose proof (parentPath_shorter (String c p)). 
    assert (String c p <> EmptyString) by discriminate. 
    specialize (H H0). lia.
Qed.

(** X3.  Back always leads to the root: every press shortens a path that
    is not empty, so after as many presses as the path has characters (or
    more) the browser is at the root, where the Back button is not
    shown. *)
Theorem handleBack_reaches_the_root (st : State) (n : nat) :
  (backShown st = true ->
   (String.length (currentPath (handleBack st))
    < String.length (currentPath st))%nat) /\
  ((String.length (currentPath st) <= n)%nat ->
   currentPath (Nat.iter n handleBack st) = EmptyString /\
   backShown (Nat.iter n handleBack st) = false).
Proof.
  split.
  - unfold backShown. intros Hshown. apply parentPath_shorter.
    destruct (currentPath st); [discriminate | discriminate].
  - intros Hlen.
    assert (currentPath (Nat.iter n handleBack st) = EmptyString) as Hroot.
    { rewrite iter_handleBack_path. apply iter_parentPath_root, Hlen. }
    split; [exact Hroot|]. unfold backShown. rewrite Hroot. reflexivity.
Qed.

(** X4.  A review is requested only for the file clicked last: after a
    click, Review asks for exactly that file (with the simple model), and
    for nothing when the click was on a directory or the path is empty;
    after Back, and before any click, it asks for nothing; clicking a file
    does not change the current directory. *)
Theorem handleReview_requests_the_selected_file
  (owner repo : string) (st : State) (path type : string) :
  handleReview owner repo (handleFileClick st path type)
  = (if String.eqb type "dir" || String.eqb path EmptyString then []
     else [Api.reviewFile owner repo
             {| Api.rf_path := path; Api.rf_ref := None;
                Api.use_complex_model := Some false |}]) /\
  handleReview owner repo (handleBack st) = [] /\
  handleReview owner repo initialState = [] /\
  (String.eqb type "dir" = false ->
   currentPath (handleFileClick st path type) = currentPath st).
Proof.
  unfold handleReview, handleFileClick.
  split; [|split; [reflexivity | split; [reflexivity|]]].
  - destruct (String.eqb type "dir"); [reflexivity|]. simpl.
    destruct path; reflexivity.
  - intros ->. reflexivity.
Qed.

End RepoNavigation.

(** ** The installations page *)

Section Installations.
Import Js InstallationsView.

(** X5.  A repository card is named by the second segment of the full
    name: for "owner/repo", with no "/" inside either part, that is the
    repository's name, and the card links to the repository page of that
    owner and repository; a full name without "/" has no second segment
    (the card shows no name). *)
Theorem repoName_is_the_second_segment (owner repo : string)
  (Howner : Path.contains "/" owner = false)
  (Hrepo : Path.contains "/" repo = false) :
  repoName (owner ++ "/" ++ repo) = Some repo /\
  Path.split "/" (repoLink (owner ++ "/" ++ repo))
  = [EmptyString; "github"; owner; repo] /\
  repoName owner = None.
Proof.
  unfold repoName, repoLink.
  change ("/github/" ++ owner ++ "/" ++ repo)
    with (EmptyString ++ String "/" ("github" ++ String "/" (owner ++ String "/" repo))).
  change (owner ++ "/" ++ repo) with (owner ++ String "/" repo).
  rewrite !split_app, !(split_no_sep _ _ Howner), !(split_no_sep _ _ Hrepo).
  repeat split.
Qed.

Lemma repoName_is_the_second_segment_witness :
  repoName "acme/api" = Some "api" /\
  Path.split "/" (repoLink "acme/api") = [EmptyString; "github"; "acme"; "api"] /\
  repoName "acme" = None.
Proof.
  apply (repoName_is_the_second_segment "acme" "api"); reflexivity.
Defined.

(** X6.  The sync banner has the error colours exactly when the sync
    request failed: a success message, whatever the installations are
    called, never starts with "Error", and a failure message always
    does. *)
Theorem sync_banner_error_style_iff_sync_failed
  (outcome : Completion (list string)) :
  errorStyled (syncMessage outcome) = true <-> exists err, outcome = Thrown err.
Proof.
  destruct outcome as [installations | err]; simpl.
  - split; [discriminate | intros [err H]; discriminate].
  - split; [intros _; exists err; reflexivity | reflexivity].
Qed.

End Installations.

(** ** File labels *)

Section FileLabels.
Import Js FileLabel.

Lemma tenths_bounds (num den : Z) :
  0 < den ->
  - den < 2 * (den * tenths num den - 10 * num) <= den.
Proof.
  intros Hden. unfold tenths.
  pose proof (Z.div_mod (20 * num + den) (2 * den) ltac:(lia)) as Hdm.
  pose proof (Z.mod_pos_bound (20 * num + den) (2 * den) ltac:(lia)) as Hmod.
  lia.
Qed.

(** X7.  A size of 1024 bytes or more, and a safe integer (below 2^53),
    is shown in KB (below 1024 * 1024 bytes) or MB with one digit after the
    point: the value shown is the multiple of a tenth of the unit nearest to
    the size (the larger one when two are equally near), it is at least
    1.0, and in KB it is at most 1024.0. *)
Theorem formatSize_shows_the_nearest_tenth (bytes : Z)
  (Hbytes : 1024 <= bytes) (Hsafe : bytes < 2 ^ 53) :
  let unit := if (bytes <? 1024 * 1024)%Z then 1024 else 1024 * 1024 in
  let unitName := if (bytes <? 1024 * 1024)%Z then " KB" else " MB" in
  exists whole tenth : Z,
    formatSize bytes = Z_to_string whole ++ "." ++ Z_to_string tenth ++ unitName /\
    1 <= whole /\ 0 <= tenth <= 9 /\
    (bytes < 1024 * 1024 -> whole <= 1024) /\
    - unit < 2 * (unit * (10 * whole + tenth) - 10 * bytes) <= unit.
Proof.
  cbv zeta. unfold formatSize.
  destruct (Z.ltb_spec bytes 1024) as [Hlt|_]; [lia|].
  assert (Hshape : forall den name, 
             toFixed1 bytes den ++ name
             = Z_to_string (tenths bytes den / 10) ++ "."
                 ++ Z_to_string (tenths bytes den mod 10) ++ name).
  { intros den name. unfold toFixed1. rewrite !string_app_assoc. reflexivity. }
  destruct (Z.ltb_spec bytes (1024 * 1024)) as [Hkb|Hmb].
  - exists (tenths bytes 1024 / 10), (tenths bytes 1024 mod 10).
    pose proof (tenths_bounds bytes 1024 ltac:(lia)) as Hb.
    pose proof (Z.div_mod (tenths bytes 1024) 10 ltac:(lia)) as Hdm.
    pose proof (Z.mod_pos_bound (tenths bytes 1024) 10 ltac:(lia)) as Hmod.
    split; [apply Hshape|]. repeat split; try lia.
  - exists (tenths bytes (1024 * 1024) / 10), (tenths bytes (1024 * 1024) mod 10).
    pose proof (tenths_bounds bytes (1024 * 1024) ltac:(lia)) as Hb.
    pose proof (Z.div_mod (tenths bytes (1024 * 1024)) 10 ltac:(lia)) as Hdm.
    pose proof (Z.mod_pos_bound (tenths bytes (1024 * 1024)) 10 ltac:(lia)) as Hmod.
    split; [apply Hshape|]. repeat split; try lia.
Qed.

Lemma formatSize_shows_the_nearest_tenth_witness :
  exists whole tenth : Z,
    formatSize 1048575 = Z_to_string whole ++ "." ++ Z_to_string tenth ++ " KB" /\
    1 <= whole /\ 0 <= tenth <= 9 /\
    (1048575 < 1024 * 1024 -> whole <= 1024) /\
    - 1024 < 2 * (1024 * (10 * whole + tenth) - 10 * 1048575) <= 1024.
Proof.
  apply (formatSize_shows_the_nearest_tenth 1048575); lia.
Defined.

Lemma last_split (sep : ascii) (a b : string) :
  Path.contains sep b = false ->
  List.last (Path.split sep (a ++ String sep b)) EmptyString = b.
Proof.
  intros Hb. rewrite split_app, (split_no_sep _ _ Hb). apply last_last.
Qed.

(** X8.  The icon of a file goes by what follows the last "." of its
    name, in the case it is written in: for a name ending in "." and a
    suffix without ".", the extension is that suffix, however many dots
    come before; a name without "." is its own extension. *)
Theorem extension_is_the_text_after_the_last_dot (stem suffix : string)
  (Hsuffix : Path.contains "." suffix = false) :
  extension (stem ++ "." ++ suffix) = suffix /\ extension suffix = suffix.
Proof.
  unfold extension. split.
  - change (stem ++ "." ++ suffix) with (stem ++ String "." suffix).
    apply last_split, Hsuffix.
  - rewrite (split_no_sep _ _ Hsuffix). reflexivity.
Qed.

Lemma extension_is_the_text_after_the_last_dot_witness :
  extension "archive.tar.gz" = "gz" /\ extension "gz" = "gz".
Proof.
  apply (extension_is_the_text_after_the_last_dot "archive.tar" "gz"). reflexivity.
Defined.

End FileLabels.

(** ** Numeric route parameters *)

Section RouteParams.
Import Js JSON Params.

Lemma parseInt10_digits (negative : bool) (d : Decimal.uint) (s rest : string) :
  d <> Decimal.Nil ->
  starts_with_digit rest = false ->
  splitSign (stripLeading s) = (negative, NilEmpty.string_of_uint d ++ rest) ->
  parseInt10 s = numberOfInteger negative (Z.of_N (N.of_uint d)).
Proof.
  intros Hnil Hrest Hsign. unfold parseInt10. rewrite Hsign.
  rewrite (span_digits_uint d rest Hrest).
  pose proof (NilEmpty.usu d) as Husu.
  destruct (NilEmpty.string_of_uint d) eqn:Hd.
  - destruct d; simpl in Hd; congruence.
  - rewrite Husu. reflexivity.
Qed.

Lemma stripLeading_uint (d : Decimal.uint) (rest : string) :
  starts_with_digit rest = false ->
  splitSign (stripLeading (NilEmpty.string_of_uint d ++ rest))
  = (false, NilEmpty.string_of_uint d ++ rest)
  \/ d = Decimal.Nil.
Proof.
  intros Hrest. destruct d; [right; reflexivity | left; reflexivity ..].
Qed.

(** A safe integer is a double. *)
Lemma numberOfInteger_safe (negative : bool) (n : Z) :
  n < 2 ^ 53 -> numberOfInteger negative n = NInt (if negative then - n else n).
Proof.
  intros Hn. unfold numberOfInteger.
  destruct (Z.ltb_spec n (2 ^ 53)); [reflexivity | lia].
Qed.

(** What [parseInt] reads from a safe integer written in decimal,
    whatever follows its digits. *)
Lemma parseInt10_Z (z : Z) (rest : string) :
  isSafeInteger z ->
  starts_with_digit rest = false ->
  parseInt10 (Z_to_string z ++ rest) = NInt z.
Proof.
  intros [Hlow Hhigh] Hrest. destruct z as [|p|p]; unfold Z_to_string.
  - unfold parseInt10.
    change (splitSign (stripLeading ("0" ++ rest))) with (false, String "0" rest).
    cbv beta iota.
    change (span_digits (String "0" rest))
      with (let '(ds, r) := span_digits rest in (String "0" ds, r)).
    rewrite (span_digits_stop rest Hrest). reflexivity.
  - destruct (stripLeading_uint (Pos.to_uint p) rest Hrest) as [Hsign|Hnil];
      [|exfalso; exact (DecimalPos.Unsigned.to_uint_nonnil p Hnil)].
    rewrite (parseInt10_digits false (Pos.to_uint p) _ rest
               (DecimalPos.Unsigned.to_uint_nonnil p) Hrest Hsign).
    unfold N.of_uint. rewrite DecimalPos.Unsigned.of_to.
    apply numberOfInteger_safe. exact Hhigh.
  - rewrite string_app_cons.
    rewrite (parseInt10_digits true (Pos.to_uint p)
               (String "-" (NilEmpty.string_of_uint (Pos.to_uint p) ++ rest)) rest
               (DecimalPos.Unsigned.to_uint_nonnil p) Hrest eq_refl).
    unfold N.of_uint. rewrite DecimalPos.Unsigned.of_to.
    apply numberOfInteger_safe. simpl Z.of_N. lia.
Qed.

Lemma string_of_uint_no_slash (d : Decimal.uint) :
  Path.contains "/" (NilEmpty.string_of_uint d) = false.
Proof. induction d; simpl; auto. Qed.

Lemma Z_to_string_no_slash (z : Z) : Path.contains "/" (Z_to_string z) = false.
Proof.
  destruct z; [reflexivity | apply string_of_uint_no_slash |].
  simpl. apply string_of_uint_no_slash.
Qed.

Lemma app_empty_r (s : string) : s ++ EmptyString = s.
Proof. induction s as [|c s IH]; [reflexivity|]. rewrite string_app_cons, IH. reflexivity. Qed.

(** X9.  The numeric route parameter round-trips through the links: for
    a safe integer, the page reads from the decimal text the links write
    (the last segment of a review link or of a pull-request link) the
    number it was written from; so it does from that text followed by
    anything that does not start with a digit, which it ignores. *)
Theorem parseInt10_reads_the_linked_number (z : Z) (rest owner repo : string)
  (Hsafe : isSafeInteger z)
  (Hrest : starts_with_digit rest = false) :
  parseInt10 (Z_to_string z ++ rest) = NInt z /\
  parseInt10 (lastSegment (reviewLink z)) = NInt z /\
  parseInt10 (lastSegment (pullLink owner repo z)) = NInt z /\
  getReviewEndpoint (parseInt10 (lastSegment (reviewLink z)))
  = Api.endpoint (Api.getReview z).
Proof.
  assert (Hplain : parseInt10 (Z_to_string z) = NInt z).
  { rewrite <- (app_empty_r (Z_to_string z)). apply parseInt10_Z; [exact Hsafe | reflexivity]. }
  assert (Hreview : lastSegment (reviewLink z) = Z_to_string z).
  { unfold lastSegment, reviewLink.
    change ("/reviews/" ++ Z_to_string z)
      with ("/reviews" ++ String "/" (Z_to_string z)).
    apply last_split, Z_to_string_no_slash. }
  assert (Hpull : lastSegment (pullLink owner repo z) = Z_to_string z).
  { unfold lastSegment, pullLink.
    replace ("/github/" ++ owner ++ "/" ++ repo ++ "/pulls/" ++ Z_to_string z)
      with (("/github/" ++ owner ++ "/" ++ repo ++ "/pulls")
              ++ String "/" (Z_to_string z)).
    - apply last_split, Z_to_string_no_slash.
    - rewrite !string_app_assoc. reflexivity. }
  split; [apply parseInt10_Z; [exact Hsafe | exact Hrest]|].
  rewrite Hreview, Hpull, Hplain. repeat split.
Qed.

Lemma parseInt10_reads_the_linked_number_witness :
  parseInt10 (Z_to_string 42 ++ "abc") = NInt 42 /\
  parseInt10 (lastSegment (reviewLink 42)) = NInt 42 /\
  parseInt10 (lastSegment (pullLink "acme" "api" 42)) = NInt 42 /\
  getReviewEndpoint (parseInt10 (lastSegment (reviewLink 42)))
  = Api.endpoint (Api.getReview 42).
Proof.
  apply (parseInt10_reads_the_linked_number 42 "abc" "acme" "api");
    [unfold isSafeInteger; lia | reflexivity].
Defined.

End RouteParams.

(** ** Query strings *)

Section QueryStrings.
Import Js UrlSearchParams.

Lemma string_app_nil_l (t : string) : EmptyString ++ t = t.
Proof. reflexivity. Qed.

Ltac expose_prefix H :=
  repeat (rewrite ?string_app_cons, ?string_app_nil_l in H).

Lemma allChars_app (P : ascii -> bool) (a b : string) :
  allChars P (a ++ b) = allChars P a && allChars P b.
Proof.
  induction a as [|c a IH]; [reflexivity|].
  rewrite string_app_cons. simpl. rewrite IH, andb_assoc. reflexivity.
Qed.

Lemma allChars_contains (P : ascii -> bool) (c : ascii) (s : string) :
  allChars P s = true -> P c = false -> Path.contains c s = false.
Proof.
  intros Hall Hc. induction s as [|d s IH]; [reflexivity|].
  simpl in *. apply andb_true_iff in Hall as [Hd Hs].
  rewrite (IH Hs), orb_false_r.
  destruct (Ascii.eqb_spec d c) as [->|]; [congruence | reflexivity].
Qed.

(** Every byte is written so that it is read back, and in the characters
    the serializer may write. *)
Lemma serializeByte_ascii (c : ascii) (rest : string) :
  decodeByte (serializeByte (N_of_ascii c) ++ rest) = Some (N_of_ascii c, rest)
  /\ allChars urlSafe (serializeByte (N_of_ascii c)) = true.
Proof. destruct c as [[] [] [] [] [] [] [] []]; split; reflexivity. Qed.

Lemma byte_is_ascii (b : N) : (b < 256)%N -> exists c, b = N_of_ascii c.
Proof.
  intros Hb. exists (ascii_of_N b). symmetry. apply N_ascii_embedding. exact Hb.
Qed.

Lemma decodeByte_serializeByte (b : N) (rest : string) :
  (b < 256)%N -> decodeByte (serializeByte b ++ rest) = Some (b, rest).
Proof. intros Hb. destruct (byte_is_ascii b Hb) as [c ->]. apply serializeByte_ascii. Qed.

Lemma serializeByte_safe (b : N) :
  (b < 256)%N -> allChars urlSafe (serializeByte b) = true.
Proof.
  intros Hb. destruct (byte_is_ascii b Hb) as [c ->].
  apply (serializeByte_ascii c EmptyString).
Qed.

Ltac lia_div := zify; Z.to_euclidean_division_equations; lia.

Lemma utf8_bytes (cp : N) : Forall (fun b => (b < 256)%N) (utf8 cp).
Proof.
  unfold utf8.
  destruct (N.ltb_spec cp 128); [|destruct (N.ltb_spec cp 2048); [|destruct (N.ltb_spec cp 65536)]];
    repeat constructor; lia_div.
Qed.

Lemma decodeScalar_utf8 (cp : N) (rest : list N) :
  (cp < 1114112)%N -> decodeScalar (utf8 cp ++ rest)%list = Some (cp, rest).
Proof.
  intros Hcp. unfold utf8.
  destruct (N.ltb_spec cp 128) as [H1|H1].
  - simpl. destruct (N.ltb_spec cp 128); [reflexivity | lia_div].
  - destruct (N.ltb_spec cp 2048) as [H2|H2].
    + unfold decodeScalar. cbn [app].
      destruct (N.ltb_spec (192 + cp / 64) 128); [lia_div|].
      destruct (N.ltb_spec (192 + cp / 64) 192); [lia_div|].
      destruct (N.ltb_spec (192 + cp / 64) 224); [|lia_div].
      do 2 f_equal. lia_div.
    + destruct (N.ltb_spec cp 65536) as [H3|H3].
      * unfold decodeScalar. cbn [app].
        destruct (N.ltb_spec (224 + cp / 4096) 128); [lia_div|].
        destruct (N.ltb_spec (224 + cp / 4096) 192); [lia_div|].
        destruct (N.ltb_spec (224 + cp / 4096) 224); [lia_div|].
        destruct (N.ltb_spec (224 + cp / 4096) 240); [|lia_div].
        do 2 f_equal. lia_div.
      * unfold decodeScalar. cbn [app].
        destruct (N.ltb_spec (240 + (cp / 262144) mod 8) 128); [lia_div|].
        destruct (N.ltb_spec (240 + (cp / 262144) mod 8) 192); [lia_div|].
        destruct (N.ltb_spec (240 + (cp / 262144) mod 8) 224); [lia_div|].
        destruct (N.ltb_spec (240 + (cp / 262144) mod 8) 240); [lia_div|].
        do 2 f_equal. lia_div.
Qed.

Lemma percentEncode_app_inj (a b : list N) (x y : string) :
  Forall (fun c => (c < 256)%N) a -> Forall (fun c => (c < 256)%N) b ->
  decodeByte x = None -> decodeByte y = None ->
  percentEncode a ++ x = percentEncode b ++ y -> a = b /\ x = y.
Proof.
  intros Ha Hb Hx Hy. revert b Hb.
  induction Ha as [|c a Hc Ha IH]; intros b Hb H; destruct Hb as [|d b Hd Hb];
    simpl in H.
  - split; [reflexivity | exact H].
  - change (EmptyString ++ x) with x in H.
    rewrite string_app_assoc in H. rewrite H in Hx.
    rewrite (decodeByte_serializeByte d _ Hd) in Hx. discriminate.
  - change (EmptyString ++ y) with y in H.
    rewrite string_app_assoc in H. rewrite <- H in Hy.
    rewrite (decodeByte_serializeByte c _ Hc) in Hy. discriminate.
  - rewrite !string_app_assoc in H.
    apply (f_equal decodeByte) in H.
    rewrite (decodeByte_serializeByte c _ Hc), (decodeByte_serializeByte d _ Hd) in H.
    injection H as -> H. destruct (IH b Hb H) as [-> ->]. split; reflexivity.
Qed.

Lemma utf8_not_nil (cp : N) : utf8 cp <> [].
Proof.
  unfold utf8. destruct (cp <? 128)%N; [discriminate|].
  destruct (cp <? 2048)%N; [discriminate|]. destruct (cp <? 65536)%N; discriminate.
Qed.

Lemma flat_map_utf8_inj (a b : list N) :
  Forall (fun cp => (cp < 1114112)%N) a -> Forall (fun cp => (cp < 1114112)%N) b ->
  flat_map utf8 a = flat_map utf8 b -> a = b.
Proof.
  intros Ha. revert b. induction Ha as [|c a Hc Ha IH]; intros b Hb H;
    destruct Hb as [|d b Hd Hb]; simpl in H.
  - reflexivity.
  - pose proof (utf8_not_nil d). destruct (utf8 d); [contradiction | discriminate].
  - pose proof (utf8_not_nil c). destruct (utf8 c); [contradiction | discriminate].
  - apply (f_equal decodeScalar) in H.
    rewrite (decodeScalar_utf8 c _ Hc), (decodeScalar_utf8 d _ Hd) in H.
    injection H as -> H. rewrite (IH b Hb H). reflexivity.
Qed.

Lemma flat_map_utf8_bytes (a : list N) :
  Forall (fun b => (b < 256)%N) (flat_map utf8 a).
Proof.
  induction a as [|c a IH]; simpl; [constructor|].
  apply Forall_app. split; [apply utf8_bytes | exact IH].
Qed.

(** Well-formed strings are read back from their scalar values. *)
Lemma scalarValues_wellFormed (n : nat) (units : list N) :
  (List.length units <= n)%nat -> wellFormed units = true ->
  flat_map codeUnits (scalarValues units) = units
  /\ Forall (fun cp => (cp < 1114112)%N) (scalarValues units).
Proof.
  revert units. induction n as [|n IH]; intros units Hlen Hwf.
  - destruct units; [split; [reflexivity | constructor] | simpl in Hlen; lia].
  - destruct units as [|u rest]; [split; [reflexivity | constructor]|].
    simpl in Hlen, Hwf |- *. unfold isHighSurrogate, isLowSurrogate in *.
    destruct (N.leb_spec 55296 u) as [Hh1|Hh1];
      destruct (N.leb_spec u 56319) as [Hh2|Hh2]; cbn [andb] in *.
    + destruct rest as [|l rest']; [discriminate|].
      destruct (N.leb_spec 56320 l) as [Hl1|Hl1];
        destruct (N.leb_spec l 57343) as [Hl2|Hl2]; cbn [andb] in *;
        try discriminate.
      destruct (IH rest' ltac:(simpl in Hlen; lia) Hwf) as [Hback Hvalid].
      split.
      * cbn [flat_map]. rewrite Hback. unfold codeUnits.
        destruct (N.ltb_spec (65536 + (u - 55296) * 1024 + (l - 56320)) 65536); [lia|].
        cbn [app]. f_equal; [lia_div | f_equal; lia_div].
      * constructor; [lia | exact Hvalid].
    + apply andb_true_iff in Hwf as [Hwf1 Hwf].
      apply andb_true_iff in Hwf1 as [Hlow Hu]. apply N.ltb_lt in Hu.
      destruct (N.leb_spec 56320 u) as [Hl1|Hl1];
        destruct (N.leb_spec u 57343) as [Hl2|Hl2]; cbn [andb negb] in *;
        try discriminate; try lia.
      destruct (IH rest ltac:(lia) Hwf) as [Hback Hvalid].
      split.
      * cbn [flat_map]. rewrite Hback. unfold codeUnits.
        destruct (N.ltb_spec u 65536); [reflexivity | lia].
      * constructor; [lia | exact Hvalid].
    + apply andb_true_iff in Hwf as [Hwf1 Hwf].
      apply andb_true_iff in Hwf1 as [Hlow Hu]. apply N.ltb_lt in Hu.
      destruct (N.leb_spec 56320 u) as [Hl1|Hl1];
        destruct (N.leb_spec u 57343) as [Hl2|Hl2]; cbn [andb negb] in *;
        try discriminate; try lia.
      destruct (IH rest ltac:(lia) Hwf) as [Hback Hvalid].
      split.
      * cbn [flat_map]. rewrite Hback. unfold codeUnits.
        destruct (N.ltb_spec u 65536); [reflexivity | lia].
      * constructor; [lia | exact Hvalid].
    + lia.
Qed.

Lemma scalarValues_inj (a b : list N) :
  wellFormed a = true -> wellFormed b = true ->
  scalarValues a = scalarValues b -> a = b.
Proof.
  intros Ha Hb H.
  destruct (scalarValues_wellFormed _ a (Nat.le_refl _) Ha) as [<- _].
  destruct (scalarValues_wellFormed _ b (Nat.le_refl _) Hb) as [<- _].
  rewrite H. reflexivity.
Qed.

Lemma serialize_app_inj (a b : list N) (x y : string) :
  wellFormed a = true -> wellFormed b = true ->
  decodeByte x = None -> decodeByte y = None ->
  serialize a ++ x = serialize b ++ y -> a = b /\ x = y.
Proof.
  intros Ha Hb Hx Hy H. unfold serialize in H.
  apply percentEncode_app_inj in H as [H ->];
    [| apply flat_map_utf8_bytes | apply flat_map_utf8_bytes | assumption ..].
  split; [|reflexivity].
  apply scalarValues_inj; [assumption ..|].
  apply flat_map_utf8_inj; [| | exact H];
    [apply (scalarValues_wellFormed _ a (Nat.le_refl _) Ha)
    | apply (scalarValues_wellFormed _ b (Nat.le_refl _) Hb)].
Qed.

Lemma serialize_safe (units : list N) : allChars urlSafe (serialize units) = true.
Proof.
  unfold serialize. induction (flat_map_utf8_bytes (scalarValues units)) as [|b bs Hb _ IH];
    [reflexivity|].
  simpl. rewrite allChars_app, (serializeByte_safe b Hb), IH. reflexivity.
Qed.

Lemma wellFormed_utf16 (s : string) : wellFormed (Js.utf16 s) = true.
Proof.
  unfold Js.utf16. induction s as [|c s IH]; [reflexivity|].
  simpl. rewrite IH.
  assert (Hc : (Js.code c < 256)%N) by apply N_ascii_bounded.
  unfold isHighSurrogate, isLowSurrogate.
  destruct (N.leb_spec 55296 (Js.code c)); [lia|].
  destruct (N.leb_spec 56320 (Js.code c)); [lia|].
  destruct (N.ltb_spec (Js.code c) 65536); [reflexivity | lia].
Qed.

Lemma utf16_inj (a b : string) : Js.utf16 a = Js.utf16 b -> a = b.
Proof.
  unfold Js.utf16. revert b. induction a as [|c a IH]; intros [|d b] H;
    simpl in H; try discriminate; [reflexivity|].
  injection H as Hc H. rewrite (IH b H). f_equal.
  unfold Js.code in Hc.
  rewrite <- (ascii_N_embedding c), <- (ascii_N_embedding d), Hc. reflexivity.
Qed.

Lemma serialize_inj (a b : list N) :
  wellFormed a = true -> wellFormed b = true ->
  serialize a = serialize b -> a = b.
Proof.
  intros Ha Hb H.
  apply (serialize_app_inj a b EmptyString EmptyString Ha Hb eq_refl eq_refl).
  rewrite !app_empty_r. exact H.
Qed.

Lemma truthyUnits_wellFormed (v : option (list N)) (units : list N) :
  wellFormedOption v = true -> truthyUnits v = Some units -> wellFormed units = true.
Proof.
  destruct v as [[|u r]|]; simpl; intros H E; try discriminate E.
  injection E as <-. exact H.
Qed.

Lemma getFileContent_query (owner repo : string) (path : list N) (ref : option (list N)) :
  getFileContent owner repo path ref
  = "/api/github/repos/" ++ owner ++ "/" ++ repo ++ "/file?path="
      ++ serialize path
      ++ match truthyUnits ref with
         | Some R => "&ref=" ++ serialize R
         | None => EmptyString
         end.
Proof.
  destruct ref as [[|c r]|]; unfold getFileContent, toString; simpl setIfTruthy;
    cbn [map Path.join app]; rewrite ?app_empty_r; reflexivity.
Qed.

Lemma getRepoContents_query (owner repo : string) (path ref : option (list N)) :
  getRepoContents owner repo path ref
  = "/api/github/repos/" ++ owner ++ "/" ++ repo ++ "/contents"
      ++ match truthyUnits path, truthyUnits ref with
         | None, None => EmptyString
         | Some P, None => "?path=" ++ serialize P
         | None, Some R => "?ref=" ++ serialize R
         | Some P, Some R => "?path=" ++ serialize P ++ "&ref=" ++ serialize R
         end.
Proof.
  destruct path as [[|c p]|], ref as [[|d r]|]; reflexivity.
Qed.

Lemma ref_part_stops (R : list N) :
  decodeByte ("&ref=" ++ serialize R) = None.
Proof. reflexivity. Qed.

(** X11.  For well-formed strings (every surrogate part of a pair) the
    request for a file's content determines the file and the ref: two
    calls for the same repository that request the same endpoint have the
    same path and, an absent ref and an empty one counting as the same, the
    same ref.  The condition is needed: a surrogate that is not part of a
    pair is sent as U+FFFD, so the paths made of the lone surrogate U+D800
    and of the lone surrogate U+D801 request the same endpoint. *)
Theorem getFileContent_endpoint_determines_path_and_ref
  (owner repo : string) (p1 p2 : list N) (r1 r2 : option (list N))
  (Hp1 : wellFormed p1 = true) (Hp2 : wellFormed p2 = true)
  (Hr1 : wellFormedOption r1 = true) (Hr2 : wellFormedOption r2 = true)
  (Hsame : getFileContent owner repo p1 r1 = getFileContent owner repo p2 r2) :
  p1 = p2 /\ truthyUnits r1 = truthyUnits r2 /\
  getFileContent owner repo [55296%N] None = getFileContent owner repo [55297%N] None.
Proof.
  assert (Hboth : p1 = p2 /\ truthyUnits r1 = truthyUnits r2).
  { rewrite !getFileContent_query in Hsame.
    do 5 apply String.app_inj in Hsame.
    destruct (truthyUnits r1) as [R1|] eqn:E1, (truthyUnits r2) as [R2|] eqn:E2.
    - apply serialize_app_inj in Hsame;
        [| assumption | assumption | apply ref_part_stops ..].
      destruct Hsame as [-> Href]. split; [reflexivity|].
      apply String.app_inj in Href. apply serialize_inj in Href;
        [congruence | exact (truthyUnits_wellFormed _ _ Hr1 E1)
                    | exact (truthyUnits_wellFormed _ _ Hr2 E2)].
    - apply serialize_app_inj in Hsame;
        [| assumption | assumption | apply ref_part_stops | reflexivity].
      destruct Hsame as [_ Href]. discriminate Href.
    - apply serialize_app_inj in Hsame;
        [| assumption | assumption | reflexivity | apply ref_part_stops].
      destruct Hsame as [_ Href]. discriminate Href.
    - rewrite !app_empty_r in Hsame. apply serialize_inj in Hsame; [|assumption ..].
      split; [exact Hsame | reflexivity]. }
  destruct Hboth as [Hp Hr]. split; [exact Hp | split; [exact Hr | reflexivity]].
Qed.

Lemma getFileContent_endpoint_determines_path_and_ref_witness :
  utf16 "src/a b.ts" = utf16 "src/a b.ts" /\
  truthyUnits None = truthyUnits (Some []) /\
  getFileContent "acme" "api" [55296%N] None = getFileContent "acme" "api" [55297%N] None.
Proof.
  apply (getFileContent_endpoint_determines_path_and_ref
           "acme" "api" (utf16 "src/a b.ts") (utf16 "src/a b.ts") None (Some []));
    reflexivity.
Defined.

(** X12.  A value reaches a query string only in the characters the
    serializer writes: letters, digits, [*], [-], [.], [_], [+] and [%].
    Any other character (such as [&], [=], [#], [?], [/] or a space) does
    not occur in a serialized value, in the path of a file-content request
    in particular. *)
Theorem serialize_writes_no_reserved_character (c : ascii) (s : list N)
  (Hc : urlSafe c = false) :
  Path.contains c (serialize s) = false /\
  forall owner repo,
    Path.contains c ("/api/github/repos/" ++ owner ++ "/" ++ repo ++ "/file?path=") = false ->
    Path.contains c (getFileContent owner repo s None) = false.
Proof.
  assert (Hser : Path.contains c (serialize s) = false)
    by exact (allChars_contains urlSafe c _ (serialize_safe s) Hc).
  split; [exact Hser|]. intros owner repo Hbase.
  rewrite getFileContent_query. simpl truthyUnits.
  rewrite app_empty_r.
  assert (Happ : forall a b, Path.contains c (a ++ b)
                             = Path.contains c a || Path.contains c b).
  { intros a b. induction a as [|d a IH]; [reflexivity|].
    rewrite string_app_cons. simpl. rewrite IH, orb_assoc. reflexivity. }
  replace ("/api/github/repos/" ++ owner ++ "/" ++ repo ++ "/file?path=" ++ serialize s)
    with (("/api/github/repos/" ++ owner ++ "/" ++ repo ++ "/file?path=") ++ serialize s)
    by (rewrite !string_app_assoc; reflexivity).
  rewrite Happ, Hbase, Hser. reflexivity.
Qed.

Lemma serialize_writes_no_reserved_character_witness :
  Path.contains "&" (serialize (utf16 "a&b=c d")) = false /\
  forall owner repo,
    Path.contains "&" ("/api/github/repos/" ++ owner ++ "/" ++ repo ++ "/file?path=") = false ->
    Path.contains "&" (getFileContent owner repo (utf16 "a&b=c d") None) = false.
Proof.
  apply (serialize_writes_no_reserved_character "&" (utf16 "a&b=c d")). reflexivity.
Defined.

(** The query string of a contents request is read back unambiguously. *)
Lemma contents_query_inj (P1 R1 P2 R2 : option (list N)) :
  wellFormedOption P1 = true -> wellFormedOption R1 = true ->
  wellFormedOption P2 = true -> wellFormedOption R2 = true ->
  match P1, R1 with
  | None, None => EmptyString
  | Some P, None => "?path=" ++ serialize P
  | None, Some R => "?ref=" ++ serialize R
  | Some P, Some R => "?path=" ++ serialize P ++ "&ref=" ++ serialize R
  end
  = match P2, R2 with
    | None, None => EmptyString
    | Some P, None => "?path=" ++ serialize P
    | None, Some R => "?ref=" ++ serialize R
    | Some P, Some R => "?path=" ++ serialize P ++ "&ref=" ++ serialize R
    end ->
  P1 = P2 /\ R1 = R2.
Proof.
  intros HP1 HR1 HP2 HR2 Hsame.
  destruct P1 as [P1|], R1 as [R1|], P2 as [P2|], R2 as [R2|];
    simpl in HP1, HR1, HP2, HR2;
    expose_prefix Hsame; try discriminate Hsame;
    repeat (injection Hsame as Hsame).
  - apply serialize_app_inj in Hsame; [|assumption | assumption | reflexivity ..].
    destruct Hsame as [-> Href]. expose_prefix Href.
    repeat (injection Href as Href). apply serialize_inj in Href; [|assumption ..].
    subst. split; reflexivity.
  - rewrite <- (app_empty_r (serialize P2)) in Hsame.
    apply serialize_app_inj in Hsame; [|assumption | assumption | reflexivity ..].
    destruct Hsame as [_ Href]. discriminate Href.
  - rewrite <- (app_empty_r (serialize P1)) in Hsame.
    apply serialize_app_inj in Hsame; [|assumption | assumption | reflexivity ..].
    destruct Hsame as [_ Href]. discriminate Href.
  - apply serialize_inj in Hsame; [|assumption ..]. subst. split; reflexivity.
  - apply serialize_inj in Hsame; [|assumption ..]. subst. split; reflexivity.
  - split; reflexivity.
Qed.

Lemma wellFormed_truthyUnits (v : option (list N)) :
  wellFormedOption v = true -> wellFormedOption (truthyUnits v) = true.
Proof. destruct v as [[|u r]|]; simpl; auto. Qed.

(** X13.  For well-formed strings the request for a directory's contents
    determines the path and the ref, an absent argument and an empty one
    counting as the same.  The condition is needed: the paths made of the
    lone surrogate U+D800 and of the lone surrogate U+D801 are both sent as
    U+FFFD and request the same endpoint. *)
Theorem getRepoContents_endpoint_determines_path_and_ref
  (owner repo : string) (p1 p2 r1 r2 : option (list N))
  (Hp1 : wellFormedOption p1 = true) (Hp2 : wellFormedOption p2 = true)
  (Hr1 : wellFormedOption r1 = true) (Hr2 : wellFormedOption r2 = true)
  (Hsame : getRepoContents owner repo p1 r1 = getRepoContents owner repo p2 r2) :
  truthyUnits p1 = truthyUnits p2 /\ truthyUnits r1 = truthyUnits r2 /\
  getRepoContents owner repo (Some [55296%N]) None
  = getRepoContents owner repo (Some [55297%N]) None.
Proof.
  rewrite !getRepoContents_query in Hsame.
  do 5 apply String.app_inj in Hsame.
  apply contents_query_inj in Hsame; [| apply wellFormed_truthyUnits; assumption ..].
  destruct Hsame as [Hp Hr]. split; [exact Hp | split; [exact Hr | reflexivity]].
Qed.

Lemma getRepoContents_endpoint_determines_path_and_ref_witness :
  truthyUnits (Some (utf16 "src/lib")) = truthyUnits (Some (utf16 "src/lib")) /\
  truthyUnits None = truthyUnits None /\
  getRepoContents "acme" "api" (Some [55296%N]) None
  = getRepoContents "acme" "api" (Some [55297%N]) None.
Proof.
  apply (getRepoContents_endpoint_determines_path_and_ref
           "acme" "api" (Some (utf16 "src/lib")) (Some (utf16 "src/lib")) None None);
    reflexivity.
Defined.

End QueryStrings.

(** ** Request headers *)

(** X14.  [fetchApi] always sends a Content-Type header and never drops or
    overrides what the caller passed: a header the caller set is sent with
    the caller's value (a Content-Type of the caller's own included), the
    method and the body are passed on, and when the caller set no
    Content-Type it is "application/json". *)
Theorem withJsonHeaders_keeps_the_callers_options (options : option Api.RequestInit) :
  is_Some (Api.headers (Api.withJsonHeaders options) !! "Content-Type") /\
  (options = None ->
   Api.withJsonHeaders options
   = {| Api.method := None; Api.body := None;
        Api.headers := {[ "Content-Type" := "application/json" ]} |}) /\
  (forall o, options = Some o ->
     Api.method (Api.withJsonHeaders options) = Api.method o /\
     Api.body (Api.withJsonHeaders options) = Api.body o /\
     (forall k v, Api.headers o !! k = Some v ->
                  Api.headers (Api.withJsonHeaders options) !! k = Some v) /\
     (forall k, k <> "Content-Type" ->
                Api.headers (Api.withJsonHeaders options) !! k = Api.headers o !! k) /\
     (Api.headers o !! "Content-Type" = None ->
      Api.headers (Api.withJsonHeaders options) !! "Content-Type"
      = Some "application/json")).
Proof.
  split; [|split].
  - destruct options as [o|]; simpl.
    + destruct (Api.headers o !! "Content-Type") as [v|] eqn:Hown.
      * exists v. apply lookup_union_Some_l, Hown.
      * exists "application/json". rewrite lookup_union_r by exact Hown.
        apply lookup_singleton_eq.
    + exists "application/json". apply lookup_singleton_eq.
  - intros ->. reflexivity.
  - intros o ->. simpl. repeat split.
    + intros k v Hk. apply lookup_union_Some_l, Hk.
    + intros k Hk. rewrite lookup_union_l; [reflexivity|].
      apply lookup_singleton_ne. congruence.
    + intros Hown. rewrite lookup_union_r by exact Hown.
      apply lookup_singleton_eq.
Qed.

(** ** The pull-request detail page *)

Section PRDetail.
Import Js Api Query PRDetailView.

(** X15.  What the pull-request page shows agrees with its polling: when
    the "Analysis in progress" banner is shown, or the Run button is
    disabled although no request of the button is in flight, the review
    list is polled every 3000 ms; in the empty state nothing is polled and
    no badge, panel or history is shown; and of the three status panels at
    most one is shown. *)
Theorem pr_view_agrees_with_polling
  (prNumber : Z) (st : QueryState (list PRReview)) (reviewPending : bool) :
  let v := view prNumber (data st) reviewPending in
  (analyzingBanner v = true -> PRDetailPage.refetchInterval st = Every 3000) /\
  (runDisabled v = true ->
   reviewPending = true \/ PRDetailPage.refetchInterval st = Every 3000) /\
  (emptyState v = true ->
   PRDetailPage.refetchInterval st = Off /\ badge v = None /\ history v = None /\
   analyzingBanner v = false /\ resultsPanel v = None /\ failedPanel v = None) /\
  (analyzingBanner v = true -> resultsPanel v = None /\ failedPanel v = None) /\
  (resultsPanel v <> None -> failedPanel v = None).
Proof.
  cbv zeta. unfold view, PRDetailPage.refetchInterval, PRDetailPage.hasAnalyzing.
  destruct (data st) as [[|r rs]|]; simpl.
  - repeat split; try discriminate; try congruence.
    intros H. rewrite orb_false_r in H. left. exact H.
  - destruct (pr_status r); simpl; rewrite ?orb_false_r, ?orb_true_r;
      repeat split; try discriminate; try congruence; auto.
  - repeat split; try discriminate; try congruence.
    intros H. rewrite orb_false_r in H. left. exact H.
Qed.

(** X16.  Every fetched review is shown exactly once and in order: the
    newest as the header of the page, the others in the history, which is
    rendered only when there is more than one review. *)
Theorem pr_view_shows_every_review_once
  (prNumber : Z) (reviews : option (list PRReview)) (reviewPending : bool) :
  let v := view prNumber reviews reviewPending in
  (match latestReview reviews with Some r => [r] | None => [] end
     ++ match history v with Some older => older | None => [] end)%list
  = match reviews with Some rs => rs | None => [] end /\
  (history v <> None <-> exists r1 r2 rest, reviews = Some (r1 :: r2 :: rest)) /\
  (emptyState v = true <-> latestReview reviews = None).
Proof.
  cbv zeta. destruct reviews as [[|r1 [|r2 rest]]|]; simpl.
  - split; [reflexivity|]. split; [|tauto].
    split; [congruence | intros (? & ? & ? & H); discriminate].
  - split; [reflexivity|]. split; [|split; discriminate].
    split; [congruence | intros (? & ? & ? & H); discriminate].
  - split; [reflexivity|]. split; [|split; discriminate].
    split; [intros _; eauto | discriminate].
  - split; [reflexivity|]. split; [|tauto].
    split; [congruence | intros (? & ? & ? & H); discriminate].
Qed.

End PRDetail.

(** ** What a mutation leaves alone *)

Section Isolation.
Import Js Api Query.
Context {D : Type}.
Implicit Types (cache : gmap QueryKey (CacheEntry D)).

Lemma invalidateQueries_unmatched filter cache key :
  partialMatchKey filter key = false ->
  invalidateQueries filter cache !! key = cache !! key.
Proof.
  intros Hmatch. rewrite invalidateQueries_lookup, Hmatch.
  destruct (cache !! key); reflexivity.
Qed.

(** X17.  Starting the analysis of a review touches that review's cache
    entries only: after it succeeded, the entry of every other review and
    the list of reviews are exactly as they were (so the list is not marked
    for a refetch), no entry has appeared or gone, and no cached data has
    changed. *)
Theorem analysis_invalidates_only_its_own_review
  cache (reviewId other : Z) (useComplexModel : bool) (Hother : other <> reviewId) :
  let after := settleMutation (ReviewPage.analyzeMutation reviewId useComplexModel)
                              true cache in
  after !! ReviewPage.queryKey other = cache !! ReviewPage.queryKey other /\
  after !! [KStr "reviews"] = cache !! [KStr "reviews"] /\
  mustRefetch after [KStr "reviews"] = mustRefetch cache [KStr "reviews"] /\
  (forall key, cached <$> after !! key = cached <$> cache !! key) /\
  (forall key, is_Some (after !! key) <-> is_Some (cache !! key)).
Proof.
  cbv zeta. simpl.
  assert (Hreview : partialMatchKey (ReviewPage.queryKey reviewId)
                                    (ReviewPage.queryKey other) = false).
  { simpl. rewrite bool_decide_eq_false_2 by congruence. reflexivity. }
  assert (Hlist : partialMatchKey (ReviewPage.queryKey reviewId) [KStr "reviews"] = false).
  { reflexivity. }
  split; [apply invalidateQueries_unmatched, Hreview|].
  split; [apply invalidateQueries_unmatched, Hlist|].
  split; [apply mustRefetch_unmatched, Hlist|].
  split; [intros key; apply invalidateQueries_keeps_data|].
  intros key. rewrite invalidateQueries_lookup.
  destruct (cache !! key); simpl; split; intros [x Hx]; eauto; discriminate.
Qed.

End Isolation.

Lemma analysis_invalidates_only_its_own_review_witness :
  let after := Query.settleMutation (ReviewPage.analyzeMutation 7 false) true freshCache in
  after !! ReviewPage.queryKey 8 = freshCache !! ReviewPage.queryKey 8 /\
  after !! [Query.KStr "reviews"] = freshCache !! [Query.KStr "reviews"] /\
  Query.mustRefetch after [Query.KStr "reviews"]
  = Query.mustRefetch freshCache [Query.KStr "reviews"] /\
  (forall key, Query.cached <$> after !! key = Query.cached <$> freshCache !! key) /\
  (forall key, is_Some (after !! key) <-> is_Some (freshCache !! key)).
Proof.
  apply (analysis_invalidates_only_its_own_review freshCache 7 8 false). lia.
Defined.


Section IsolationOfPullRequestPages.
Import Js Api Query.
Context {D : Type}.
Implicit Types (cache : gmap QueryKey (CacheEntry D)).

(** X18.  The two pull-request pages send the same review request but
    invalidate different entries: after a review started from the list of
    pull requests, the reviews cached for the pull request's own page are
    as they were, and after one started from that page, the cached list of
    pull requests is as it was. *)
Theorem pull_request_pages_invalidate_their_own_query_only
  cache (owner repo : string) (prNumber : Z) :
  mutationFn (@PullsPage.reviewMutation D owner repo prNumber)
  = mutationFn (@PRDetailPage.reviewMutation D owner repo prNumber) /\
  settleMutation (PullsPage.reviewMutation owner repo prNumber) true cache
    !! PRDetailPage.queryKey owner repo prNumber
  = cache !! PRDetailPage.queryKey owner repo prNumber /\
  settleMutation (PRDetailPage.reviewMutation owner repo prNumber) true cache
    !! PullsPage.queryKey owner repo
  = cache !! PullsPage.queryKey owner repo.
Proof.
  split; [reflexivity|]. simpl.
  split; apply invalidateQueries_unmatched; reflexivity.
Qed.

End IsolationOfPullRequestPages.

(** ** The results panel *)

Section ResultsPanel.
Import Js Api Query ReviewPage ReviewResults.

(** X19.  On a loaded review page the results panel and the controls
    agree: the "Start Analysis" controls are offered exactly when the panel
    is the prompt to start or the failure notice, the progress banner is
    shown exactly when the panel is the spinner, and the panel lists the
    results exactly when the review is completed; it then has one card per
    comment, in order, and says "No issues found!" exactly when there is no
    comment. *)
Theorem results_panel_agrees_with_the_controls
  (st : QueryState CodeReviewDetail) (useComplexModel analyzePending : bool)
  (rv : ReviewView)
  (Hloaded : page st useComplexModel analyzePending = Loaded rv) :
  let review := shown rv in
  data st = Some review /\
  (controls rv <> None <-> panelOf review = Prompt \/ panelOf review = Failed) /\
  (spinner rv = true <-> panelOf review = Analyzing) /\
  (status review = completed <->
   exists summaryCard heading noIssues cards,
     panelOf review = Results summaryCard heading noIssues cards) /\
  (forall summaryCard heading noIssues cards,
     panelOf review = Results summaryCard heading noIssues cards ->
     summaryCard = result review /\
     cards = map issueCard (comments review) /\
     (noIssues = true <-> comments review = [])).
Proof.
  cbv zeta. unfold page, render in Hloaded.
  destruct (isLoading st); [discriminate|].
  destruct (error st); [discriminate|].
  destruct (data st) as [review|]; [|discriminate].
  injection Hloaded as <-. simpl shown. split; [reflexivity|].
  unfold panelOf, ReviewResults.ReviewResults, canAnalyze, isAnalyzing. simpl.
  destruct (status review); simpl.
  - split; [split; [auto | discriminate]|].
    split; [split; discriminate|].
    split; [split; [discriminate | intros (? & ? & ? & ? & H); discriminate]|].
    discriminate.
  - split; [split; [congruence | intros [H|H]; discriminate]|].
    split; [split; reflexivity|].
    split; [split; [discriminate | intros (? & ? & ? & ? & H); discriminate]|].
    discriminate.
  - split; [split; [congruence | intros [H|H]; discriminate]|].
    split; [split; discriminate|].
    split; [split; [eauto 6 | reflexivity]|].
    intros summaryCard heading noIssues cards H. injection H as <- _ <- <-.
    repeat split.
    + destruct (comments review); [reflexivity | discriminate].
    + intros ->. reflexivity.
  - split; [split; [auto | discriminate]|].
    split; [split; discriminate|].
    split; [split; [discriminate | intros (? & ? & ? & ? & H); discriminate]|].
    discriminate.
Qed.

Lemma results_panel_agrees_with_the_controls_witness :
  let rv := {| shown := sampleReview completed; badge := "completed";
               controls := None; spinner := false |} in
  let review := shown rv in
  data completedQuery = Some review /\
  (controls rv <> None <-> panelOf review = Prompt \/ panelOf review = Failed) /\
  (spinner rv = true <-> panelOf review = Analyzing) /\
  (status review = completed <->
   exists summaryCard heading noIssues cards,
     panelOf review = Results summaryCard heading noIssues cards) /\
  (forall summaryCard heading noIssues cards,
     panelOf review = Results summaryCard heading noIssues cards ->
     summaryCard = result review /\
     cards = map issueCard (comments review) /\
     (noIssues = true <-> comments review = [])).
Proof.
  exact (results_panel_agrees_with_the_controls
           completedQuery false false
           {| shown := sampleReview completed; badge := "completed";
              controls := None; spinner := false |}
           eq_refl).
Defined.

(** X20.  The line label of an issue card identifies the lines: two
    comments whose cards show the same label start on the same line and
    end on the same line. *)
Theorem lineLabel_determines_the_lines (a b : ReviewComment)
  (Hsame : lineLabel a = lineLabel b) :
  line_start a = line_start b /\ line_end a = line_end b.
Proof.
  unfold lineLabel in Hsame. apply String.app_inj in Hsame.
  assert (Hstop : forall c : ReviewComment,
            starts_with_digit
              (if (line_end c =? line_start c)%Z then EmptyString
               else "-" ++ Z_to_string (line_end c)) = false).
  { intros c. destruct (line_end c =? line_start c)%Z; reflexivity. }
  assert (Hstart : line_start a = line_start b).
  { pose proof (parse_value_Z 0 (line_start a) _ (Hstop a)) as Ha.
    pose proof (parse_value_Z 0 (line_start b) _ (Hstop b)) as Hb.
    rewrite Hsame in Ha. congruence. }
  split; [exact Hstart|].
  rewrite Hstart in Hsame. apply String.app_inj in Hsame.
  destruct (Z.eqb_spec (line_end a) (line_start b)) as [Ha|Ha];
    destruct (Z.eqb_spec (line_end b) (line_start b)) as [Hb|Hb];
    try discriminate Hsame.
  - congruence.
  - apply String.app_inj in Hsame. apply Z_to_string_inj, Hsame.
Qed.

Lemma lineLabel_determines_the_lines_witness :
  line_start (sampleComment 1 "Unused import") = line_start (sampleComment 2 "Shadowed name") /\
  line_end (sampleComment 1 "Unused import") = line_end (sampleComment 2 "Shadowed name").
Proof.
  apply (lineLabel_determines_the_lines
           (sampleComment 1 "Unused import") (sampleComment 2 "Shadowed name")).
  reflexivity.
Defined.

End ResultsPanel.

(** ** The language select *)

(** X21.  Every option of the language select gives the editor a language
    Monaco knows: "plaintext" for "Auto-detect", which is sent to the
    server as no language at all, and the option's own value for every
    other option. *)
Theorem every_language_option_is_a_monaco_language :
  Forall (fun option : string * string =>
            let value := fst option in
            LanguageSelect.monacoLanguage value
            = Js.JStr (LanguageSelect.editorLanguage value) /\
            In (LanguageSelect.editorLanguage value) CodeEditor.monacoIds /\
            (HomePage.orUndefined value = None <-> snd option = "Auto-detect") /\
            (HomePage.orUndefined value <> None ->
             LanguageSelect.editorLanguage value = value))
         LanguageSelect.LANGUAGES.
Proof.
  unfold LanguageSelect.LANGUAGES.
  repeat (apply Forall_cons; split;
          [cbv zeta; simpl fst; simpl snd;
           split; [reflexivity|];
           split; [simpl; tauto|];
           split; [split; intros H; first [reflexivity | discriminate H]
                  | intros H; first [reflexivity | exfalso; apply H; reflexivity]]|]).
  apply Forall_nil_2.
Qed.

(** ** The preferences store *)

Section StoreWrites.
Import Js ReviewStore.

(** X22.  What is written depends on the theme and the font size only:
    toggling the sidebar or selecting an issue writes the same text again;
    every write replaces the previous one under the one key
    "ui-preferences" and leaves every other key of the storage alone. *)
Theorem subscriber_writes_theme_and_font_size_only
  (st later : UIState) (localStorage : Storage) (issue : option Z) (k : string) :
  persisted (toggleSidebar st) = persisted st /\
  persisted (setSelectedIssue issue st) = persisted st /\
  subscriber (toggleSidebar st) localStorage = subscriber st localStorage /\
  subscriber later (subscriber st localStorage) = subscriber later localStorage /\
  (k <> "ui-preferences" -> subscriber st localStorage !! k = localStorage !! k).
Proof.
  unfold subscriber. repeat split.
  - apply insert_insert_eq.
  - intros Hk. apply lookup_insert_ne. congruence.
Qed.

(** X23.  Whatever the storage holds, the start-up block changes nothing
    but the theme and the font size, and never leaves one of them null or
    undefined when it was not before: a stored text that does not parse, a
    stored [null], or an object without the keys ends in the old value or
    in the default. *)
Theorem restore_never_leaves_a_preference_nullish
  (localStorage : Storage) (st : UIState)
  (Htheme : isNullish (theme st) = false)
  (Hfont : isNullish (editorFontSize st) = false) :
  isNullish (theme (restore localStorage st)) = false /\
  isNullish (editorFontSize (restore localStorage st)) = false /\
  sidebarOpen (restore localStorage st) = sidebarOpen st /\
  selectedIssueId (restore localStorage st) = selectedIssueId st.
Proof.
  assert (Hnullish : forall a b, isNullish b = false -> isNullish (nullish a b) = false).
  { intros a b Hb. destruct a; simpl; auto. }
  assert (Hparsed : forall parsed,
            isNullish (theme (restoreParsed parsed st)) = false /\
            isNullish (editorFontSize (restoreParsed parsed st)) = false /\
            sidebarOpen (restoreParsed parsed st) = sidebarOpen st /\
            selectedIssueId (restoreParsed parsed st) = selectedIssueId st).
  { intros [v|e]; simpl; [|auto].
    destruct (member v "theme") as [t|]; [|auto].
    destruct (member v "editorFontSize") as [f|]; [|auto].
    simpl. repeat split; apply Hnullish; reflexivity. }
  unfold restore.
  destruct (localStorage !! "ui-preferences") as [[|c stored]|]; auto.
Qed.

Lemma restore_never_leaves_a_preference_nullish_witness :
  isNullish (theme (restore {[ "ui-preferences" := "null" ]} initialState)) = false /\
  isNullish (editorFontSize (restore {[ "ui-preferences" := "null" ]} initialState)) = false /\
  sidebarOpen (restore {[ "ui-preferences" := "null" ]} initialState)
  = sidebarOpen initialState /\
  selectedIssueId (restore {[ "ui-preferences" := "null" ]} initialState)
  = selectedIssueId initialState.
Proof.
  apply (restore_never_leaves_a_preference_nullish
           {[ "ui-preferences" := "null" ]} initialState); reflexivity.
Defined.

End StoreWrites.

(** ** Request bodies *)

Section RequestBodies.
Import Js JSON.











End RequestBodies.

(** ** Query keys and the requests they stand for *)

Section KeysAndRequests.
Import Js Api Query UrlSearchParams.

(** A text without "/" followed by "/" is read back unambiguously. *)
Lemma app_slash_inj (a b x y : string) :
  Path.contains "/" a = false -> Path.contains "/" b = false ->
  a ++ String "/" x = b ++ String "/" y -> a = b /\ x = y.
Proof.
  revert b. induction a as [|c a IH]; intros [|d b] Ha Hb H.
  - injection H as ->. split; reflexivity.
  - rewrite string_app_cons in H. injection H as <- _.
    simpl in Hb. discriminate Hb.
  - rewrite string_app_cons in H. injection H as -> _.
    simpl in Ha. discriminate Ha.
  - rewrite !string_app_cons in H. injection H as -> H.
    simpl in Ha, Hb.
    apply orb_false_iff in Ha as [_ Ha]. apply orb_false_iff in Hb as [_ Hb].
    destruct (IH b Ha Hb H) as [-> ->]. split; reflexivity.
Qed.



(** X26.  In the repository browser the key of the contents query names
    the request, for paths of code units below 256 (which hold no
    surrogate) in repositories whose owner and name contain no "/": two
    directories have the same query key exactly when their contents are
    requested from the same endpoint; at the root the endpoint has no query
    string. *)
Theorem contents_key_names_the_request
  (owner1 repo1 path1 owner2 repo2 path2 : string)
  (Howner1 : Path.contains "/" owner1 = false)
  (Hrepo1 : Path.contains "/" repo1 = false)
  (Howner2 : Path.contains "/" owner2 = false)
  (Hrepo2 : Path.contains "/" repo2 = false) :
  (RepoPage.contentsKey owner1 repo1 path1 = RepoPage.contentsKey owner2 repo2 path2
   <-> getRepoContents owner1 repo1 (Some (utf16 path1)) None
       = getRepoContents owner2 repo2 (Some (utf16 path2)) None) /\
  getRepoContents owner1 repo1
    (Some (utf16 (RepoNav.currentPath RepoNav.initialState))) None
  = "/api/github/repos/" ++ owner1 ++ "/" ++ repo1 ++ "/contents".
Proof.
  split.
  - split.
    + intros H. injection H as -> -> ->. reflexivity.
    + rewrite !getRepoContents_query. intros H. apply String.app_inj in H.
      apply app_slash_inj in H as [-> H]; [|assumption ..].
      apply app_slash_inj in H as [-> H]; [|assumption ..].
      repeat (injection H as H).
      apply (contents_query_inj (truthyUnits (Some (utf16 path1))) (truthyUnits None)
                                (truthyUnits (Some (utf16 path2))) (truthyUnits None))
        in H as [H _];
        [| apply wellFormed_truthyUnits, wellFormed_utf16 | reflexivity
         | apply wellFormed_truthyUnits, wellFormed_utf16 | reflexivity].
      assert (Hunits : utf16 path1 = utf16 path2).
      { destruct (utf16 path1), (utf16 path2); simpl in H; congruence. }
      apply utf16_inj in Hunits. congruence.
  - rewrite getRepoContents_query. simpl. rewrite !app_empty_r. reflexivity.
Qed.

Lemma contents_key_names_the_request_witness :
  (RepoPage.contentsKey "acme" "api" "src/lib" = RepoPage.contentsKey "acme" "api" "src"
   <-> getRepoContents "acme" "api" (Some (utf16 "src/lib")) None
       = getRepoContents "acme" "api" (Some (utf16 "src")) None) /\
  getRepoContents "acme" "api"
    (Some (utf16 (RepoNav.currentPath RepoNav.initialState))) None
  = "/api/github/repos/" ++ "acme" ++ "/" ++ "api" ++ "/contents".
Proof.
  apply (contents_key_names_the_request "acme" "api" "src/lib" "acme" "api" "src");
    reflexivity.
Defined.

End KeysAndRequests.

(** ** Clicking a row of the file tree *)

Section TreeClicks.
Import FileTree RepoNav.

(** X27.  Clicking a row with the folder icon enters that directory and
    clears the selection, so that no row is highlighted; clicking any other
    row leaves the directory as it is and selects the file, after which the
    highlighted rows are exactly the rows of that path. *)
Theorem clicking_a_row_enters_or_selects
  (st : State) (item other : FileTreeItem) (selectedPath : option string) :
  let st' := handleFileClick st (path item) (type item) in
  (folderIcon (row selectedPath item) = true ->
   currentPath st' = path item /\ selectedFile st' = None /\
   selected (row (selectedFile st') other) = false) /\
  (folderIcon (row selectedPath item) = false ->
   currentPath st' = currentPath st /\ selectedFile st' = Some (path item) /\
   (selected (row (selectedFile st') other) = true <-> path other = path item)).
Proof.
  cbv zeta. unfold handleFileClick, row. simpl.
  destruct (String.eqb (type item) "dir"); simpl.
  - split; [auto | discriminate].
  - split; [discriminate|]. intros _. repeat split.
    + intros H. apply String.eqb_eq in H. congruence.
    + intros H. apply String.eqb_eq. congruence.
Qed.

End TreeClicks.

(** ** Decorations and icons *)

Section Colours.
Import Js Api Decorations.

(** X28.  The editor of the review page decorates the comments: with the
    editor mounted it adds no decoration exactly when the review has no
    comment (and only then has no glyph margin); otherwise it adds one
    whole-line decoration per comment, in order, spanning the comment's
    lines and classed by its severity.  The overview-ruler colour of a
    severity that is not the name of an inherited object member is one of
    the four colours of the table, the colour of "info" when the severity is
    not in the table. *)
Theorem decorations_follow_the_comments (review : CodeReviewDetail)
  (line : HighlightedLine) :
  let lines := highlightedLines review in
  (handleEditorMount lines true true = None <-> comments review = []) /\
  (glyphMargin lines = false <-> comments review = []) /\
  (forall decorations,
     handleEditorMount lines true true = Some decorations ->
     map (fun d => (startLineNumber d, endLineNumber d, isWholeLine d, className d))
         decorations
     = map (fun c => (line_start c, line_end c, true, "highlight-" ++ severity c))
           (comments review)) /\
  (object_prototype_member (hl_severity line) = None ->
   exists colour,
     rulerColor (decoration line) = JStr colour /\
     In (JStr colour) (map snd severityColors) /\
     (own_property (hl_severity line) severityColors = None ->
      JStr colour = get severityColors "info")).
Proof.
  cbv zeta. unfold handleEditorMount, glyphMargin, highlightedLines.
  rewrite length_map.
  split; [|split; [|split]].
  - destruct (comments review); simpl; split; intros H; first [reflexivity | discriminate H].
  - destruct (comments review); simpl; split; intros H; first [reflexivity | discriminate H].
  - intros decorations. destruct (comments review) as [|c cs]; [discriminate|].
    change ((0 <? List.length (c :: cs))%nat && true && true) with true.
    cbv beta iota. intros [= <-]. cbn [map]. f_equal.
    rewrite !map_map. reflexivity.
  - intros Hproto. change (rulerColor (decoration line))
      with (nullish (get severityColors (hl_severity line)) (get severityColors "info")).
    generalize (hl_severity line) Hproto. clear. intros s Hproto.
    assert (Hget : get severityColors s
                   = match own_property s severityColors with
                     | Some v => v
                     | None => JUndefined
                     end).
    { unfold get. rewrite Hproto. reflexivity. }
    rewrite Hget.
    destruct (own_property s severityColors) as [v|] eqn:Hown.
    + pose proof (in_map snd _ _ (own_property_In _ _ _ Hown)) as Hin.
      simpl in Hin.
      destruct Hin as [<-|[<-|[<-|[<-|[]]]]]; eexists;
        (split; [reflexivity|]); (split; [simpl; tauto | discriminate]).
    + eexists. split; [reflexivity|]. split; [simpl; tauto | reflexivity].
Qed.

Lemma colors_are_class_names :
  forallb (fun entry => match snd entry with
                        | JStr s => negb (String.eqb s EmptyString)
                        | _ => false
                        end) FileIcon.colors = true.
Proof. reflexivity. Qed.

(** X29.  The colour of a file's icon goes by the extension alone: a name
    ending in "." and a suffix without "." is coloured as the suffix is.
    When the extension is not the name of an inherited object member, the
    colour is a class name: the one the table gives the extension, and
    "text-muted" when the table does not list it. *)
Theorem file_icon_colour_goes_by_the_extension (stem suffix : string)
  (Hsuffix : Path.contains "." suffix = false)
  (Hproto : object_prototype_member suffix = None) :
  FileIcon.colorOf (stem ++ "." ++ suffix) = FileIcon.colorOf suffix /\
  exists class,
    FileIcon.colorOf suffix = JStr class /\
    match own_property suffix FileIcon.colors with
    | Some v => v = JStr class
    | None => class = "text-muted"
    end.
Proof.
  assert (Hext : FileLabel.extension (stem ++ "." ++ suffix) = suffix).
  { unfold FileLabel.extension.
    change (stem ++ "." ++ suffix) with (stem ++ String "." suffix).
    apply last_split, Hsuffix. }
  assert (Hown : FileLabel.extension suffix = suffix).
  { unfold FileLabel.extension. rewrite (split_no_sep _ _ Hsuffix). reflexivity. }
  unfold FileIcon.colorOf. rewrite Hext, Hown. split; [reflexivity|].
  unfold FileIcon.color.
  destruct suffix as [|c e]; [exists "text-muted"; split; reflexivity|].
  unfold get. rewrite Hproto.
  destruct (own_property (String c e) FileIcon.colors) as [v|] eqn:Hfound.
  - pose proof colors_are_class_names as Hall.
    rewrite forallb_forall in Hall.
    specialize (Hall _ (own_property_In _ _ _ Hfound)). simpl in Hall.
    destruct v as [| | | |s| | | |]; try discriminate.
    exists s. simpl. rewrite Hall. split; reflexivity.
  - exists "text-muted". split; reflexivity.
Qed.

Lemma file_icon_colour_goes_by_the_extension_witness :
  FileIcon.colorOf ("archive.tar" ++ "." ++ "py") = FileIcon.colorOf "py" /\
  exists class,
    FileIcon.colorOf "py" = JStr class /\
    match own_property "py" FileIcon.colors with
    | Some v => v = JStr class
    | None => class = "text-muted"
    end.
Proof.
  apply (file_icon_colour_goes_by_the_extension "archive.tar" "py"); reflexivity.
Defined.

End Colours.
